(** * Contribution statistics of [.github/scripts/generate-stats.js]

    A shallow embedding of the statistics script and the properties its
    specification states about it.

    Conventions of the embedding.
    - A calendar day, which the script carries as the string "YYYY-MM-DD"
      (the part of an ISO-8601 UTC timestamp before the 'T'), is its day
      number: the number of days since 1970-01-01.  [new Date(s)] of such a
      string is UTC midnight of that day, in milliseconds.
    - The clock is a parameter [now], in milliseconds since the epoch, and so
      is the time zone of the runner, which [setDate], [getDate] and
      [getFullYear] consult.
    - [Array.prototype.sort] is stable; it is computed by insertion.  (With a
      comparator that is not consistent, which takes a total that is not a
      number, the standard leaves the order to the engine.)
    - A Number is a double.  The non-negative doubles the script computes
      with are kept as fractions [num / den]; addition, division and
      multiplication round the exact result to the nearest double, ties to
      even (IEEE 754 binary64).
    - A text is the string of its UTF-8 bytes; its length, where JavaScript
      takes it, is counted in UTF-16 code units.  README.md is valid UTF-8.
    - The GitHub API is a parameter: a function from the requests made so
      far and the next request to its response.  A response with status 200
      carries either a body that [JSON.parse] accepts, of the shape the API
      documents, or a body that it rejects.
    - The variables of the environment, when they are set, and the names of
      owners and repositories hold characters that a header and a request
      path take, so that [https.get] sends every request it is given.  *)

From Stdlib Require Import ZArith List Lia Bool Permutation Sorted.
From Stdlib Require Import String Ascii DecimalString.
From Stdlib Require Import Floats Uint63.
Import ListNotations.
Open Scope string_scope.
Open Scope list_scope.
Open Scope Z_scope.

(** ** Arrays and Sets *)

Section JSArray.
Context {A : Type}.

(** [after a b] is the test [compareFn(a, b) > 0]: [a] is to be placed
    after [b]. *)
Variable after : A -> A -> bool.

Fixpoint sort_insert (x : A) (l : list A) : list A :=
  match l with
  | [] => [x]
  | y :: l' => if after x y then y :: sort_insert x l' else x :: l
  end.

(** [arr.sort(compareFn)]: elements that compare equal keep their order. *)
Definition Array_sort (l : list A) : list A := fold_right sort_insert [] l.

Variable eqb : A -> A -> bool.

(** [arr.includes(x)] *)
Definition includes (l : list A) (x : A) : bool := existsb (eqb x) l.

(** [set.add(x)] on a Set kept in insertion order. *)
Definition Set_add (s : list A) (x : A) : list A :=
  if includes s x then s else s ++ [x].

(** [[...new Set(l)]] *)
Definition Set_of (l : list A) : list A := fold_left Set_add l [].
End JSArray.

(** ** Objects *)

(** An object, as the list of its own properties in creation order. *)
Section JSObject.
Context {K V : Type}.
Variable keqb : K -> K -> bool.

(** [o[k]], [None] standing for [undefined]. *)
Fixpoint obj_get (o : list (K * V)) (k : K) : option V :=
  match o with
  | [] => None
  | (k', v) :: o' => if keqb k' k then Some v else obj_get o' k
  end.

(** [o[k] = v]: an existing property keeps its place, a new one is added
    last. *)
Fixpoint obj_set (o : list (K * V)) (k : K) (v : V) : list (K * V) :=
  match o with
  | [] => [(k, v)]
  | (k', v') :: o' => if keqb k' k then (k, v) :: o' else (k', v') :: obj_set o' k v
  end.
End JSObject.

(** ** Dates *)

Definition isoDate := Z.

Definition msPerDay : Z := 1000 * 60 * 60 * 24.

(** [new Date(s)] for a date-only string [s]. *)
Definition Date_of (s : isoDate) : Z := s * msPerDay.

(** [t.toISOString().split('T')[0]] *)
Definition toISODate (t : Z) : isoDate := t / msPerDay.

(** The time zone of the runner: the offset from UTC, in milliseconds, that
    is in force at an instant, and the offset with which a local time is
    read as an instant.  (Where a change of offset repeats or skips local
    times, ECMAScript reads them with the offset before the change.) *)
Record TimeZone := { offset_at : Z -> Z; offset_of_local : Z -> Z }.

(** [LocalTime(t)] and [UTC(t)] of ECMAScript. *)
Definition LocalTime (zone : TimeZone) (t : Z) : Z := t + offset_at zone t.

Definition UTC (zone : TimeZone) (local : Z) : Z := local - offset_of_local zone local.

(** A zone whose offset never changes; the zone UTC. *)
Definition fixed_offset (zone : TimeZone) (offset : Z) : Prop :=
  (forall t : Z, offset_at zone t = offset) /\
  (forall local : Z, offset_of_local zone local = offset).

Definition utc : TimeZone := {| offset_at := fun _ => 0; offset_of_local := fun _ => 0 |}.

(** ** calculateStreaks *)

Record Streaks := { current : nat; longest : nat; total : nat }.

Section Streaks.
Variable zone : TimeZone.

(** [t.setDate(t.getDate() - 1)]: the local time of day of [t] on the day
    before its local day, read as an instant. *)
Definition setDate_prev (t : Z) : Z := UTC zone (LocalTime zone t - msPerDay).

(** The loop of lines 77-85; [n] counts the iterations left. *)
Fixpoint currentStreak_loop (n : nat) (sortedDates : list isoDate)
    (checkDate : Z) (currentStreak : nat) : nat :=
  match n with
  | O => currentStreak
  | S n' =>
      let dateStr := toISODate checkDate in
      if includes Z.eqb sortedDates dateStr
      then currentStreak_loop n' sortedDates (setDate_prev checkDate) (S currentStreak)
      else currentStreak
  end.

(** The loop of lines 88-103 over the elements still to visit; [prev] is
    [sortedDates[i - 1]], absent when [i = 0].  It returns
    [(longestStreak, tempStreak)]. *)
Fixpoint longestStreak_loop (prev : option isoDate) (rest : list isoDate)
    (longestStreak tempStreak : nat) : nat * nat :=
  match rest with
  | [] => (longestStreak, tempStreak)
  | curr :: rest' =>
      match prev with
      | None => longestStreak_loop (Some curr) rest' longestStreak 1
      | Some p =>
          let diffDays := (Date_of p - Date_of curr) / msPerDay in
          if diffDays =? 1
          then longestStreak_loop (Some curr) rest' longestStreak (S tempStreak)
          else longestStreak_loop (Some curr) rest' (Nat.max longestStreak tempStreak) 1
      end
  end.

(** [[...new Set(dates)].sort((a, b) => new Date(b) - new Date(a))] *)
Definition sortedDates_of (dates : list isoDate) : list isoDate :=
  Array_sort (fun a b => 0 <? Date_of b - Date_of a) (Set_of Z.eqb dates).

Definition calculateStreaks (now : Z) (dates : list isoDate) : Streaks :=
  if (List.length dates =? 0)%nat then {| current := 0; longest := 0; total := 0 |}
  else
    let sortedDates := sortedDates_of dates in
    let currentStreak := currentStreak_loop (List.length sortedDates) sortedDates now 0 in
    let '(longestStreak, tempStreak) := longestStreak_loop None sortedDates 0 0 in
    let longestStreak := Nat.max longestStreak tempStreak in
    {| current := currentStreak; longest := longestStreak; total := List.length sortedDates |}.
End Streaks.

(** Descending order of a numeric key, the order the script's comparators
    produce. *)
Definition desc {A : Type} (key : A -> Z) (a b : A) : Prop := key b <= key a.

(** The [k] consecutive calendar days that end at day [d] are all in
    [dates]. *)
Definition streak_in (dates : list isoDate) (d : isoDate) (k : nat) : Prop :=
  forall i : nat, (i < k)%nat -> In (d - Z.of_nat i) dates.

(** ** calculateYearlyStats *)

(** The proleptic Gregorian calendar: year, month and day of month of a day
    number. *)
Definition civil_from_days (z : Z) : Z * Z * Z :=
  let z := z + 719468 in
  let era := z / 146097 in
  let doe := z - era * 146097 in
  let yoe := (doe - doe / 1460 + doe / 36524 - doe / 146096) / 365 in
  let doy := doe - (365 * yoe + yoe / 4 - yoe / 100) in
  let mp := (5 * doy + 2) / 153 in
  let d := doy - (153 * mp + 2) / 5 + 1 in
  let m := if mp <? 10 then mp + 3 else mp - 9 in
  let y := yoe + era * 400 in
  (if m <=? 2 then y + 1 else y, m, d).

(** The day number of a year, month and day of month: the day the string
    "YYYY-MM-DD" names. *)
Definition days_from_civil (y m d : Z) : isoDate :=
  let y := if m <=? 2 then y - 1 else y in
  let era := y / 400 in
  let yoe := y - era * 400 in
  let doy := (153 * (if 2 <? m then m - 3 else m + 9) + 2) / 5 + d - 1 in
  let doe := yoe * 365 + yoe / 4 - yoe / 100 + doy in
  era * 146097 + doe - 719468.

(** The year of a day: the YYYY of its string. *)
Definition calendar_year (date : isoDate) : Z :=
  let '(y, _, _) := civil_from_days date in y.

(** The object [yearly]: its property names are the years.  Property names
    that are array indices are enumerated first, in ascending order, the
    others after them in creation order. *)
Definition is_array_index (k : Z) : bool := (0 <=? k) && (k <? 2 ^ 32 - 1).

Definition Object_entries {V : Type} (o : list (Z * V)) : list (Z * V) :=
  Array_sort (fun a b => fst b <? fst a) (filter (fun e => is_array_index (fst e)) o)
  ++ filter (fun e => negb (is_array_index (fst e))) o.

Module YearData.
Record t := { days : list isoDate; contributions : nat }.
End YearData.

Record YearSummary := { year : Z; activeDays : nat; contributions : nat }.

Section Yearly.
Variable zone : TimeZone.

(** [t.getFullYear()]: the year of the local day of [t]. *)
Definition getFullYear (t : Z) : Z :=
  let '(y, _, _) := civil_from_days (LocalTime zone t / msPerDay) in y.

(** The body of the [forEach] of lines 117-124. *)
Definition yearly_step (yearly : list (Z * YearData.t)) (date : isoDate)
  : list (Z * YearData.t) :=
  let year := getFullYear (Date_of date) in
  let data :=
    match obj_get Z.eqb yearly year with
    | Some data => data
    | None => {| YearData.days := []; YearData.contributions := 0 |}
    end in
  obj_set Z.eqb yearly year
    {| YearData.days := Set_add Z.eqb (YearData.days data) date;
       YearData.contributions := S (YearData.contributions data) |}.

Definition calculateYearlyStats (dates : list isoDate) : list YearSummary :=
  let yearly := fold_left yearly_step dates [] in
  map (fun '(year, data) =>
         {| year := year;
            activeDays := List.length (YearData.days data);
            contributions := YearData.contributions data |})
      (Array_sort (fun a b => 0 <? fst b - fst a) (Object_entries yearly)).

(** The year under which the script files a date, and the summary of the
    dates filed under a year: the number of distinct dates and the number of
    dates. *)
Definition year_of (date : isoDate) : Z := getFullYear (Date_of date).

Definition in_year (y : Z) (date : isoDate) : bool := year_of date =? y.

Definition summary_of (dates : list isoDate) (y : Z) : YearSummary :=
  {| year := y;
     activeDays := List.length (nodup Z.eq_dec (filter (in_year y) dates));
     contributions := List.length (filter (in_year y) dates) |}.

(** What the accumulating object holds for a year after the dates [dates]. *)
Definition year_data (dates : list isoDate) (y : Z) : YearData.t :=
  {| YearData.days := Set_of Z.eqb (filter (in_year y) dates);
     YearData.contributions := List.length (filter (in_year y) dates) |}.
End Yearly.


(** ** Numbers *)

(** The doubles of the script are never negative: [NaN], [Infinity], and
    the finite double [num / den]. *)
Inductive number := NaN | Infinity | Finite (num den : Z).

(** The integer nearest to [n / d], the even one of two that are equally
    near. *)
Definition rne (n d : Z) : Z :=
  let q := n / d in
  match 2 * (n mod d) ?= d with
  | Lt => q
  | Gt => q + 1
  | Eq => if Z.even q then q else q + 1
  end.

(** [n / d] divided by [2 ^ e], as a fraction. *)
Definition scale (n d e : Z) : Z * Z :=
  if e <? 0 then (n * 2 ^ (- e), d) else (n, d * 2 ^ e).

(** The exponent of the unit in the last place of the double nearest to
    [n / d]: the [e] with [2^52 <= n / (d * 2^e) < 2^53], and -1074 for the
    subnormal numbers. *)
Definition binade (n d : Z) : Z :=
  let e0 := Z.log2 n - Z.log2 d - 52 in
  let '(n', d') := scale n d e0 in
  let e := if n' <? 2 ^ 52 * d' then e0 - 1 else e0 in
  Z.max e (-1074).

(** The double nearest to the positive fraction [n / d]. *)
Definition round53 (n d : Z) : number :=
  let e := binade n d in
  let '(n', d') := scale n d e in
  let m := rne n' d' in
  if (971 <? e) || ((e =? 971) && (m =? 2 ^ 53)) then Infinity
  else if e <? 0 then Finite m (2 ^ (- e)) else Finite (m * 2 ^ e) 1.

(** The Number of a non-negative integer (a number literal, a JSON number). *)
Definition of_Z (z : Z) : number := if z =? 0 then Finite 0 1 else round53 z 1.

(** [x / y] *)
Definition fdiv (x y : number) : number :=
  match x, y with
  | NaN, _ | _, NaN => NaN
  | Infinity, Infinity => NaN
  | Infinity, Finite _ _ => Infinity
  | Finite _ _, Infinity => Finite 0 1
  | Finite n1 d1, Finite n2 d2 =>
      if n2 =? 0 then (if n1 =? 0 then NaN else Infinity)
      else if n1 =? 0 then Finite 0 1
      else round53 (n1 * d2) (d1 * n2)
  end.

(** [x * y] *)
Definition fmul (x y : number) : number :=
  match x, y with
  | NaN, _ | _, NaN => NaN
  | Infinity, Infinity => Infinity
  | Infinity, Finite n _ | Finite n _, Infinity => if n =? 0 then NaN else Infinity
  | Finite n1 d1, Finite n2 d2 =>
      if (n1 =? 0) || (n2 =? 0) then Finite 0 1
      else round53 (n1 * n2) (d1 * d2)
  end.

(** [x + y] *)
Definition fadd (x y : number) : number :=
  match x, y with
  | NaN, _ | _, NaN => NaN
  | Infinity, _ | _, Infinity => Infinity
  | Finite n1 d1, Finite n2 d2 =>
      if n1 * d2 + n2 * d1 =? 0 then Finite 0 1
      else round53 (n1 * d2 + n2 * d1) (d1 * d2)
  end.

(** A Number that counts as true: neither 0 nor [NaN]. *)
Definition truthy (x : number) : bool :=
  match x with
  | NaN => false
  | Infinity => true
  | Finite n _ => negb (n =? 0)
  end.

(** [x - y > 0]: the difference of two doubles has the sign of the exact
    difference, and is [NaN] when a side is [NaN] or both are [Infinity]. *)
Definition fsub_pos (x y : number) : bool :=
  match x, y with
  | NaN, _ | _, NaN => false
  | _, Infinity => false
  | Infinity, Finite _ _ => true
  | Finite n1 d1, Finite n2 d2 => n2 * d1 <? n1 * d2
  end.

(** The same double. *)
Definition number_eqb (x y : number) : bool :=
  match x, y with
  | NaN, NaN => true
  | Infinity, Infinity => true
  | Finite n1 d1, Finite n2 d2 => n1 * d2 =? n2 * d1
  | _, _ => false
  end.

(** The result of [x.toFixed(digits)]: the string ["NaN"], the decimal
    numeral of [n / 10 ^ digits] written with [digits] fraction digits, or,
    from 10^21 on, the text of [x] itself, which has no fraction digits. *)
Inductive fixed := FNaN | FBig (x : number) | FDec (digits : nat) (n : Z).

(** [x.toFixed(digits)]: [n] is the integer for which [n / 10 ^ digits] is
    nearest to [x], the larger one of two that are equally near. *)
Definition toFixed (x : number) (digits : nat) : fixed :=
  match x with
  | NaN => FNaN
  | Infinity => FBig Infinity
  | Finite n d =>
      if 10 ^ 21 * d <=? n then FBig x
      else FDec digits ((2 * 10 ^ Z.of_nat digits * n + d) / (2 * d))
  end.

(** [parseFloat(s)] of the result of [toFixed]: the double nearest to the
    numeral. *)
Definition parseFloat (s : fixed) : number :=
  match s with
  | FNaN => NaN
  | FBig x => x
  | FDec digits n => if n =? 0 then Finite 0 1 else round53 n (10 ^ Z.of_nat digits)
  end.

(** [Math.round(x)] of a finite [x]: the nearest integer, the larger one of
    two that are equally near. *)
Definition Math_round (n d : Z) : Z := (2 * n + d) / (2 * d).

(** The decimal numeral of a natural number. *)
Definition nat_text (n : nat) : string := NilZero.string_of_uint (Nat.to_uint n).

(** [s.padStart(n, c)] and [s.padEnd(n)] *)
Fixpoint repeat_string (c : string) (n : nat) : string :=
  match n with
  | O => ""
  | S n' => (c ++ repeat_string c n')%string
  end.

(** [s.length]: the number of UTF-16 code units of a text, counted on its
    UTF-8 bytes.  A byte that continues a character counts for nothing, the
    first byte of a character of four bytes for two. *)
Definition code_units (c : ascii) : nat :=
  let b := nat_of_ascii c in
  if (b <? 128)%nat then 1
  else if (b <? 192)%nat then 0
  else if (b <? 240)%nat then 1
  else 2.

Fixpoint JS_length (s : string) : nat :=
  match s with
  | EmptyString => 0
  | String c s' => (code_units c + JS_length s')%nat
  end.

Definition padStart (s : string) (n : nat) (c : string) : string :=
  (repeat_string c (n - JS_length s) ++ s)%string.

Definition padEnd (s : string) (n : nat) : string :=
  (s ++ repeat_string " " (n - JS_length s))%string.

(** The text of a [toFixed] result.  (A finite number from 10^21 on is
    written with an exponent; the script gets there only with more than
    10^27 bytes, and that text is not spelled out.) *)
Definition fixed_text (s : fixed) : string :=
  match s with
  | FNaN => "NaN"
  | FBig _ => "Infinity"
  | FDec digits n =>
      let p := 10 ^ Z.of_nat digits in
      let int_part := nat_text (Z.to_nat (n / p)) in
      match digits with
      | O => int_part
      | _ => (int_part ++ "." ++ padStart (nat_text (Z.to_nat (n mod p))) digits "0")%string
      end
  end.

(** The binary64 operations of the processor, to compare with. *)
Definition of_spec_float (x : spec_float) : number :=
  match x with
  | S754_zero _ => Finite 0 1
  | S754_infinity _ => Infinity
  | S754_nan => NaN
  | S754_finite _ m e =>
      if e <? 0 then Finite (Zpos m) (2 ^ (- e)) else Finite (Zpos m * 2 ^ e) 1
  end.

Definition binary64_of_Z (z : Z) : float := PrimFloat.of_uint63 (Uint63.of_Z z).

Definition binary64_sum (x y : Z) : number :=
  of_spec_float (Prim2SF (PrimFloat.add (binary64_of_Z x) (binary64_of_Z y))).

Definition binary64_percent (bytes total : Z) : number :=
  of_spec_float
    (Prim2SF (PrimFloat.mul (PrimFloat.div (binary64_of_Z bytes) (binary64_of_Z total))
                            (binary64_of_Z 100))).

(** The tenths of a percentage [FDec 1 n]: [n]. *)
Definition tenths (s : fixed) : Z :=
  match s with
  | FDec _ n => n
  | _ => 0
  end.

(** The sum of a list of integers. *)
Definition Zsum (l : list Z) : Z := fold_right Z.add 0 l.

(** The percentage [t / 10] is read back by [parseFloat] as a smaller double
    than the next percentage. *)
Definition increasing_step (t : Z) : bool :=
  match parseFloat (FDec 1 t), parseFloat (FDec 1 (t + 1)) with
  | Finite n d, Finite n' d' => (0 <? d) && (0 <? d') && (n * d' <? n' * d)
  | _, _ => false
  end.

(** ** getLanguageStats: the aggregation *)

Definition excludedLanguages : list string := ["Open Policy Agent"; "SCSS"; "Scss"].

(** What the object [languages] holds for a language: a number or, when the
    language is named like a property that the object inherits, a string.
    Such a string is the source text of a function, or "[object Object]",
    followed by digits; it is never a numeral, and nothing else of it is
    used. *)
Inductive value := Num (x : number) | Str.

Definition zero : number := Finite 0 1.

(** The properties that an object literal inherits from Object.prototype:
    eleven functions and the accessor [__proto__]. *)
Definition Object_prototype_functions : list string :=
  ["constructor"; "hasOwnProperty"; "isPrototypeOf"; "propertyIsEnumerable";
   "toLocaleString"; "toString"; "valueOf"; "__defineGetter__"; "__defineSetter__";
   "__lookupGetter__"; "__lookupSetter__"].

Definition Object_prototype_names : list string :=
  "__proto__" :: Object_prototype_functions.

(** [a + b]: the sum of two numbers; a string, a function or an object
    on the left makes a string. *)
Definition js_add (a b : value) : value :=
  match a, b with
  | Num x, Num y => Num (fadd x y)
  | _, _ => Str
  end.

(** [ToNumber(v)]: a string that is not a numeral is [NaN]. *)
Definition to_number (v : value) : number :=
  match v with
  | Num x => x
  | Str => NaN
  end.

(** [languages[lang] || 0]: the own property if there is one and it counts
    as true; else the inherited property if there is one (a function or an
    object, which [+] turns into a string); else 0. *)
Definition get_or_zero (languages : list (string * value)) (lang : string) : value :=
  match obj_get String.eqb languages lang with
  | Some (Num x) => if truthy x then Num x else Num zero
  | Some Str => Str
  | None => if includes String.eqb Object_prototype_names lang then Str else Num zero
  end.

(** The array index that a property name is, if it is one: a numeral
    without sign or leading zero below 2^32 - 1. *)
Definition array_index (name : string) : option N :=
  match NilEmpty.uint_of_string name with
  | Some u =>
      let n := N.of_uint u in
      if (String.eqb (NilZero.string_of_uint (N.to_uint n)) name && (n <? 2 ^ 32 - 1)%N)%bool
      then Some n else None
  | None => None
  end.

Definition is_index (name : string) : bool :=
  match array_index name with
  | Some _ => true
  | None => false
  end.

(** [Object.entries(o)] of an object [o] given by its own properties in
    creation order: the properties named by array indices come first, in
    ascending order, the others after them in creation order. *)
Definition Object_entries_named {V : Type} (o : list (string * V)) : list (string * V) :=
  Array_sort (fun a b =>
                match array_index (fst a), array_index (fst b) with
                | Some i, Some j => (j <? i)%N
                | _, _ => false
                end)
             (filter (fun e => is_index (fst e)) o)
  ++ filter (fun e => negb (is_index (fst e))) o.

(** The body of the loop of lines 144-150 for one entry of a repository's
    languages.  The assignment to [__proto__] calls the setter of
    Object.prototype, which ignores a string: nothing is stored. *)
Definition add_language (languages : list (string * value)) (entry : string * N)
  : list (string * value) :=
  let '(lang, bytes) := entry in
  if includes String.eqb excludedLanguages lang then languages
  else
    let sum := js_add (get_or_zero languages lang) (Num (of_Z (Z.of_N bytes))) in
    if String.eqb lang "__proto__" then languages
    else obj_set String.eqb languages lang sum.

(** The loop of lines 144-150 over [Object.entries(repoLangs)]. *)
Definition add_repo_languages (languages : list (string * value))
    (repoLangs : list (string * N)) : list (string * value) :=
  fold_left add_language (Object_entries_named repoLangs) languages.

(** [Object.values(languages).reduce((sum, bytes) => sum + bytes, 0)] *)
Definition total_bytes (languages : list (string * value)) : value :=
  fold_left js_add (map snd (Object_entries_named languages)) (Num zero).

(** [((bytes / total) * 100).toFixed(1)] *)
Definition percentage_of (bytes total : value) : fixed :=
  toFixed (fmul (fdiv (to_number bytes) (to_number total)) (of_Z 100)) 1.

Record LanguageStat := { name : string; percentage : fixed }.

(** The comparator of line 178, as the test that its result is positive. *)
Definition by_percentage (a b : LanguageStat) : bool :=
  fsub_pos (parseFloat (percentage b)) (parseFloat (percentage a)).

(** Lines 173-177: the statistics before the sort, in the order of
    [Object.entries(languages)]. *)
Definition language_stats (languages : list (string * value)) : list LanguageStat :=
  let total := total_bytes languages in
  map (fun '(name, bytes) =>
         {| name := name; percentage := percentage_of bytes total |})
      (Object_entries_named languages).

(** Lines 173-178, before the [slice]. *)
Definition ranked_languages (languages : list (string * value)) : list LanguageStat :=
  Array_sort by_percentage (language_stats languages).

(** Lines 173-179. *)
Definition top_languages (languages : list (string * value)) : list LanguageStat :=
  firstn 10 (ranked_languages languages).

(** *** The aggregation in exact arithmetic

    For languages with plain names, none an array index and none a property
    of Object.prototype, whose bytes sum to less than 2^53, the table of the
    script is the table of the exact sums, computed here; the proofs go
    through it. *)

Definition plain_name (name : string) : bool :=
  (negb (is_index name) && negb (includes String.eqb Object_prototype_names name))%bool.

Definition plain_names (entries : list (string * N)) : Prop :=
  Forall (fun e => plain_name (fst e) = true) entries.

Definition add_exact (languages : list (string * Z)) (entry : string * N)
  : list (string * Z) :=
  let '(lang, bytes) := entry in
  if includes String.eqb excludedLanguages lang then languages
  else
    let sofar :=
      match obj_get String.eqb languages lang with Some b => b | None => 0 end in
    obj_set String.eqb languages lang (sofar + Z.of_N bytes).

Definition total_exact (languages : list (string * Z)) : Z :=
  fold_left (fun sum bytes => sum + bytes) (map snd languages) 0.

Definition percent_of (bytes total : Z) : fixed :=
  toFixed (fmul (fdiv (of_Z bytes) (of_Z total)) (of_Z 100)) 1.

Definition ranked_exact (languages : list (string * Z)) : list LanguageStat :=
  let total := total_exact languages in
  Array_sort by_percentage
    (map (fun '(name, bytes) =>
            {| name := name; percentage := percent_of bytes total |})
         languages).

(** An exact sum as the script holds it. *)
Definition as_value (entry : string * Z) : string * value :=
  (fst entry, Num (of_Z (snd entry))).

(** What the table holds when the bytes added are all zero: zero, or the
    string an inherited property has made. *)
Definition no_bytes (v : value) : Prop := v = Num zero \/ v = Str.

(** ** generateProgressBar and the language fragment *)

Definition full_block : string := "█".
Definition light_shade : string := "░".

(** [generateProgressBar(percentage, length)]; [None] is the [RangeError] of
    [String.prototype.repeat] on an infinite or negative count.  A count of
    [NaN] is read as 0. *)
Definition generateProgressBar (percentage : number) (length : Z) : option string :=
  match fmul (fdiv percentage (of_Z 100)) (of_Z length) with
  | NaN => Some ""
  | Infinity => None
  | Finite n d =>
      let filled := Math_round n d in
      if length <? filled then None
      else Some (repeat_string full_block (Z.to_nat filled)
                 ++ repeat_string light_shade (Z.to_nat (length - filled)))%string
  end.

(** One line of the fragment (line 237). *)
Definition language_line (lang : LanguageStat) : option string :=
  match generateProgressBar (parseFloat (percentage lang)) 20 with
  | None => None
  | Some bar =>
      Some (padEnd (name lang) 12 ++ " " ++ bar ++ " "
            ++ padStart (fixed_text (percentage lang)) 5 " " ++ "%")%string
  end.

(** [lines.join('\n')] *)
Definition newline : string := String (ascii_of_nat 10) "".

Fixpoint join_lines (lines : list string) : string :=
  match lines with
  | [] => ""
  | [l] => l
  | l :: rest => (l ++ newline ++ join_lines rest)%string
  end.

(** [xs.map(f)] for an [f] that may throw: the first failure is the
    failure of the whole. *)
Fixpoint map_option {A B : Type} (f : A -> option B) (l : list A) : option (list B) :=
  match l with
  | [] => Some []
  | x :: l' =>
      match f x with
      | None => None
      | Some y =>
          match map_option f l' with
          | None => None
          | Some ys => Some (y :: ys)
          end
      end
  end.

Definition languagesContent (languageStats : list LanguageStat) : option string :=
  option_map join_lines (map_option language_line languageStats).

(** What the specification says of the aggregation: of all the entries the
    API returned, those whose language is not excluded; the bytes of a
    language among them; the bytes of all of them. *)
Definition included_entries (entries : list (string * N)) : list (string * N) :=
  filter (fun e => negb (includes String.eqb excludedLanguages (fst e))) entries.

Definition language_bytes (entries : list (string * N)) (lang : string) : Z :=
  Zsum (map (fun e => Z.of_N (snd e))
            (filter (fun e => String.eqb (fst e) lang) (included_entries entries))).

Definition included_bytes (entries : list (string * N)) : Z :=
  Zsum (map (fun e => Z.of_N (snd e)) (included_entries entries)).

(** The statistics before the sort: one for each entry of the table. *)
Definition to_stat (total : Z) (entry : string * Z) : LanguageStat :=
  let '(name, bytes) := entry in
  {| name := name; percentage := percent_of bytes total |}.


(** A percentage from 0.0 to 100.0, and the tenths of the percentage of a
    statistic. *)
Definition is_percentage (s : LanguageStat) : Prop :=
  exists t : Z, percentage s = FDec 1 t /\ 0 <= t <= 1000.

Definition tenths_of (s : LanguageStat) : Z := tenths (percentage s).

(** ** The environment, the GitHub API and the effects of the script *)

Record Env := { GITHUB_TOKEN : option string; USERNAME : option string }.

(** A value of the environment inside a template literal; a variable that
    is not set is [undefined]. *)
Definition interpolate (v : option string) : string :=
  match v with
  | Some s => s
  | None => "undefined"
  end.

Record Request := {
    hostname : string;
    path : string;
    method : string;
    headers : list (string * string)
  }.

(** What comes back: status 200 with a body that [JSON.parse] accepts, given
    as the value parsed, of the shape the API documents; status 200 with a
    body that [JSON.parse] rejects; another status with its body; or no
    response at all. *)
Inductive Response (A : Type) :=
  | OK (data : A)
  | Unparsable (data : string)
  | Status (statusCode : Z) (data : string)
  | NoResponse (error : string).
Arguments OK {A} data.
Arguments Unparsable {A} data.
Arguments Status {A} statusCode data.
Arguments NoResponse {A} error.

Record Repo := { owner_login : string; repo_name : string; fork : bool }.

(** A commit, with [commit.commit.author.date.split('T')[0]]; [None] when the
    commit has no [commit] or no [author]. *)
Record Commit := { author_date : option isoDate }.

(** The three endpoints.  Each answers a request given the requests made
    before it.  The languages of a repository are the properties of the
    object parsed, in the order of the body. *)
Record GitHub := {
    user_repos : list Request -> Request -> Response (list Repo);
    repo_commits : list Request -> Request -> Response (list Commit);
    repo_languages : list Request -> Request -> Response (list (string * N))
  }.

(** A response whose body, if its status is 200, [JSON.parse] accepts; an
    API all of whose answers about commits, or about languages, are such. *)
Definition parses {A : Type} (response : Response A) : Prop :=
  match response with
  | Unparsable _ => False
  | _ => True
  end.

Definition commits_parse (github : GitHub) : Prop :=
  forall (h : list Request) (r : Request), parses (repo_commits github h r).

Definition languages_parse (github : GitHub) : Prop :=
  forall (h : list Request) (r : Request), parses (repo_languages github h r).

Inductive Error :=
  | GitHubApiError (statusCode : Z) (data : string)
  | TransportError (error : string)
  | SyntaxError (data : string)
  | RangeError
  | ENOENT
  | EACCES.

(** A line of [console.log], the line of [console.error('Error:', error)],
    and the report of an exception that nothing caught. *)
Inductive ConsoleLine :=
  | Log (text : string)
  | ErrorLine (error : Error)
  | Uncaught (error : Error).

(** The world the script acts on: the requests it has made, what it has
    printed, the text of the file README.md if it can be read, and whether
    the file can be written. *)
Record World := {
    requests : list Request;
    console : list ConsoleLine;
    README : option string;
    README_writable : bool
  }.

(** How a computation ends: it returns, it throws (a promise is rejected),
    it is still running when the fuel is spent, or the process dies of an
    exception thrown outside every promise and [try]. *)
Inductive Outcome (A : Type) :=
  | Returned (a : A)
  | Thrown (e : Error)
  | OutOfFuel
  | Died (e : Error).
Arguments Returned {A} a.
Arguments Thrown {A} e.
Arguments OutOfFuel {A}.
Arguments Died {A} e.

Definition M (A : Type) : Type := World -> Outcome A * World.

Definition ret {A : Type} (a : A) : M A := fun w => (Returned a, w).

Definition throw {A : Type} (e : Error) : M A := fun w => (Thrown e, w).

Definition bind {A B : Type} (m : M A) (k : A -> M B) : M B :=
  fun w =>
    match m w with
    | (Returned a, w') => k a w'
    | (Thrown e, w') => (Thrown e, w')
    | (OutOfFuel, w') => (OutOfFuel, w')
    | (Died e, w') => (Died e, w')
    end.

Notation "x <- m ;; k" := (bind m (fun x => k))
  (at level 61, m at next level, right associativity).
Notation "m ;;; k" := (bind m (fun _ => k))
  (at level 61, right associativity).

(** [try { m } catch (error) { handler }]; the death of the process is not
    caught. *)
Definition try_catch {A : Type} (m : M A) (handler : M A) : M A :=
  fun w =>
    match m w with
    | (Thrown _, w') => handler w'
    | r => r
    end.

(** [console.log(text)] *)
Definition console_log (text : string) : M unit :=
  fun w =>
    (Returned tt,
     {| requests := requests w; console := console w ++ [Log text];
        README := README w; README_writable := README_writable w |}).

Section Script.
Variable env : Env.
Variable github : GitHub.

(** The [options] of a request for [path] (lines 10-19). *)
Definition request_options (path : string) : Request :=
  {| hostname := "api.github.com";
     path := path;
     method := "GET";
     headers :=
       [("User-Agent", "GitHub-Stats-Generator");
        ("Authorization", ("token " ++ interpolate (GITHUB_TOKEN env))%string);
        ("Accept", "application/vnd.github.v3+json")] |}.

(** [githubRequest(path)], to the endpoint the path names.  [JSON.parse]
    runs in the listener of ['end'] (line 26): when it throws, the promise is
    neither resolved nor rejected and the exception ends the process. *)
Definition githubRequest {A : Type}
    (endpoint : GitHub -> list Request -> Request -> Response A)
    (path : string) : M A :=
  fun w =>
    let options := request_options path in
    let w' :=
      {| requests := requests w ++ [options]; console := console w;
         README := README w; README_writable := README_writable w |} in
    match endpoint github (requests w) options with
    | OK data => (Returned data, w')
    | Unparsable data => (Died (SyntaxError data), w')
    | Status statusCode data => (Thrown (GitHubApiError statusCode data), w')
    | NoResponse error => (Thrown (TransportError error), w')
    end.

(** The path of a page of repositories (line 42). *)
Definition repos_path (page : nat) : string :=
  ("/user/repos?per_page=100&page=" ++ nat_text page
   ++ "&affiliation=owner,collaborator,organization_member")%string.

(** The loop of [getAllRepos]; [fuel] bounds the number of pages. *)
Fixpoint getAllRepos_loop (fuel : nat) (page : nat) (repos : list Repo)
  : M (list Repo) :=
  match fuel with
  | O => fun w => (OutOfFuel, w)
  | S fuel' =>
      data <- githubRequest user_repos
                ("/user/repos?per_page=100&page=" ++ nat_text page
                 ++ "&affiliation=owner,collaborator,organization_member")%string ;;
      let nonForkedRepos := filter (fun repo => negb (fork repo)) data in
      let repos := repos ++ nonForkedRepos in
      if (List.length data =? 100)%nat
      then getAllRepos_loop fuel' (S page) repos
      else ret repos
  end.

Definition getAllRepos (fuel : nat) : M (list Repo) := getAllRepos_loop fuel 1 [].

Definition commits_path (owner repo : string) : string :=
  ("/repos/" ++ owner ++ "/" ++ repo ++ "/commits?author="
   ++ interpolate (USERNAME env) ++ "&per_page=100")%string.

Definition getCommitActivity (owner repo : string) : M (list Commit) :=
  try_catch
    (githubRequest repo_commits (commits_path owner repo))
    (console_log ("Could not fetch commits for " ++ owner ++ "/" ++ repo)%string ;;;
     ret []).

(** [names.join(', ')] *)
Fixpoint join_comma (names : list string) : string :=
  match names with
  | [] => ""
  | [n] => n
  | n :: rest => (n ++ ", " ++ join_comma rest)%string
  end.

Definition languages_path (repo : Repo) : string :=
  ("/repos/" ++ owner_login repo ++ "/" ++ repo_name repo ++ "/languages")%string.

(** The body of the loop of lines 140-160 for one repository. *)
Definition fetch_repo_languages (languages : list (string * value)) (repo : Repo)
  : M (list (string * value)) :=
  try_catch
    (repoLangs <- githubRequest repo_languages (languages_path repo) ;;
     let languages := add_repo_languages languages repoLangs in
     let includedLangs :=
       filter (fun l => negb (includes String.eqb excludedLanguages l))
              (map fst (Object_entries_named repoLangs)) in
     (if (0 <? List.length includedLangs)%nat
      then console_log (repo_name repo ++ ": " ++ join_comma includedLangs)%string
      else ret tt) ;;;
     ret languages)
    (console_log ("Could not fetch languages for " ++ repo_name repo)%string ;;;
     ret languages).

Fixpoint fetch_languages (languages : list (string * value)) (repos : list Repo)
  : M (list (string * value)) :=
  match repos with
  | [] => ret languages
  | repo :: repos' =>
      languages <- fetch_repo_languages languages repo ;;
      fetch_languages languages repos'
  end.

(** One line of the table of lines 165-171. *)
Definition bytes_line (total : value) (entry : string * value) : string :=
  let '(lang, bytes) := entry in
  let mb := toFixed (fdiv (fdiv (to_number bytes) (of_Z 1024)) (of_Z 1024)) 2 in
  let pct := percentage_of bytes total in
  ("  " ++ lang ++ ": " ++ fixed_text mb ++ " MB (" ++ fixed_text pct ++ "%)")%string.

Fixpoint log_lines (lines : list string) : M unit :=
  match lines with
  | [] => ret tt
  | l :: rest => console_log l ;;; log_lines rest
  end.

Definition getLanguageStats (repos : list Repo) : M (list LanguageStat) :=
  languages <- fetch_languages [] repos ;;
  let total := total_bytes languages in
  console_log (newline ++ "Total bytes per language:")%string ;;;
  log_lines (map (bytes_line total)
                 (Array_sort (fun a b => fsub_pos (to_number (snd b)) (to_number (snd a)))
                             (Object_entries_named languages))) ;;;
  ret (top_languages languages).

(** The loop of lines 197-205. *)
Fixpoint fetch_dates (allDates : list isoDate) (repos : list Repo)
  : M (list isoDate) :=
  match repos with
  | [] => ret allDates
  | repo :: repos' =>
      commits <- getCommitActivity (owner_login repo) (repo_name repo) ;;
      let dates :=
        flat_map (fun commit =>
                    match author_date commit with
                    | Some date => [date]
                    | None => []
                    end) commits in
      fetch_dates (allDates ++ dates) repos'
  end.

(** The language breakdowns the API returns in the loop of lines 140-160,
    in order, and their entries in the order of [Object.entries]. *)
Fixpoint language_responses (repos : list Repo) (w : World)
  : list (list (string * N)) :=
  match repos with
  | [] => []
  | repo :: repos' =>
      let rest :=
        language_responses repos' (snd (fetch_repo_languages [] repo w)) in
      match fst (githubRequest repo_languages (languages_path repo) w) with
      | Returned repoLangs => repoLangs :: rest
      | Died _ => []
      | _ => rest
      end
  end.

Definition language_entries (repos : list Repo) (w : World) : list (string * N) :=
  List.concat (map Object_entries_named (language_responses repos w)).
End Script.

(** ** The report and [main] *)

(** The text of an integer. *)
Definition Z_text (z : Z) : string :=
  if z <? 0 then ("-" ++ nat_text (Z.to_nat (- z)))%string else nat_text (Z.to_nat z).

Definition streakContent (streaks : Streaks) : string :=
  ("**Current Streak:** " ++ nat_text (current streaks) ++ " days  " ++ newline
   ++ "**Longest Streak:** " ++ nat_text (longest streaks) ++ " days  " ++ newline
   ++ "**Total Active Days:** " ++ nat_text (total streaks) ++ " days")%string.

Definition yearlyTable (yearlyStats : list YearSummary) : string :=
  ("| Year | Active Days | Contributions |" ++ newline
   ++ "|------|-------------|---------------|" ++ newline
   ++ join_lines
        (map (fun y => "| " ++ Z_text (year y) ++ " | " ++ nat_text (activeDays y)
                       ++ " | " ++ nat_text (contributions y) ++ " |")
             yearlyStats))%string.

(** The text that [replace] puts in the place of a match, for a pattern
    without groups: in the replacement, [$$] stands for a dollar sign, [$&]
    for the text matched, [$`] for the text before it and [$'] for the text
    after it; any other dollar sign stands for itself. *)
Fixpoint GetSubstitution (matched before after replacement : string) : string :=
  match replacement with
  | EmptyString => ""
  | String c rest =>
      if Ascii.eqb c "$" then
        match rest with
        | String c' rest' =>
            if Ascii.eqb c' "$" then
              String "$" (GetSubstitution matched before after rest')
            else if Ascii.eqb c' "&" then
              (matched ++ GetSubstitution matched before after rest')%string
            else if Ascii.eqb c' "`" then
              (before ++ GetSubstitution matched before after rest')%string
            else if Ascii.eqb c' "'" then
              (after ++ GetSubstitution matched before after rest')%string
            else String "$" (GetSubstitution matched before after rest)
        | EmptyString => "$"
        end
      else String c (GetSubstitution matched before after rest)
  end.

(** The text in which what lies from [i] up to [j] is replaced. *)
Definition replace_match (i j : nat) (replacement text : string) : string :=
  let before := substring 0 i text in
  let matched := substring i (j - i) text in
  let after := substring j (String.length text - j) text in
  (before ++ GetSubstitution matched before after replacement ++ after)%string.

(** [readme.replace(/OPEN[\s\S]*?CLOSE/, replacement)]: from the first
    [OPEN] to the first [CLOSE] after it. *)
Definition replace_region (open close replacement readme : string) : string :=
  match index 0 open readme with
  | None => readme
  | Some i =>
      match index (i + String.length open) close readme with
      | None => readme
      | Some j => replace_match i (j + String.length close) replacement readme
      end
  end.

(** The ends of a line for [.] in a pattern: line feed, carriage return,
    and the line and paragraph separators U+2028 and U+2029, which are three
    bytes each. *)
Definition line_separator : string :=
  String (ascii_of_nat 226) (String (ascii_of_nat 128) (String (ascii_of_nat 168) "")).

Definition paragraph_separator : string :=
  String (ascii_of_nat 226) (String (ascii_of_nat 128) (String (ascii_of_nat 169) "")).

Definition at_line_end (text : string) : bool :=
  (prefix (String (ascii_of_nat 10) "") text || prefix (String (ascii_of_nat 13) "") text
   || prefix line_separator text || prefix paragraph_separator text)%bool.

(** The place of the last ["*"] of a line, counted from [pos], its start. *)
Fixpoint last_star (line : string) (pos : nat) (found : option nat) : option nat :=
  match line with
  | EmptyString => found
  | String c rest =>
      if at_line_end line then found
      else last_star rest (S pos) (if Ascii.eqb c "*" then Some pos else found)
  end.

(** [readme.replace(/\*Last Updated:.*\*/, replacement)]: the first
    ["*Last Updated:"] that has a ["*"] after it on its line, up to the last
    such ["*"]; [fuel] bounds the places tried from [from] on. *)
Fixpoint replace_stamp (fuel from : nat) (replacement readme : string) : string :=
  match fuel with
  | O => readme
  | S fuel' =>
      match index from "*Last Updated:" readme with
      | None => readme
      | Some i =>
          let start := (i + 14)%nat in
          let rest := substring start (String.length readme - start) readme in
          match last_star rest start None with
          | None => replace_stamp fuel' (S i) replacement readme
          | Some j => replace_match i (S j) replacement readme
          end
      end
  end.

(** Lines 220-250: the four replacements. *)
Definition update_readme (streaks : Streaks) (yearlyStats : list YearSummary)
    (languages : string) (nowUTC readme : string) : string :=
  let readme :=
    replace_region "<!-- STREAK_START -->" "<!-- STREAK_END -->"
      ("<!-- STREAK_START -->" ++ newline ++ streakContent streaks ++ newline
       ++ "<!-- STREAK_END -->") readme in
  let readme :=
    replace_region "<!-- YEARLY_START -->" "<!-- YEARLY_END -->"
      ("<!-- YEARLY_START -->" ++ newline ++ yearlyTable yearlyStats ++ newline
       ++ "<!-- YEARLY_END -->") readme in
  let readme :=
    replace_region "<!-- LANGUAGES_START -->" "<!-- LANGUAGES_END -->"
      ("<!-- LANGUAGES_START -->" ++ newline ++ "```" ++ newline ++ languages
       ++ newline ++ "```" ++ newline ++ "<!-- LANGUAGES_END -->") readme in
  replace_stamp (S (String.length readme)) 0
    ("*Last Updated: " ++ nowUTC ++ "*") readme.

(** [fs.readFileSync('README.md', 'utf8')] and
    [fs.writeFileSync('README.md', readme)].  The file is there or not, and
    can be written or not; a write that is refused leaves it as it was. *)
Definition readFileSync : M string :=
  fun w =>
    match README w with
    | Some text => (Returned text, w)
    | None => (Thrown ENOENT, w)
    end.

Definition writeFileSync (text : string) : M unit :=
  fun w =>
    if README_writable w then
      (Returned tt,
       {| requests := requests w; console := console w; README := Some text;
          README_writable := true |})
    else (Thrown EACCES, w).

Section Main.
Variable env : Env.
Variable github : GitHub.
Variable zone : TimeZone.

(** [main()]; [now] is the time [calculateStreaks] reads and [nowUTC] the
    text of the time read for the "Last Updated" line. *)
Definition main (fuel : nat) (now : Z) (nowUTC : string) : M unit :=
  console_log "Fetching repositories..." ;;;
  repos <- getAllRepos env github fuel ;;
  console_log ("Found " ++ nat_text (List.length repos) ++ " repositories")%string ;;;
  console_log "Fetching commit data..." ;;;
  allDates <- fetch_dates env github [] repos ;;
  console_log "Calculating statistics..." ;;;
  let streaks := calculateStreaks zone now allDates in
  let yearlyStats := calculateYearlyStats zone allDates in
  languageStats <- getLanguageStats env github repos ;;
  readme <- readFileSync ;;
  match languagesContent languageStats with
  | None => throw RangeError
  | Some languages =>
      writeFileSync (update_readme streaks yearlyStats languages nowUTC readme) ;;;
      console_log "README.md updated successfully!"
  end.

(** What [main] does once the first page of repositories has come. *)
Definition after_first_page (fuel : nat) (now : Z) (nowUTC : string)
    (data : list Repo) : M unit :=
  repos <- (let repos := filter (fun repo => negb (fork repo)) data in
            if (List.length data =? 100)%nat
            then getAllRepos_loop env github fuel 2 repos
            else ret repos) ;;
  console_log ("Found " ++ nat_text (List.length repos) ++ " repositories")%string ;;;
  console_log "Fetching commit data..." ;;;
  allDates <- fetch_dates env github [] repos ;;
  console_log "Calculating statistics..." ;;;
  languageStats <- getLanguageStats env github repos ;;
  readme <- readFileSync ;;
  match languagesContent languageStats with
  | None => throw RangeError
  | Some languages =>
      writeFileSync
        (update_readme (calculateStreaks zone now allDates)
                       (calculateYearlyStats zone allDates)
                       languages nowUTC readme) ;;;
      console_log "README.md updated successfully!"
  end.

(** Lines 257-260 and the end of the process: its exit status, [None] while
    the run has not ended.  A rejection of [main] is printed by the handler
    of line 257; an exception that nothing caught is reported by the
    runtime, which exits with status 1 as well. *)
Definition run (fuel : nat) (now : Z) (nowUTC : string) (w : World)
  : option Z * World :=
  match main fuel now nowUTC w with
  | (Returned _, w') => (Some 0, w')
  | (Thrown e, w') =>
      (Some 1,
       {| requests := requests w'; console := console w' ++ [ErrorLine e];
          README := README w'; README_writable := README_writable w' |})
  | (OutOfFuel, w') => (None, w')
  | (Died e, w') =>
      (Some 1,
       {| requests := requests w'; console := console w' ++ [Uncaught e];
          README := README w'; README_writable := README_writable w' |})
  end.
End Main.

(** ** The table of a run, and inputs for examples *)

(** The table [languages] at line 162 of a run of [getLanguageStats]. *)
Definition languages_table (env : Env) (github : GitHub) (repos : list Repo)
    (w : World) : list (string * value) :=
  fold_left add_language (language_entries env github repos w) [].

Definition example_env : Env :=
  {| GITHUB_TOKEN := Some "ghp_0123456789"; USERNAME := Some "octocat" |}.

Definition example_repo (name : string) : Repo :=
  {| owner_login := "octocat"; repo_name := name; fork := false |}.

Definition example_world : World :=
  {| requests := []; console := [];
     README := Some "<!-- STREAK_START --><!-- STREAK_END -->";
     README_writable := true |}.

(** An API with one repository, without commits, whose languages are
    [langs]. *)
Definition example_github (langs : list (string * N)) : GitHub :=
  {| user_repos := fun _ _ => OK [example_repo "site"];
     repo_commits := fun _ _ => OK [];
     repo_languages := fun _ _ => OK langs |}.

(** An API whose repository "empty" has no commits to list (status 409) and
    whose languages cannot be reached. *)
Definition failing_github : GitHub :=
  {| user_repos := fun _ _ => OK [example_repo "empty"; example_repo "site"];
     repo_commits := fun _ request =>
       if String.eqb (path request)
                     "/repos/octocat/empty/commits?author=octocat&per_page=100"
       then Status 409 "Git Repository is empty."
       else OK [ {| author_date := Some 19723 |} ];
     repo_languages := fun _ request =>
       if String.eqb (path request) "/repos/octocat/empty/languages"
       then NoResponse "ECONNRESET"
       else OK [("Go", 10%N)] |}.

(** A zone that leaves daylight saving time on 2024-11-03 at 06:00 UTC, when
    its clocks go from 02:00 back to 01:00, as America/New_York does: the
    offset is -4 hours before that instant and -5 hours from it on, and a
    local time before 02:00 of that day is read with -4 hours.  (The other
    changes of that zone are left out.) *)
Definition new_york : TimeZone :=
  {| offset_at := fun t =>
       if t <? 20030 * msPerDay + 6 * 3600000 then - 4 * 3600000 else - 5 * 3600000;
     offset_of_local := fun local =>
       if local <? 20030 * msPerDay + 2 * 3600000 then - 4 * 3600000 else - 5 * 3600000 |}.

(** A zone five hours west of UTC all year. *)
Definition bogota : TimeZone :=
  {| offset_at := fun _ => - 5 * 3600000; offset_of_local := fun _ => - 5 * 3600000 |}.

(** An environment in which neither variable is set. *)
Definition empty_env : Env := {| GITHUB_TOKEN := None; USERNAME := None |}.

(** A computation only adds to the requests made. *)
Definition grows {A : Type} (m : M A) : Prop :=
  forall w : World, exists more : list Request,
    requests (snd (m w)) = requests w ++ more.

(** A computation leaves README.md, and the permission to write it, as they
    are; and a computation changes README.md only when it returns. *)
Definition keeps_file {A : Type} (m : M A) : Prop :=
  forall w : World,
    README (snd (m w)) = README w /\
    README_writable (snd (m w)) = README_writable w.

Definition writes_last {A : Type} (m : M A) : Prop :=
  forall w : World,
    (exists a : A, fst (m w) = Returned a) \/ README (snd (m w)) = README w.

(** ** Notions used to state further properties *)

(** The dates that [main] takes from the commits of one response (lines
    199-204): a commit without [commit] or [author] gives none. *)
Definition commit_dates (commits : list Commit) : list isoDate :=
  flat_map (fun commit =>
              match author_date commit with
              | Some date => [date]
              | None => []
              end) commits.

(** A bar of 20 cells of which the first [filled] are full. *)
Definition bar_of (filled : Z) : string :=
  (repeat_string full_block (Z.to_nat filled)
   ++ repeat_string light_shade (Z.to_nat (20 - filled)))%string.

(** The sum of a list of counts. *)
Definition nat_sum (l : list nat) : nat := fold_right Nat.add 0%nat l.

(** The world after [console.log(text)]. *)
Definition logged (text : string) (w : World) : World := snd (console_log text w).

(** The request for a page of repositories, for the commits of a repository
    and for its languages. *)
Definition page_request (env : Env) (page : nat) : Request :=
  request_options env (repos_path page).

Definition commits_request (env : Env) (repo : Repo) : Request :=
  request_options env (commits_path env (owner_login repo) (repo_name repo)).

Definition languages_request (env : Env) (repo : Repo) : Request :=
  request_options env (languages_path repo).

(** What [getAllRepos] comes to when the pages [pages] are followed by the
    response [final]. *)
Definition pages_outcome (repos : list Repo) (pages : list (list Repo))
    (final : Response (list Repo)) : Outcome (list Repo) :=
  match final with
  | OK last =>
      Returned (repos ++ filter (fun repo => negb (fork repo)) (List.concat pages ++ last))
  | Unparsable data => Died (SyntaxError data)
  | Status statusCode data => Thrown (GitHubApiError statusCode data)
  | NoResponse error => Thrown (TransportError error)
  end.

(** A response that ends the loop of [getAllRepos]: anything but a page of
    100 repositories. *)
Definition ends_pages (final : Response (list Repo)) : Prop :=
  match final with
  | OK last => List.length last <> 100%nat
  | _ => True
  end.

(** [main] in three parts: after the repositories have been listed, after the
    dates have been collected, and after the languages have been ranked. *)
Section MainParts.
Variable env : Env.
Variable github : GitHub.
Variable zone : TimeZone.

Definition after_stats (now : Z) (nowUTC : string) (allDates : list isoDate)
    (languageStats : list LanguageStat) : M unit :=
  readme <- readFileSync ;;
  match languagesContent languageStats with
  | None => throw RangeError
  | Some languages =>
      writeFileSync
        (update_readme (calculateStreaks zone now allDates)
                       (calculateYearlyStats zone allDates)
                       languages nowUTC readme) ;;;
      console_log "README.md updated successfully!"
  end.

Definition after_dates (now : Z) (nowUTC : string) (repos : list Repo)
    (allDates : list isoDate) : M unit :=
  console_log "Calculating statistics..." ;;;
  languageStats <- getLanguageStats env github repos ;;
  after_stats now nowUTC allDates languageStats.

Definition after_repos (now : Z) (nowUTC : string) (repos : list Repo) : M unit :=
  console_log ("Found " ++ nat_text (List.length repos) ++ " repositories")%string ;;;
  console_log "Fetching commit data..." ;;;
  allDates <- fetch_dates env github [] repos ;;
  after_dates now nowUTC repos allDates.
End MainParts.

(** The world in which [getLanguageStats] starts, in a run that has listed
    the repositories [repos] and is then in the world [w]. *)
Definition world_at_languages (env : Env) (github : GitHub) (repos : list Repo)
    (w : World) : World :=
  logged "Calculating statistics..."
    (snd (fetch_dates env github [] repos
            (logged "Fetching commit data..."
               (logged ("Found " ++ nat_text (List.length repos) ++ " repositories") w)))).

(** An API with 102 repositories on two pages, one of them a fork, and an
    API whose pages are always full. *)
Definition paged_github : GitHub :=
  {| user_repos := fun _ request =>
       if String.eqb (path request) (repos_path 1)
       then OK (repeat (example_repo "app") 100)
       else OK [ {| owner_login := "octocat"; repo_name := "linux"; fork := true |};
                 example_repo "site" ];
     repo_commits := fun _ _ => OK [];
     repo_languages := fun _ _ => OK [] |}.

Definition endless_github : GitHub :=
  {| user_repos := fun _ _ => OK (repeat (example_repo "app") 100);
     repo_commits := fun _ _ => OK [];
     repo_languages := fun _ _ => OK [] |}.

(** The error with which [githubRequest] rejects for a response, if it
    does. *)
Definition response_error {A : Type} (response : Response A) : option Error :=
  match response with
  | OK _ => None
  | Unparsable _ => None
  | Status statusCode data => Some (GitHubApiError statusCode data)
  | NoResponse error => Some (TransportError error)
  end.

(** A text [s], followed by [rest], all of whose places pass a test that
    looks at the text from a place on. *)
Fixpoint all_places (p : string -> bool) (s rest : string) : bool :=
  match s with
  | EmptyString => true
  | String _ s' => (p (s ++ rest)%string && all_places p s' rest)%bool
  end.

(** A text at which a line ends: the empty text, or one that begins with an
    end of line. *)
Definition line_ends (s : string) : bool :=
  match s with
  | EmptyString => true
  | String _ _ => at_line_end s
  end.

(** A place of a line that is not its end, and one that moreover holds no
    asterisk. *)
Definition in_line (s : string) : bool := negb (at_line_end s).

Definition in_line_no_star (s : string) : bool :=
  (negb (at_line_end s) && negb (prefix "*" s))%bool.

(** A replacement in which [replace] finds nothing to substitute: it holds no
    dollar sign. *)
Fixpoint no_dollar (s : string) : bool :=
  match s with
  | EmptyString => true
  | String c s' => (negb (Ascii.eqb c "$") && no_dollar s')%bool
  end.
(* ===================================================================== *)
(** * Properties *)

Example streaks_ex1 :
  calculateStreaks utc (20000 * msPerDay + 5000) [20000; 19999; 19999; 19997; 19996; 19995]
  = {| current := 2; longest := 3; total := 5 |}.
Proof. reflexivity. Qed.

(** ** Facts about [Set_of] and [Array_sort] *)

Section SetFacts.
Context {A : Type}.
Variable eqb : A -> A -> bool.
Hypothesis eqb_eq : forall a b, eqb a b = true <-> a = b.

Lemma includes_In (l : list A) (x : A) : includes eqb l x = true <-> In x l.
Proof.
  unfold includes. rewrite existsb_exists. split.
  - intros (y & Hy & E). apply eqb_eq in E. now subst.
  - intros H. exists x. split; [assumption | now apply eqb_eq].
Qed.

Lemma includes_false (l : list A) (x : A) : includes eqb l x = false <-> ~ In x l.
Proof.
  rewrite <- includes_In. destruct (includes eqb l x); split; congruence.
Qed.

Lemma Set_add_In (s : list A) (x y : A) :
  In y (Set_add eqb s x) <-> In y s \/ y = x.
Proof.
  unfold Set_add. destruct (includes eqb s x) eqn:E.
  - apply includes_In in E. split; [now left | intros [H | ->]; assumption].
  - rewrite in_app_iff. simpl. intuition congruence.
Qed.

Lemma Set_add_NoDup (s : list A) (x : A) : NoDup s -> NoDup (Set_add eqb s x).
Proof.
  intros H. unfold Set_add. destruct (includes eqb s x) eqn:E; [assumption |].
  apply includes_false in E.
  apply NoDup_rev in H. rewrite <- (rev_involutive (s ++ [x])).
  apply NoDup_rev. rewrite rev_app_distr. simpl. constructor; [| assumption].
  now rewrite <- in_rev.
Qed.

Lemma fold_Set_add_In (l s : list A) (y : A) :
  In y (fold_left (Set_add eqb) l s) <-> In y s \/ In y l.
Proof.
  revert s. induction l as [| x l IH]; intros s; simpl.
  - tauto.
  - rewrite IH, Set_add_In. intuition congruence.
Qed.

Lemma fold_Set_add_NoDup (l s : list A) :
  NoDup s -> NoDup (fold_left (Set_add eqb) l s).
Proof.
  revert s. induction l as [| x l IH]; intros s H; simpl; [assumption |].
  now apply IH, Set_add_NoDup.
Qed.

Lemma Set_of_In (l : list A) (y : A) : In y (Set_of eqb l) <-> In y l.
Proof. unfold Set_of. rewrite fold_Set_add_In. simpl. tauto. Qed.

Lemma Set_of_NoDup (l : list A) : NoDup (Set_of eqb l).
Proof. apply fold_Set_add_NoDup. constructor. Qed.
End SetFacts.

Section SortFacts.
Context {A : Type}.
Variable after : A -> A -> bool.

Lemma sort_insert_perm (x : A) (l : list A) :
  Permutation (sort_insert after x l) (x :: l).
Proof.
  induction l as [| y l IH]; simpl; [reflexivity |].
  destruct (after x y); [| reflexivity].
  rewrite IH. apply perm_swap.
Qed.

Lemma Array_sort_perm (l : list A) : Permutation (Array_sort after l) l.
Proof.
  induction l as [| x l IH]; simpl; [reflexivity |].
  rewrite sort_insert_perm. now constructor.
Qed.

Lemma Array_sort_In (l : list A) (x : A) : In x (Array_sort after l) <-> In x l.
Proof.
  split; apply Permutation_in; [| symmetry]; apply Array_sort_perm.
Qed.

Lemma Array_sort_length (l : list A) : List.length (Array_sort after l) = List.length l.
Proof. apply Permutation_length, Array_sort_perm. Qed.

Lemma Array_sort_NoDup (l : list A) : NoDup l -> NoDup (Array_sort after l).
Proof.
  intros H. eapply Permutation_NoDup; [| exact H]. symmetry. apply Array_sort_perm.
Qed.

End SortFacts.

(** The comparators of the script all order by a numeric key, largest
    first, on the elements they are given, which satisfy [P]. *)
Section SortByKey.
Context {A : Type}.
Variable after : A -> A -> bool.
Variable key : A -> Z.
Variable P : A -> Prop.
Hypothesis after_key : forall a b, P a -> P b -> after a b = (key a <? key b).

Lemma sort_insert_sorted_on (x : A) (l : list A) :
  P x -> Forall P l ->
  StronglySorted (desc key) l -> StronglySorted (desc key) (sort_insert after x l).
Proof.
  intros Hx HP. induction 1 as [| y l Hs IH Hall]; simpl.
  - repeat constructor.
  - inversion HP as [| ? ? Hy HP']; subst.
    rewrite after_key by assumption.
    destruct (Z.ltb_spec (key x) (key y)) as [Hlt | Hge].
    + constructor; [now apply IH |].
      eapply Permutation_Forall; [symmetry; apply sort_insert_perm |].
      constructor; [unfold desc; lia | assumption].
    + constructor; [now constructor |].
      constructor; [exact Hge |].
      eapply Forall_impl; [| exact Hall]. unfold desc. intros; lia.
Qed.

Lemma Array_sort_Forall (l : list A) : Forall P l -> Forall P (Array_sort after l).
Proof.
  intros H. eapply Permutation_Forall; [| exact H].
  symmetry. apply Array_sort_perm.
Qed.

Lemma Array_sort_sorted_on (l : list A) :
  Forall P l -> StronglySorted (desc key) (Array_sort after l).
Proof.
  induction 1 as [| x l Hx Hl IH]; simpl; [constructor |].
  apply sort_insert_sorted_on; [assumption | now apply Array_sort_Forall | assumption].
Qed.

(** Stability: the elements of any one key keep their relative order. *)
Lemma sort_insert_filter_on (v : Z) (x : A) (l : list A) :
  P x -> Forall P l -> StronglySorted (desc key) l ->
  filter (fun a => key a =? v) (sort_insert after x l)
  = filter (fun a => key a =? v) (x :: l).
Proof.
  intros Hx HP. induction 1 as [| y l Hs IH Hall]; [reflexivity |].
  inversion HP as [| ? ? Hy HP']; subst.
  cbn [sort_insert]. rewrite after_key by assumption.
  destruct (Z.ltb_spec (key x) (key y)) as [Hlt | Hge]; [| reflexivity].
  cbn [filter] in *. rewrite IH by assumption.
  destruct (Z.eqb_spec (key x) v), (Z.eqb_spec (key y) v); try reflexivity.
  lia.
Qed.

Lemma Array_sort_stable_on (v : Z) (l : list A) :
  Forall P l ->
  filter (fun a => key a =? v) (Array_sort after l)
  = filter (fun a => key a =? v) l.
Proof.
  induction 1 as [| x l Hx Hl IH]; [reflexivity |].
  cbn [Array_sort fold_right]. fold (Array_sort after l).
  rewrite sort_insert_filter_on;
    [| assumption | now apply Array_sort_Forall | now apply Array_sort_sorted_on].
  cbn [filter]. now rewrite IH.
Qed.
End SortByKey.

Lemma Array_sort_sorted {A : Type} (after : A -> A -> bool) (key : A -> Z) :
  (forall a b, after a b = (key a <? key b)) ->
  forall l : list A, StronglySorted (desc key) (Array_sort after l).
Proof.
  intros H l. apply (Array_sort_sorted_on after key (fun _ => True)).
  - intros a b _ _. apply H.
  - apply Forall_forall. intros; exact I.
Qed.

(** ** Facts about lists, and about objects as property lists *)

Lemma filter_partition_perm {A : Type} (f : A -> bool) (l : list A) :
  Permutation (filter f l ++ filter (fun x => negb (f x)) l) l.
Proof.
  induction l as [| x l IH]; [reflexivity |]. cbn [filter].
  destruct (f x); cbn [negb app].
  - now constructor.
  - rewrite <- Permutation_middle. now constructor.
Qed.

Lemma Permutation_filter {A : Type} (f : A -> bool) (l l' : list A) :
  Permutation l l' -> Permutation (filter f l) (filter f l').
Proof.
  induction 1 as [| x l l' _ IH | x y l | l l' l'' _ IH1 _ IH2]; cbn [filter].
  - reflexivity.
  - destruct (f x); [now constructor | assumption].
  - destruct (f x), (f y); try reflexivity. apply perm_swap.
  - now transitivity (filter f l').
Qed.

(** A list sorted by a strict order is determined by its elements. *)
Lemma StronglySorted_ext {A : Type} (R : A -> A -> Prop) :
  (forall a, ~ R a a) -> (forall a b c, R a b -> R b c -> R a c) ->
  forall l1 l2 : list A,
    StronglySorted R l1 -> StronglySorted R l2 ->
    (forall x, In x l1 <-> In x l2) -> l1 = l2.
Proof.
  intros Hirr Htr. induction l1 as [| a l1 IH]; intros l2 H1 H2 Hiff.
  - destruct l2 as [| b l2]; [reflexivity |].
    destruct (proj2 (Hiff b) (or_introl eq_refl)).
  - destruct l2 as [| b l2]; [destruct (proj1 (Hiff a) (or_introl eq_refl)) |].
    inversion H1 as [| ? ? H1' Ha]; inversion H2 as [| ? ? H2' Hb]; subst.
    rewrite Forall_forall in Ha, Hb.
    assert (Eab : a = b).
    { destruct (proj1 (Hiff a) (or_introl eq_refl)) as [E | Hin]; [now symmetry |].
      destruct (proj2 (Hiff b) (or_introl eq_refl)) as [E | Hin']; [assumption |].
      exfalso. apply (Hirr a). eapply Htr; [apply Ha | apply Hb]; eassumption. }
    subst b. f_equal. apply IH; try assumption.
    intros x. split; intros Hx.
    + destruct (proj1 (Hiff x) (or_intror Hx)) as [E | Hin]; [| assumption].
      subst x. exfalso. apply (Hirr a), Ha, Hx.
    + destruct (proj2 (Hiff x) (or_intror Hx)) as [E | Hin]; [| assumption].
      subst x. exfalso. apply (Hirr a), Hb, Hx.
Qed.

(** A list sorted in descending order of a key, with no key twice, is
    strictly descending. *)
Lemma desc_NoDup_strict {A : Type} (key : A -> Z) (l : list A) :
  StronglySorted (desc key) l -> NoDup (map key l) ->
  StronglySorted (fun a b => key b < key a) l.
Proof.
  induction 1 as [| x l Hs IH Hall]; intros Hn; constructor.
  - apply IH. now inversion Hn.
  - inversion Hn as [| ? ? Hx _]; subst.
    rewrite Forall_forall in *. intros y Hy.
    specialize (Hall y Hy). unfold desc in Hall.
    assert (key y <> key x).
    { intros E. apply Hx. rewrite <- E. now apply in_map. }
    lia.
Qed.

Section ObjFacts.
Context {K V : Type}.
Variable keqb : K -> K -> bool.
Hypothesis keqb_eq : forall a b, keqb a b = true <-> a = b.
Implicit Types (o : list (K * V)) (k : K) (v : V).

Lemma keqb_refl k : keqb k k = true.
Proof. now apply keqb_eq. Qed.

Lemma keqb_neq k k' : k <> k' -> keqb k k' = false.
Proof.
  intros H. destruct (keqb k k') eqn:E; [| reflexivity].
  apply keqb_eq in E. contradiction.
Qed.

Lemma obj_get_set_same o k v : obj_get keqb (obj_set keqb o k v) k = Some v.
Proof.
  induction o as [| [k' v'] o IH]; cbn.
  - now rewrite keqb_refl.
  - destruct (keqb k' k) eqn:E; cbn.
    + now rewrite keqb_refl.
    + now rewrite E.
Qed.

Lemma obj_get_set_other o k k' v :
  k <> k' -> obj_get keqb (obj_set keqb o k v) k' = obj_get keqb o k'.
Proof.
  intros Hne. induction o as [| [k0 v0] o IH]; cbn.
  - now rewrite keqb_neq.
  - destruct (keqb k0 k) eqn:E; cbn.
    + apply keqb_eq in E. subst k0. now rewrite keqb_neq.
    + now rewrite IH.
Qed.

Lemma obj_set_keys o k v x :
  In x (map fst (obj_set keqb o k v)) <-> In x (map fst o) \/ x = k.
Proof.
  induction o as [| [k0 v0] o IH]; cbn.
  - intuition congruence.
  - destruct (keqb k0 k) eqn:E; cbn.
    + apply keqb_eq in E. subst k0. intuition congruence.
    + rewrite IH. tauto.
Qed.

Lemma obj_set_NoDup o k v :
  NoDup (map fst o) -> NoDup (map fst (obj_set keqb o k v)).
Proof.
  induction o as [| [k0 v0] o IH]; cbn; intros Hn.
  - repeat constructor. intros [].
  - inversion Hn as [| ? ? Hk0 Hn']; subst.
    destruct (keqb k0 k) eqn:E; cbn.
    + apply keqb_eq in E. subst k0. now constructor.
    + constructor; [| now apply IH].
      rewrite obj_set_keys. intros [H | H]; [contradiction |].
      subst k0. rewrite keqb_refl in E. discriminate.
Qed.

Lemma obj_get_In o k v :
  NoDup (map fst o) -> (In (k, v) o <-> obj_get keqb o k = Some v).
Proof.
  induction o as [| [k0 v0] o IH]; cbn; intros Hn.
  - split; [intros [] | discriminate].
  - inversion Hn as [| ? ? Hk0 Hn']; subst.
    destruct (keqb k0 k) eqn:E.
    + apply keqb_eq in E. subst k0. split.
      * intros [H | H]; [congruence |].
        exfalso. apply Hk0. change k with (fst (k, v)). now apply in_map.
      * intros H. left. congruence.
    + rewrite <- (IH Hn'). split; [intros [H | H]; [| assumption] | now right].
      injection H as -> ->. rewrite keqb_refl in E. discriminate.
Qed.

Lemma obj_get_None o k : obj_get keqb o k = None <-> ~ In k (map fst o).
Proof.
  induction o as [| [k0 v0] o IH]; cbn.
  - tauto.
  - destruct (keqb k0 k) eqn:E.
    + apply keqb_eq in E. subst k0. split; [discriminate | intros H; exfalso; auto].
    + rewrite IH. split.
      * intros H [H' | H']; [| contradiction].
        subst k0. rewrite keqb_refl in E. discriminate.
      * intros H H'. apply H. now right.
Qed.
End ObjFacts.

Lemma Object_entries_perm {V : Type} (o : list (Z * V)) :
  Permutation (Object_entries o) o.
Proof.
  unfold Object_entries. rewrite Array_sort_perm.
  apply (filter_partition_perm (fun e => is_array_index (fst e))).
Qed.

(** ** calculateStreaks *)

Lemma msPerDay_pos : 0 < msPerDay.
Proof. reflexivity. Qed.

Lemma diffDays_exact (p c : isoDate) : (Date_of p - Date_of c) / msPerDay = p - c.
Proof.
  unfold Date_of. rewrite <- Z.mul_sub_distr_r.
  apply Z.div_mul. pose proof msPerDay_pos; lia.
Qed.

(** The dates the script sorts are distinct, the same days as the input, and
    latest first. *)
Lemma sortedDates_In (dates : list isoDate) (d : isoDate) :
  In d (sortedDates_of dates) <-> In d dates.
Proof.
  unfold sortedDates_of. rewrite Array_sort_In. apply Set_of_In, Z.eqb_eq.
Qed.

Lemma sortedDates_NoDup (dates : list isoDate) : NoDup (sortedDates_of dates).
Proof. apply Array_sort_NoDup, Set_of_NoDup, Z.eqb_eq. Qed.

Lemma sortedDates_sorted (dates : list isoDate) :
  StronglySorted (fun a b => b < a) (sortedDates_of dates).
Proof.
  assert (Hs : StronglySorted (desc (fun d : isoDate => d)) (sortedDates_of dates)).
  { apply Array_sort_sorted. intros a b. unfold Date_of.
    pose proof msPerDay_pos.
    destruct (Z.ltb_spec 0 (b * msPerDay - a * msPerDay)),
             (Z.ltb_spec a b); try reflexivity; nia. }
  pose proof (sortedDates_NoDup dates) as Hn.
  induction Hs as [| x l Hs IH Hall]; constructor.
  - apply IH. now inversion Hn.
  - inversion Hn as [| ? ? Hx _]; subst.
    rewrite Forall_forall in *. intros y Hy.
    specialize (Hall y Hy). unfold desc in Hall.
    assert (y <> x) by (intros ->; contradiction). lia.
Qed.

(** [n] distinct days of a set of [n] days are all of it. *)
Lemma run_fills (S0 : list isoDate) (d : isoDate) :
  NoDup S0 ->
  (forall i : nat, (i < List.length S0)%nat -> In (d - Z.of_nat i) S0) ->
  ~ In (d - Z.of_nat (List.length S0)) S0.
Proof.
  intros Hn Hin Hd.
  set (run := map (fun i => d - Z.of_nat i) (seq 0 (List.length S0))).
  assert (Hrun : NoDup run).
  { apply Finite.Injective_map_NoDup; [| apply seq_NoDup].
    intros a b Hab. lia. }
  assert (Hincl : incl run S0).
  { intros x Hx. apply in_map_iff in Hx. destruct Hx as (i & <- & Hi).
    apply in_seq in Hi. apply Hin. lia. }
  assert (Hlen : (List.length S0 <= List.length run)%nat).
  { unfold run. rewrite length_map, length_seq. lia. }
  pose proof (NoDup_length_incl Hrun Hlen Hincl) as Hback.
  apply Hback in Hd. apply in_map_iff in Hd. destruct Hd as (i & Hi & Hseq).
  apply in_seq in Hseq. lia.
Qed.

(** *** The current streak, in a zone whose offset does not change *)

Section CurrentStreak.
Variable zone : TimeZone.
Variable offset : Z.
Hypothesis zone_fixed : fixed_offset zone offset.

(** A step back by a local day is a step back by a UTC day. *)
Lemma toISODate_prev (t : Z) : toISODate (setDate_prev zone t) = toISODate t - 1.
Proof.
  destruct zone_fixed as [Hat Hlocal].
  unfold toISODate, setDate_prev, UTC, LocalTime. rewrite Hat, Hlocal.
  replace (t + offset - msPerDay - offset) with (t + (-1) * msPerDay) by ring.
  rewrite Z.div_add by (pose proof msPerDay_pos; lia). lia.
Qed.

Lemma currentStreak_loop_spec (S0 : list isoDate) (n : nat) :
  forall (t : Z) (c : nat),
  exists j : nat,
    currentStreak_loop zone n S0 t c = (c + j)%nat /\ (j <= n)%nat /\
    (forall i : nat, (i < j)%nat -> In (toISODate t - Z.of_nat i) S0) /\
    ((j < n)%nat -> ~ In (toISODate t - Z.of_nat j) S0).
Proof.
  induction n as [| n IH]; intros t c; cbn [currentStreak_loop].
  - exists 0%nat. split; [lia | split; [lia | split]]; intros; lia.
  - destruct (includes Z.eqb S0 (toISODate t)) eqn:E.
    + apply (includes_In Z.eqb Z.eqb_eq) in E.
      destruct (IH (setDate_prev zone t) (S c)) as (j & Hr & Hj & Hin & Hout).
      rewrite toISODate_prev in Hin, Hout.
      exists (S j). split; [lia | split; [lia | split]].
      * intros [| i] Hi.
        -- now rewrite Z.sub_0_r.
        -- replace (toISODate t - Z.of_nat (S i))
             with (toISODate t - 1 - Z.of_nat i) by lia.
           apply Hin. lia.
      * intros Hlt.
        replace (toISODate t - Z.of_nat (S j))
          with (toISODate t - 1 - Z.of_nat j) by lia.
        apply Hout. lia.
    + apply (includes_false Z.eqb Z.eqb_eq) in E.
      exists 0%nat. split; [lia | split; [lia | split]].
      * intros i Hi; lia.
      * intros _. now rewrite Z.sub_0_r.
Qed.

Lemma current_streak_run (now : Z) (dates : list isoDate) :
  let c := current (calculateStreaks zone now dates) in
  (forall i : nat, (i < c)%nat -> In (toISODate now - Z.of_nat i) dates) /\
  ~ In (toISODate now - Z.of_nat c) dates.
Proof.
  unfold calculateStreaks. destruct dates as [| d0 dates0] eqn:Ed.
  - cbn. split; [intros i Hi; lia | tauto].
  - cbn [List.length Nat.eqb]. rewrite <- Ed. clear Ed d0 dates0.
    destruct (longestStreak_loop None (sortedDates_of dates) 0 0) as [l t].
    cbn [current].
    destruct (currentStreak_loop_spec (sortedDates_of dates)
                (List.length (sortedDates_of dates)) now 0) as (j & Hr & Hj & Hin & Hout).
    rewrite Hr. cbn [Nat.add]. split.
    + intros i Hi. apply sortedDates_In. now apply Hin.
    + rewrite <- sortedDates_In.
      destruct (Nat.eq_dec j (List.length (sortedDates_of dates))) as [-> | Hne].
      * apply run_fills; [apply sortedDates_NoDup | assumption].
      * apply Hout. lia.
Qed.

End CurrentStreak.


(** *** The longest streak *)

Lemma streak_in_incl (l l' : list isoDate) (d : isoDate) (k : nat) :
  incl l l' -> streak_in l d k -> streak_in l' d k.
Proof. intros Hi Hr i Hk. apply Hi, Hr, Hk. Qed.

(** Adding a day [c] below every day of [P]: a streak of [P ++ [c]] is a
    streak of [P], or ends in [c] after a streak of [P] that is one shorter. *)
Lemma streak_in_snoc (P : list isoDate) (p c d : isoDate) (k : nat) :
  (forall x, In x P -> p <= x) -> c < p ->
  streak_in (P ++ [c]) d k ->
  streak_in P d k \/
  (exists k', k = S k' /\ d - Z.of_nat k' = c /\ streak_in P d k').
Proof.
  intros Hmin Hc Hr.
  assert (Hsplit : forall i, (i < k)%nat ->
            In (d - Z.of_nat i) P \/ d - Z.of_nat i = c).
  { intros i Hi. specialize (Hr i Hi). apply in_app_iff in Hr.
    destruct Hr as [H | [H | []]]; auto. }
  destruct k as [| k']; [left; intros i Hi; lia |].
  destruct (Hsplit k' ltac:(lia)) as [Hlow | Hlow].
  - left. intros i Hi. destruct (Hsplit i Hi) as [H | H]; [assumption |].
    apply Hmin in Hlow. lia.
  - right. exists k'. split; [reflexivity | split; [assumption |]].
    intros i Hi. destruct (Hsplit i ltac:(lia)) as [H | H]; [assumption | lia].
Qed.

Lemma longestStreak_loop_inv (rest : list isoDate) :
  forall (P : list isoDate) (p : isoDate) (g t : nat),
    (forall x, In x P -> p <= x) -> In p P ->
    StronglySorted (fun a b => b < a) (p :: rest) ->
    (1 <= t)%nat -> streak_in P (p + Z.of_nat t - 1) t -> ~ In (p + Z.of_nat t) P ->
    (forall d k, streak_in P d k -> (k <= Nat.max g t)%nat) ->
    (exists d, streak_in P d g) ->
    let '(g', t') := longestStreak_loop (Some p) rest g t in
    (forall d k, streak_in (P ++ rest) d k -> (k <= Nat.max g' t')%nat) /\
    (exists d, streak_in (P ++ rest) d (Nat.max g' t')).
Proof.
  induction rest as [| c rest IH]; intros P p g t Hmin Hp Hs Ht Hrun Htop Hbound Hex.
  - cbn [longestStreak_loop]. rewrite app_nil_r. split; [assumption |].
    destruct (Nat.max_spec g t) as [[_ ->] | [_ ->]];
      [now exists (p + Z.of_nat t - 1) | assumption].
  - cbn [longestStreak_loop]. rewrite diffDays_exact.
    inversion Hs as [| ? ? Hs' Hall]; subst.
    assert (Hc : c < p) by (now inversion Hall).
    assert (Hmin' : forall x, In x (P ++ [c]) -> c <= x).
    { intros x Hx. apply in_app_iff in Hx. destruct Hx as [Hx | [<- | []]];
        [apply Hmin in Hx |]; lia. }
    assert (Hc' : In c (P ++ [c])) by (apply in_app_iff; right; now left).
    assert (Hincl : incl P (P ++ [c])) by (apply incl_appl, incl_refl).
    replace (P ++ c :: rest) with ((P ++ [c]) ++ rest)
      by (now rewrite <- app_assoc).
    destruct (Z.eqb_spec (p - c) 1) as [E | E].
    + apply IH; try assumption.
      * lia.
      * intros i Hi. destruct (Nat.eq_dec i t) as [-> | Hne].
        -- replace (c + Z.of_nat (S t) - 1 - Z.of_nat t) with c by lia. assumption.
        -- apply Hincl.
           replace (c + Z.of_nat (S t) - 1 - Z.of_nat i)
             with (p + Z.of_nat t - 1 - Z.of_nat i) by lia.
           apply Hrun. lia.
      * replace (c + Z.of_nat (S t)) with (p + Z.of_nat t) by lia.
        intros Hin. apply in_app_iff in Hin. destruct Hin as [Hin | [Hin | []]];
          [now apply Htop | lia].
      * intros d k Hk.
        destruct (streak_in_snoc P p c d k Hmin Hc Hk) as [H | (k' & -> & Hd & H)].
        -- specialize (Hbound d k H). lia.
        -- destruct (Nat.le_gt_cases k' t) as [Hle | Hgt]; [lia |].
           exfalso. apply Htop.
           replace (p + Z.of_nat t) with (d - Z.of_nat (k' - 1 - t)) by lia.
           apply H. lia.
      * destruct Hex as (d & Hd). exists d. eapply streak_in_incl; eassumption.
    + apply IH; try assumption.
      * lia.
      * intros i Hi. replace (c + Z.of_nat 1 - 1 - Z.of_nat i) with c by lia.
        assumption.
      * intros Hin. apply in_app_iff in Hin. destruct Hin as [Hin | [Hin | []]];
          [apply Hmin in Hin |]; lia.
      * intros d k Hk.
        destruct (streak_in_snoc P p c d k Hmin Hc Hk) as [H | (k' & -> & Hd & H)].
        -- specialize (Hbound d k H). lia.
        -- destruct k' as [| k'']; [lia |].
           exfalso. specialize (H k'' ltac:(lia)). apply Hmin in H. lia.
      * destruct (Nat.max_spec g t) as [[_ ->] | [_ ->]].
        -- exists (p + Z.of_nat t - 1). eapply streak_in_incl; eassumption.
        -- destruct Hex as (d & Hd). exists d. eapply streak_in_incl; eassumption.
Qed.

Lemma longest_streak_run (zone : TimeZone) (now : Z) (dates : list isoDate) :
  let L := longest (calculateStreaks zone now dates) in
  (forall d k, streak_in dates d k -> (k <= L)%nat) /\
  (exists d, streak_in dates d L).
Proof.
  unfold calculateStreaks. destruct dates as [| d0 dates0] eqn:Ed.
  - cbn. split.
    + intros d [| k] Hk; [lia |]. destruct (Hk 0%nat ltac:(lia)).
    + exists 0. intros i Hi; lia.
  - cbn [List.length Nat.eqb]. rewrite <- Ed.
    assert (Hne : sortedDates_of dates <> []).
    { intros E. assert (Hin : In d0 (sortedDates_of dates)).
      { apply sortedDates_In. rewrite Ed. now left. }
      rewrite E in Hin. destruct Hin. }
    clear Ed d0 dates0.
    pose proof (sortedDates_sorted dates) as Hs.
    assert (Hset : forall d k, streak_in dates d k <-> streak_in (sortedDates_of dates) d k).
    { intros d k. split; apply streak_in_incl; intros x Hx; now apply sortedDates_In. }
    destruct (sortedDates_of dates) as [| x rest]; [congruence |].
    cbn [longestStreak_loop].
    pose proof (longestStreak_loop_inv rest [x] x 0 1) as H.
    destruct (longestStreak_loop (Some x) rest 0 1) as [g' t'].
    cbn [longest].
    assert (Hfinal :
      (forall d k, streak_in ([x] ++ rest) d k -> (k <= Nat.max g' t')%nat) /\
      (exists d, streak_in ([x] ++ rest) d (Nat.max g' t'))).
    { apply H.
      - intros y [<- | []]. lia.
      - now left.
      - assumption.
      - lia.
      - intros i Hi. left. lia.
      - intros [Hin | []]. lia.
      - intros d [| [| k]] Hk; try lia.
        exfalso. pose proof (Hk 0%nat ltac:(lia)) as [H0 | []].
        pose proof (Hk 1%nat ltac:(lia)) as [H1 | []]. lia.
      - exists 0. intros i Hi; lia. }
    cbn [app] in Hfinal. destruct Hfinal as [Hb (d & Hd)]. split.
    + intros d' k Hk. apply (Hb d'). now apply Hset.
    + exists d. now apply Hset.
Qed.

(** *** The claims about calculateStreaks *)




(** C2.  Whatever the zone and the clock, the longest streak is the length
    of the longest run of consecutive calendar days that are all in the date
    set: no run of present days is longer, and some run of present days has
    that length.  (It holds of the empty set too, where the longest streak
    is 0.) *)
Theorem C2_longest_streak_is_longest_run (zone : TimeZone) (now : Z)
    (dates : list isoDate) :
  (forall (d : isoDate) (k : nat),
     streak_in dates d k -> (k <= longest (calculateStreaks zone now dates))%nat) /\
  (exists d : isoDate, streak_in dates d (longest (calculateStreaks zone now dates))).
Proof. exact (longest_streak_run zone now dates). Qed.

(** C3.  The empty list of dates yields [{current: 0, longest: 0, total: 0}],
    whatever the time and the zone. *)
Theorem C3_empty_dates (zone : TimeZone) (now : Z) :
  calculateStreaks zone now [] = {| current := 0; longest := 0; total := 0 |}.
Proof. reflexivity. Qed.

(** ** calculateYearlyStats *)

Example civil_epoch : civil_from_days 0 = (1970, 1, 1).
Proof. reflexivity. Qed.

Example civil_leap_day : civil_from_days (days_from_civil 2024 2 29) = (2024, 2, 29).
Proof. reflexivity. Qed.

Example civil_new_year :
  days_from_civil 2024 1 1 = 19723 /\
  year_of utc 19723 = 2024 /\ year_of utc 19722 = 2023 /\
  year_of bogota 19723 = 2023 /\ calendar_year 19723 = 2024.
Proof. repeat split. Qed.

Example yearly_ex1 :
  calculateYearlyStats utc
    [days_from_civil 2023 12 31; days_from_civil 2024 1 1; days_from_civil 2023 12 31;
     days_from_civil 2022 5 5; days_from_civil 2024 3 1]
  = [ {| year := 2024; activeDays := 2; contributions := 2 |};
      {| year := 2023; activeDays := 1; contributions := 2 |};
      {| year := 2022; activeDays := 1; contributions := 1 |} ].
Proof. reflexivity. Qed.

Section YearlyFacts.
Variable zone : TimeZone.

Lemma in_year_exists (l : list isoDate) (y : Z) :
  existsb (in_year zone y) l = true <-> exists d, In d l /\ year_of zone d = y.
Proof.
  rewrite existsb_exists. unfold in_year.
  split; intros (d & Hd & E); exists d; (split; [assumption |]);
    now apply Z.eqb_eq.
Qed.

(** The object built by the [forEach]: one property per year that occurs,
    holding that year's dates. *)
Lemma yearly_fold_spec (dates : list isoDate) :
  let yearly := fold_left (yearly_step zone) dates [] in
  NoDup (map fst yearly) /\
  forall y, obj_get Z.eqb yearly y
            = if existsb (in_year zone y) dates then Some (year_data zone dates y) else None.
Proof.
  induction dates as [| date dates IH] using rev_ind; cbn zeta.
  - split; [constructor | reflexivity].
  - destruct IH as [Hn Hget]. rewrite fold_left_app. cbn [fold_left].
    set (yearly := fold_left (yearly_step zone) dates []) in *.
    unfold yearly_step. fold (year_of zone date).
    split; [now apply (obj_set_NoDup Z.eqb Z.eqb_eq) |].
    intros y. rewrite existsb_app. cbn [existsb]. rewrite orb_false_r.
    unfold year_data. rewrite !filter_app. cbn [filter].
    unfold in_year at 2 4 6. 
    destruct (Z.eqb_spec (year_of zone date) y) as [E | E].
    + subst y. rewrite (obj_get_set_same Z.eqb Z.eqb_eq), orb_true_r. f_equal.
      rewrite Hget. unfold Set_of. rewrite fold_left_app, length_app. cbn [fold_left List.length].
      destruct (existsb (in_year zone (year_of zone date)) dates) eqn:Ex.
      * cbn [year_data YearData.days YearData.contributions].
        unfold Set_of. f_equal. lia.
      * assert (Hnil : filter (in_year zone (year_of zone date)) dates = []).
        { destruct (filter (in_year zone (year_of zone date)) dates) as [| d l] eqn:Ef;
            [reflexivity |].
          assert (Hd : In d (filter (in_year zone (year_of zone date)) dates))
            by (rewrite Ef; now left).
          apply filter_In in Hd. destruct Hd as [Hd Hy].
          assert (existsb (in_year zone (year_of zone date)) dates = true)
            by (apply existsb_exists; eauto).
          congruence. }
        rewrite Hnil. reflexivity.
    + rewrite (obj_get_set_other Z.eqb Z.eqb_eq) by assumption.
      rewrite Hget, orb_false_r, !app_nil_r. reflexivity.
Qed.

Lemma distinct_count (l : list isoDate) :
  List.length (Set_of Z.eqb l) = List.length (nodup Z.eq_dec l).
Proof.
  apply Permutation_length, NoDup_Permutation.
  - apply Set_of_NoDup, Z.eqb_eq.
  - apply NoDup_nodup.
  - intros x. rewrite nodup_In. apply Set_of_In, Z.eqb_eq.
Qed.

(** The summaries the script returns: strictly descending in the year, one
    for each year that occurs, each the summary of its year. *)
Lemma yearly_stats_char (dates : list isoDate) :
  StronglySorted (fun a b => year b < year a) (calculateYearlyStats zone dates) /\
  forall e, In e (calculateYearlyStats zone dates) <->
            (exists d, In d dates /\ year_of zone d = year e) /\
            e = summary_of zone dates (year e).
Proof.
  unfold calculateYearlyStats.
  destruct (yearly_fold_spec dates) as [Hn Hget]. cbv zeta in Hn, Hget.
  set (yearly := fold_left (yearly_step zone) dates []) in *.
  set (mk := fun '(year, data) =>
         {| year := year; activeDays := List.length (YearData.days data);
            contributions := YearData.contributions data |}).
  set (entries := Array_sort (fun a b => 0 <? fst b - fst a) (Object_entries yearly)).
  assert (Hperm : Permutation entries yearly).
  { unfold entries. rewrite Array_sort_perm. apply Object_entries_perm. }
  assert (Hyear : forall e, year (mk e) = fst e) by (now intros [y data]).
  split.
  - assert (Hs : StronglySorted (fun a b => fst b < fst a) entries).
    { apply desc_NoDup_strict.
      - apply Array_sort_sorted. intros a b.
        destruct (Z.ltb_spec 0 (fst b - fst a)), (Z.ltb_spec (fst a) (fst b));
          try reflexivity; lia.
      - eapply Permutation_NoDup; [| exact Hn].
        apply Permutation_map. now symmetry. }
    clear -Hs Hyear. induction Hs as [| x l Hs IH Hall]; cbn [map]; constructor.
    + assumption.
    + rewrite Forall_forall in *. intros e He. apply in_map_iff in He.
      destruct He as (e0 & <- & He0). rewrite !Hyear. now apply Hall.
  - intros e. rewrite in_map_iff. split.
    + intros ([y data] & <- & Hin).
      apply (Permutation_in _ Hperm), (obj_get_In Z.eqb Z.eqb_eq _ _ _ Hn) in Hin.
      rewrite Hget in Hin. cbn [mk year].
      destruct (existsb (in_year zone y) dates) eqn:Ex; [| discriminate].
      injection Hin as <-. split; [now apply in_year_exists |].
      unfold summary_of, year_data. cbn [YearData.days YearData.contributions].
      now rewrite distinct_count.
    + intros [Hex He]. apply in_year_exists in Hex.
      exists (year e, year_data zone dates (year e)). split.
      * rewrite He at 3. unfold summary_of, year_data, mk.
        cbn [YearData.days YearData.contributions]. now rewrite distinct_count.
      * apply (Permutation_in _ (Permutation_sym Hperm)), (obj_get_In Z.eqb Z.eqb_eq _ _ _ Hn).
        now rewrite Hget, Hex.
Qed.

End YearlyFacts.

(** *** The claim about calculateYearlyStats *)






(** ** Numbers *)

(** The operations on doubles agree with the binary64 operations of the
    processor, here on every percentage of [bytes] in [total] for
    [bytes, total < 40], and on some larger ones. *)
Example percent_agrees_with_binary64 :
  forallb (fun bytes =>
    forallb (fun total =>
      number_eqb (binary64_percent (Z.of_nat bytes) (Z.of_nat total))
                 (fmul (fdiv (of_Z (Z.of_nat bytes)) (of_Z (Z.of_nat total))) (of_Z 100)))
      (seq 0 40)) (seq 0 40) = true.
Proof. vm_compute. reflexivity. Qed.

Example percent_agrees_with_binary64_large :
  forallb (fun '(bytes, total) =>
      number_eqb (binary64_percent bytes total)
                 (fmul (fdiv (of_Z bytes) (of_Z total)) (of_Z 100)))
    [(1000, 1002001); (1001, 1002001); (29, 2000); (123456789, 9007199254740991);
     (4503599627370497, 9007199254740991); (1, 9007199254740991);
     (33554431, 33554432); (7, 3000000007)] = true.
Proof. vm_compute. reflexivity. Qed.

Example percent_examples :
  percent_of 1 6 = FDec 1 167 /\ percent_of 4 6 = FDec 1 667 /\
  percent_of 1 2 = FDec 1 500 /\ percent_of 0 0 = FNaN /\
  fixed_text (percent_of 1 6) = "16.7" /\ fixed_text (percent_of 5 1000) = "0.5" /\
  fixed_text (percent_of 7 7) = "100.0".
Proof. vm_compute. repeat split. Qed.

Example progress_bar_examples :
  generateProgressBar (parseFloat (FDec 1 500)) 20
    = Some "██████████░░░░░░░░░░" /\
  generateProgressBar (parseFloat (FDec 1 0)) 20
    = Some "░░░░░░░░░░░░░░░░░░░░" /\
  generateProgressBar (parseFloat (FDec 1 1000)) 20
    = Some "████████████████████".
Proof. vm_compute. repeat split. Qed.

Example language_line_example :
  language_line {| name := "Go"; percentage := percent_of 1 6 |}
  = Some "Go           ███░░░░░░░░░░░░░░░░░  16.7%".
Proof. vm_compute. reflexivity. Qed.

(** ** Rounding to the nearest double *)

Lemma rne_spec (n d : Z) :
  0 < d -> - d <= 2 * (rne n d * d - n) <= d.
Proof.
  intros Hd. unfold rne.
  pose proof (Z.div_mod n d ltac:(lia)) as Hdm.
  pose proof (Z.mod_pos_bound n d Hd) as Hr.
  destruct (Z.compare_spec (2 * (n mod d)) d) as [E | E | E];
    [destruct (Z.even (n / d)) | |]; nia.
Qed.

Lemma rne_nonneg (n d : Z) : 0 <= n -> 0 < d -> 0 <= rne n d.
Proof.
  intros Hn Hd. unfold rne.
  pose proof (Z.div_pos n d Hn Hd).
  destruct (2 * (n mod d) ?= d); [destruct (Z.even (n / d)) | |]; lia.
Qed.

Lemma rne_exact (n : Z) : rne n 1 = n.
Proof.
  unfold rne. rewrite Z.mod_1_r, Z.div_1_r. reflexivity.
Qed.

Lemma binade_cases (n d : Z) :
  -1073 <= Z.log2 n - Z.log2 d - 52 ->
  (binade n d = Z.log2 n - Z.log2 d - 52 - 1 /\
   fst (scale n d (Z.log2 n - Z.log2 d - 52))
   < 2 ^ 52 * snd (scale n d (Z.log2 n - Z.log2 d - 52))) \/
  (binade n d = Z.log2 n - Z.log2 d - 52 /\
   2 ^ 52 * snd (scale n d (Z.log2 n - Z.log2 d - 52))
   <= fst (scale n d (Z.log2 n - Z.log2 d - 52))).
Proof.
  intros Hlow. unfold binade.
  destruct (scale n d (Z.log2 n - Z.log2 d - 52)) as [n' d']. cbn [fst snd].
  destruct (Z.ltb_spec n' (2 ^ 52 * d')); [left | right]; split; lia.
Qed.

(** In the range of the normal numbers, [binade n d] is the exponent that
    puts the scaled fraction between [2^52] and [2^53]. *)
Lemma binade_spec (n d : Z) :
  0 < n -> 0 < d -> -1073 <= Z.log2 n - Z.log2 d - 52 ->
  exists n' d' : Z,
    scale n d (binade n d) = (n', d') /\ 0 < d' /\
    2 ^ 52 * d' <= n' < 2 ^ 53 * d' /\
    Z.log2 n - Z.log2 d - 53 <= binade n d <= Z.log2 n - Z.log2 d - 52 /\
    ((binade n d < 0 /\ n' = n * 2 ^ (- binade n d) /\ d' = d) \/
     (0 <= binade n d /\ n' = n /\ d' = d * 2 ^ binade n d)).
Proof.
  intros Hn Hd Hlow.
  pose proof (Z.log2_spec n Hn) as [Hn1 Hn2].
  pose proof (Z.log2_spec d Hd) as [Hd1 Hd2].
  pose proof (Z.log2_nonneg n) as Hln. pose proof (Z.log2_nonneg d) as Hld.
  pose proof (binade_cases n d Hlow) as Hcases.
  set (ln := Z.log2 n) in *. set (ld := Z.log2 d) in *.
  set (e0 := ln - ld - 52) in *.
  rewrite Z.pow_succ_r in Hn2, Hd2 by assumption.
  change (2 ^ 53) with (2 * 2 ^ 52).
  set (C := 2 ^ 52) in *. assert (HC : 0 < C) by reflexivity.
  set (P := 2 ^ ln) in *. set (Q := 2 ^ ld) in *.
  assert (HQ : 0 < Q) by (apply Z.pow_pos_nonneg; lia).
  unfold scale in Hcases.
  destruct (Z.ltb_spec e0 0) as [He0 | He0]; cbn [fst snd] in Hcases.
  - set (A := 2 ^ (- e0)) in *.
    assert (HA : 0 < A) by (apply Z.pow_pos_nonneg; lia).
    assert (HPA : P * A = Q * C).
    { unfold P, A, Q, C. rewrite <- !Z.pow_add_r by lia. f_equal. lia. }
    destruct Hcases as [[-> Hlt] | [-> Hge]]; unfold scale.
    + destruct (Z.ltb_spec (e0 - 1) 0) as [_ | ?]; [| lia].
      assert (HA2 : 2 ^ (- (e0 - 1)) = 2 * A).
      { unfold A. replace (- (e0 - 1)) with (Z.succ (- e0)) by lia.
        apply Z.pow_succ_r. lia. }
      exists (n * 2 ^ (- (e0 - 1))), d. rewrite HA2.
      split; [reflexivity |]. split; [assumption |].
      split; [nia |]. split; [lia |]. left. repeat split; lia.
    + destruct (Z.ltb_spec e0 0) as [_ | ?]; [| lia].
      exists (n * A), d.
      split; [reflexivity |]. split; [assumption |].
      split; [nia |]. split; [lia |]. left. repeat split; lia.
  - set (B := 2 ^ e0) in *.
    assert (HB : 0 < B) by (apply Z.pow_pos_nonneg; lia).
    assert (HPB : P = B * Q * C).
    { unfold P, B, Q, C. rewrite <- !Z.pow_add_r by lia. f_equal. lia. }
    destruct Hcases as [[-> Hlt] | [-> Hge]]; unfold scale.
    + destruct (Z.ltb_spec (e0 - 1) 0) as [Hneg | Hpos].
      * assert (e0 = 0) by lia.
        assert (HB1 : B = 1) by (unfold B; now replace e0 with 0).
        replace (- (e0 - 1)) with 1 by lia. change (2 ^ 1) with 2.
        exists (n * 2), d.
        split; [reflexivity |]. split; [assumption |].
        split; [nia |]. split; [lia |]. left. repeat split; lia.
      * assert (HB2 : B = 2 * 2 ^ (e0 - 1)).
        { unfold B. replace e0 with (Z.succ (e0 - 1)) at 1 by lia.
          apply Z.pow_succ_r. lia. }
        set (B' := 2 ^ (e0 - 1)) in *.
        exists n, (d * B').
        split; [reflexivity |]. split; [nia |].
        split; [nia |]. split; [lia |]. right. repeat split; lia.
    + destruct (Z.ltb_spec e0 0) as [? | _]; [lia |].
      exists n, (d * B).
      split; [reflexivity |]. split; [nia |].
      split; [nia |]. split; [lia |]. right. repeat split; lia.
Qed.

(** The double nearest to [n / d], when it is a normal number: it is within
    [2^-53] of [n / d], relatively. *)
Lemma round53_normal (n d k : Z) :
  0 < n -> 0 < d -> 0 <= k <= 1000 -> d <= n * 2 ^ k -> n <= d * 2 ^ k ->
  exists N D : Z,
    round53 n d = Finite N D /\ 0 < N /\ 0 < D /\
    - (n * D) <= 2 ^ 53 * (N * d - n * D) <= n * D.
Proof.
  intros Hn Hd Hk Hlo Hhi.
  assert (Hlog : - k <= Z.log2 n - Z.log2 d <= k).
  { pose proof (Z.log2_le_mono _ _ Hlo) as H1.
    pose proof (Z.log2_le_mono _ _ Hhi) as H2.
    rewrite Z.log2_mul_pow2 in H1, H2 by lia. lia. }
  destruct (binade_spec n d Hn Hd ltac:(lia))
    as (n' & d' & Hs & Hd' & Hrange & He & Hval).
  unfold round53. rewrite Hs.
  pose proof (rne_spec n' d' Hd') as Hm.
  set (m := rne n' d') in *. set (e := binade n d) in *.
  destruct (Z.ltb_spec 971 e) as [? | _]; [lia |].
  destruct (Z.eqb_spec e 971) as [? | _]; [lia |]. cbn [orb andb].
  change (2 ^ 53) with (2 * 2 ^ 52) in *.
  set (C := 2 ^ 52) in *. assert (HC : 0 < C) by reflexivity.
  assert (Hmpos : 0 < m) by nia.
  destruct Hval as [(Hneg & -> & ->) | (Hpos & -> & ->)].
  - destruct (Z.ltb_spec e 0) as [_ | ?]; [| lia].
    set (A := 2 ^ (- e)) in *.
    assert (HA : 0 < A) by (apply Z.pow_pos_nonneg; lia).
    exists m, A. repeat split; try assumption; nia.
  - destruct (Z.ltb_spec e 0) as [? | _]; [lia |].
    set (B := 2 ^ e) in *.
    assert (HB : 0 < B) by (apply Z.pow_pos_nonneg; lia).
    exists (m * B), 1. repeat split; try lia; nia.
Qed.

(** An integer below [2^53] is a double. *)
Lemma of_Z_exact (z : Z) :
  0 < z < 2 ^ 53 ->
  exists D : Z, of_Z z = Finite (z * D) D /\ 0 < D.
Proof.
  intros Hz. unfold of_Z. destruct (Z.eqb_spec z 0) as [? | _]; [lia |].
  assert (Hlog : 0 <= Z.log2 z <= 52).
  { split; [apply Z.log2_nonneg |].
    assert (Z.log2 z < 53) by (apply Z.log2_lt_pow2; lia). lia. }
  destruct (binade_spec z 1 ltac:(lia) ltac:(lia))
    as (n' & d' & Hs & Hd' & Hrange & He & Hval).
  { change (Z.log2 1) with 0. lia. }
  change (Z.log2 1) with 0 in He.
  unfold round53. rewrite Hs.
  set (e := binade z 1) in *.
  destruct (Z.ltb_spec 971 e) as [? | _]; [lia |].
  destruct (Z.eqb_spec e 971) as [? | _]; [lia |]. cbn [orb andb].
  destruct Hval as [(Hneg & -> & ->) | (Hpos & -> & ->)].
  - destruct (Z.ltb_spec e 0) as [_ | ?]; [| lia].
    rewrite rne_exact. exists (2 ^ (- e)). split; [reflexivity |].
    apply Z.pow_pos_nonneg; lia.
  - destruct (Z.ltb_spec e 0) as [? | _]; [lia |].
    assert (E : e = 0) by lia. rewrite E.
    change (2 ^ 0) with 1. rewrite !Z.mul_1_r, rne_exact.
    exists 1. rewrite Z.mul_1_r. split; [reflexivity | lia].
Qed.

Lemma of_Z_100 : of_Z 100 = Finite (100 * 2 ^ 46) (2 ^ 46).
Proof. vm_compute. reflexivity. Qed.

Lemma mul_le_cancel_r (a b c : Z) : 0 < c -> a * c <= b * c -> a <= b.
Proof. intros Hc H. now apply Z.mul_le_mono_pos_r in H. Qed.

(** The quotient of two integers below [2^53], the smaller on top. *)
Lemma fdiv_of_Z (b T : Z) :
  0 < b <= T -> T < 2 ^ 53 ->
  exists N D : Z,
    fdiv (of_Z b) (of_Z T) = Finite N D /\ 0 < N /\ 0 < D /\
    - (b * D) <= 2 ^ 53 * (N * T - b * D) <= b * D.
Proof.
  intros Hb HT.
  destruct (of_Z_exact b ltac:(lia)) as (Db & -> & HDb).
  destruct (of_Z_exact T ltac:(lia)) as (Dt & -> & HDt).
  cbn [fdiv].
  assert (HTD : 0 < T * Dt) by (apply Z.mul_pos_pos; lia).
  assert (HbD : 0 < b * Db) by (apply Z.mul_pos_pos; lia).
  assert (Hc : 0 < Db * Dt) by (apply Z.mul_pos_pos; lia).
  destruct (Z.eqb_spec (T * Dt) 0) as [? | _]; [lia |].
  destruct (Z.eqb_spec (b * Db) 0) as [? | _]; [lia |].
  assert (Hp : 1 <= 2 ^ 53) by (vm_compute; discriminate).
  destruct (round53_normal (b * Db * Dt) (Db * (T * Dt)) 53)
    as (N & D & -> & HN & HD & Hlo & Hhi).
  - apply Z.mul_pos_pos; lia.
  - apply Z.mul_pos_pos; lia.
  - lia.
  - replace (Db * (T * Dt)) with (T * (Db * Dt)) by ring.
    replace (b * Db * Dt * 2 ^ 53) with (b * 2 ^ 53 * (Db * Dt)) by ring.
    apply Z.mul_le_mono_nonneg_r; [lia | nia].
  - replace (Db * (T * Dt) * 2 ^ 53) with (T * 2 ^ 53 * (Db * Dt)) by ring.
    replace (b * Db * Dt) with (b * (Db * Dt)) by ring.
    apply Z.mul_le_mono_nonneg_r; [lia | nia].
  - exists N, D. repeat split; try assumption.
    + apply (mul_le_cancel_r _ _ (Db * Dt)); [assumption |].
      etransitivity; [| etransitivity; [exact Hlo |]]; apply Z.eq_le_incl; ring.
    + apply (mul_le_cancel_r _ _ (Db * Dt)); [assumption |].
      etransitivity; [| etransitivity; [exact Hhi |]]; apply Z.eq_le_incl; ring.
Qed.

Lemma mul_lt_cancel_r (a b c : Z) : 0 < c -> a * c < b * c -> a < b.
Proof. intros Hc H. now apply Z.mul_lt_mono_pos_r in H. Qed.

(** The percentage of [b] bytes in a total of [T]: a numeral with one
    fraction digit, [t / 10], within a twentieth of the share [100 * b / T]
    up to the two roundings of the division and the multiplication. *)
Lemma percent_of_pos (b T : Z) :
  0 < b <= T -> T < 2 ^ 53 ->
  exists t : Z,
    percent_of b T = FDec 1 t /\
    (2 * t - 1) * T * (2 ^ 53 * 2 ^ 53)
    <= 2000 * ((2 ^ 53 + 1) * (2 ^ 53 + 1)) * b /\
    2000 * ((2 ^ 53 - 1) * (2 ^ 53 - 1)) * b
    < (2 * t + 1) * T * (2 ^ 53 * 2 ^ 53).
Proof.
  intros Hb HT.
  destruct (fdiv_of_Z b T Hb HT) as (N & D & Hdiv & HN & HD & Hlo & Hhi).
  unfold percent_of. rewrite Hdiv, of_Z_100. cbn [fmul].
  destruct (Z.eqb_spec N 0) as [? | _]; [lia |].
  change (100 * 2 ^ 46 =? 0) with false. cbn [orb].
  assert (HP : 2 ^ 20 <= 2 ^ 53) by (vm_compute; discriminate).
  set (P := 2 ^ 53) in *.
  set (h := 2 ^ 46). assert (Hh : 0 < h) by reflexivity.
  (* the quotient is between 1 / (2 P) and 2 *)
  assert (HloN : (P - 1) * (b * D) <= P * (N * T)) by lia.
  assert (HhiN : P * (N * T) <= (P + 1) * (b * D)) by lia.
  assert (HN2 : N <= 2 * D).
  { apply (mul_le_cancel_r _ _ (P * T)); [nia |].
    transitivity ((P + 1) * (b * D)); [lia |].
    transitivity ((P + 1) * (T * D)); [| nia].
    apply Z.mul_le_mono_nonneg_l; [lia |].
    apply Z.mul_le_mono_nonneg_r; lia. }
  assert (HD2 : D <= 2 * P * N).
  { apply (mul_le_cancel_r _ _ (P - 1)); [lia |].
    transitivity ((P - 1) * (b * D)); [nia |].
    transitivity (P * (N * T)); [assumption |].
    transitivity (P * (N * P)); [| nia].
    apply Z.mul_le_mono_nonneg_l; [lia |].
    apply Z.mul_le_mono_nonneg_l; lia. }
  destruct (round53_normal (N * (100 * h)) (D * h) 60)
    as (N' & D' & -> & HN' & HD' & Hlo' & Hhi').
  - apply Z.mul_pos_pos; lia.
  - apply Z.mul_pos_pos; lia.
  - lia.
  - replace (N * (100 * h) * 2 ^ 60) with (N * (100 * 2 ^ 60) * h) by ring.
    apply Z.mul_le_mono_nonneg_r; [lia |].
    transitivity (2 * P * N); [assumption |].
    unfold P. change (2 ^ 53) with 9007199254740992.
    change (2 ^ 60) with 1152921504606846976. lia.
  - replace (N * (100 * h)) with (100 * N * h) by ring.
    replace (D * h * 2 ^ 60) with (D * 2 ^ 60 * h) by ring.
    apply Z.mul_le_mono_nonneg_r; [lia |].
    change (2 ^ 60) with 1152921504606846976. lia.
  - fold P in Hlo', Hhi'.
    assert (Hlo2 : (P - 1) * (100 * N * D') <= P * (N' * D)).
    { apply (mul_le_cancel_r _ _ h); [assumption |]. lia. }
    assert (Hhi2 : P * (N' * D) <= (P + 1) * (100 * N * D')).
    { apply (mul_le_cancel_r _ _ h); [assumption |]. lia. }
    assert (HN'2 : N' <= 201 * D').
    { apply (mul_le_cancel_r _ _ (P * D)); [nia |].
      transitivity ((P + 1) * (100 * N * D')); [nia |].
      transitivity ((P + 1) * (100 * (2 * D) * D')); [| nia].
      apply Z.mul_le_mono_nonneg_l; [lia |].
      apply Z.mul_le_mono_nonneg_r; lia. }
    unfold toFixed.
    destruct (Z.leb_spec (10 ^ 21 * D') N') as [Hbig | _].
    { change (10 ^ 21) with 1000000000000000000000 in Hbig. lia. }
    change (10 ^ Z.of_nat 1) with 10.
    set (t := (2 * 10 * N' + D') / (2 * D')).
    assert (Ht1 : 2 * D' * t <= 2 * 10 * N' + D')
      by (apply Z.mul_div_le; lia).
    assert (Ht2 : 2 * 10 * N' + D' < 2 * D' * Z.succ t)
      by (apply Z.mul_succ_div_gt; lia).
    exists t. split; [reflexivity |]. split.
    + apply (mul_le_cancel_r _ _ (D' * D)); [nia |].
      transitivity (20 * N' * (D * T * (P * P))).
      { replace ((2 * t - 1) * T * (P * P) * (D' * D))
          with ((2 * t - 1) * D' * (D * T * (P * P))) by ring.
        apply Z.mul_le_mono_nonneg_r; [nia | lia]. }
      transitivity (20 * T * P * ((P + 1) * (100 * N * D'))).
      { replace (20 * N' * (D * T * (P * P)))
          with (20 * T * P * (P * (N' * D))) by ring.
        apply Z.mul_le_mono_nonneg_l; [nia | assumption]. }
      transitivity (2000 * (P + 1) * D' * ((P + 1) * (b * D))).
      { replace (20 * T * P * ((P + 1) * (100 * N * D')))
          with (2000 * (P + 1) * D' * (P * (N * T))) by ring.
        apply Z.mul_le_mono_nonneg_l; [nia | assumption]. }
      apply Z.eq_le_incl. ring.
    + apply (mul_lt_cancel_r _ _ (D' * D)); [nia |].
      apply Z.le_lt_trans with (2000 * (P - 1) * D' * (P * (N * T))).
      { replace (2000 * ((P - 1) * (P - 1)) * b * (D' * D))
          with (2000 * (P - 1) * D' * ((P - 1) * (b * D))) by ring.
        apply Z.mul_le_mono_nonneg_l; [nia | assumption]. }
      apply Z.le_lt_trans with (20 * T * P * (P * (N' * D))).
      { replace (2000 * (P - 1) * D' * (P * (N * T)))
          with (20 * T * P * ((P - 1) * (100 * N * D'))) by ring.
        apply Z.mul_le_mono_nonneg_l; [nia | assumption]. }
      replace (20 * T * P * (P * (N' * D)))
        with (2 * 10 * N' * (D * T * (P * P))) by ring.
      replace ((2 * t + 1) * T * (P * P) * (D' * D))
        with ((2 * t + 1) * D' * (D * T * (P * P))) by ring.
      apply Z.mul_lt_mono_pos_r; [nia | lia].
Qed.

Lemma percent_of_zero (T : Z) :
  0 < T < 2 ^ 53 -> percent_of 0 T = FDec 1 0.
Proof.
  intros HT. unfold percent_of.
  destruct (of_Z_exact T HT) as (D & -> & HD).
  change (of_Z 0) with (Finite 0 1). cbn [fdiv].
  destruct (Z.eqb_spec (T * D) 0) as [E | _]; [nia |].
  rewrite of_Z_100. reflexivity.
Qed.

(** The percentage of [b] bytes in a positive total [T] below [2^53]. *)
Lemma percent_of_spec (b T : Z) :
  0 <= b <= T -> 0 < T < 2 ^ 53 ->
  exists t : Z,
    percent_of b T = FDec 1 t /\ 0 <= t <= 1000 /\
    1000 * b - T < t * T < 1000 * b + T /\
    (2 * t - 1) * T * (2 ^ 53 * 2 ^ 53)
    <= 2000 * ((2 ^ 53 + 1) * (2 ^ 53 + 1)) * b /\
    2000 * ((2 ^ 53 - 1) * (2 ^ 53 - 1)) * b
    < (2 * t + 1) * T * (2 ^ 53 * 2 ^ 53).
Proof.
  intros Hb HT.
  assert (HP : 2 ^ 20 <= 2 ^ 53) by (vm_compute; discriminate).
  destruct (Z.eq_dec b 0) as [-> | Hb0].
  - exists 0. rewrite percent_of_zero by assumption.
    set (P := 2 ^ 53) in *. repeat split; try lia; nia.
  - destruct (percent_of_pos b T ltac:(lia) ltac:(lia)) as (t & Et & Hup & Hlow).
    exists t. split; [assumption |].
    set (P := 2 ^ 53) in *. change (2 ^ 20) with 1048576 in HP.
    assert (HPP : 0 < P * P) by nia.
    assert (Hsmall : 2000 * (2 * P + 1) * T < T * (P * P)).
    { rewrite (Z.mul_comm T). apply Z.mul_lt_mono_pos_r; [lia | nia]. }
    assert (HbT : 2000 * (2 * P + 1) * b <= 2000 * (2 * P + 1) * T)
      by (apply Z.mul_le_mono_nonneg_l; lia).
    assert (Hup' : (2 * t - 2) * T < 2000 * b).
    { apply (mul_lt_cancel_r _ _ (P * P)); [assumption |]. lia. }
    assert (Hlow' : 2000 * b < (2 * t + 2) * T).
    { apply (mul_lt_cancel_r _ _ (P * P)); [assumption |]. lia. }
    split; [| split; [lia | split; assumption]].
    split.
    + assert (0 < (2 * t + 2) * T) by lia. nia.
    + assert ((2 * t - 2) * T < 2000 * T) by lia.
      assert (2 * t - 2 < 2000) by (apply (mul_lt_cancel_r _ _ T); lia). lia.
Qed.

(** ** Sums of percentages *)

Lemma total_exact_sum (languages : list (string * Z)) :
  total_exact languages = Zsum (map snd languages).
Proof.
  unfold total_exact.
  assert (H : forall l a, fold_left (fun sum bytes => sum + bytes) l a = a + Zsum l).
  { induction l as [| x l IH]; intros a; cbn [fold_left];
      [| rewrite IH]; unfold Zsum; cbn [fold_right]; lia. }
  rewrite H. lia.
Qed.

Lemma Zsum_nonneg (l : list Z) : Forall (fun b => 0 <= b) l -> 0 <= Zsum l.
Proof. induction 1; unfold Zsum in *; cbn [fold_right]; lia. Qed.

Lemma Zsum_bound (l : list Z) (b : Z) :
  Forall (fun b => 0 <= b) l -> In b l -> 0 <= b <= Zsum l.
Proof.
  induction 1 as [| x l Hx Hl IH]; intros Hin; [destruct Hin |].
  pose proof (Zsum_nonneg l Hl). change (Zsum (x :: l)) with (x + Zsum l).
  destruct Hin as [-> | Hin]; [lia |].
  specialize (IH Hin). lia.
Qed.



(** ** The aggregation of languages *)

Lemma obj_set_keys_order {V : Type} (o : list (string * V)) (k : string) (v : V) :
  map fst (obj_set String.eqb o k v) = Set_add String.eqb (map fst o) k.
Proof.
  unfold Set_add, includes.
  induction o as [| [k0 v0] o IH]; [reflexivity |].
  cbn [obj_set map fst existsb].
  rewrite (String.eqb_sym k k0).
  destruct (String.eqb k0 k) eqn:E; cbn [orb map fst].
  - apply String.eqb_eq in E. now subst k0.
  - rewrite IH. destruct (existsb (String.eqb k) (map fst o)); reflexivity.
Qed.

Lemma Zsum_app (l l' : list Z) : Zsum (l ++ l') = Zsum l + Zsum l'.
Proof.
  induction l as [| x l IH]; [reflexivity |].
  cbn [app]. change (Zsum (x :: l ++ l')) with (x + Zsum (l ++ l')).
  change (Zsum (x :: l)) with (x + Zsum l). lia.
Qed.

Lemma obj_set_sum (o : list (string * Z)) (k : string) (v : Z) :
  Zsum (map snd (obj_set String.eqb o k v))
  = Zsum (map snd o) + v
    - match obj_get String.eqb o k with Some b => b | None => 0 end.
Proof.
  induction o as [| [k0 v0] o IH]; cbn [obj_set obj_get map snd].
  - unfold Zsum. cbn. lia.
  - destruct (String.eqb k0 k); cbn [map snd].
    + change (Zsum (v :: map snd o)) with (v + Zsum (map snd o)).
      change (Zsum (v0 :: map snd o)) with (v0 + Zsum (map snd o)). lia.
    + change (Zsum (v0 :: map snd (obj_set String.eqb o k v)))
        with (v0 + Zsum (map snd (obj_set String.eqb o k v))).
      change (Zsum (v0 :: map snd o)) with (v0 + Zsum (map snd o)).
      rewrite IH. lia.
Qed.

Lemma add_repo_languages_concat (fetched : list (list (string * N)))
    (languages : list (string * value)) :
  fold_left add_repo_languages fetched languages
  = fold_left add_language (List.concat (map Object_entries_named fetched)) languages.
Proof.
  revert languages. induction fetched as [| r fetched IH]; intros languages.
  - reflexivity.
  - cbn [fold_left List.concat map]. rewrite fold_left_app. apply IH.
Qed.

Lemma included_entries_app (l l' : list (string * N)) :
  included_entries (l ++ l') = included_entries l ++ included_entries l'.
Proof. apply filter_app. Qed.

Lemma language_bytes_app (l l' : list (string * N)) (lang : string) :
  language_bytes (l ++ l') lang = language_bytes l lang + language_bytes l' lang.
Proof.
  unfold language_bytes.
  now rewrite included_entries_app, filter_app, map_app, Zsum_app.
Qed.

Lemma included_bytes_app (l l' : list (string * N)) :
  included_bytes (l ++ l') = included_bytes l + included_bytes l'.
Proof.
  unfold included_bytes. now rewrite included_entries_app, map_app, Zsum_app.
Qed.

Lemma included_entries_one (lang : string) (bytes : N) :
  included_entries [(lang, bytes)]
  = if includes String.eqb excludedLanguages lang then [] else [(lang, bytes)].
Proof.
  unfold included_entries. cbn [filter fst].
  now destruct (includes String.eqb excludedLanguages lang).
Qed.

Lemma language_bytes_one (lang l : string) (bytes : N) :
  language_bytes [(lang, bytes)] l
  = if includes String.eqb excludedLanguages lang then 0
    else if String.eqb lang l then Z.of_N bytes else 0.
Proof.
  unfold language_bytes. rewrite included_entries_one.
  destruct (includes String.eqb excludedLanguages lang); [reflexivity |].
  cbn [filter fst]. destruct (String.eqb lang l); cbn; lia.
Qed.

Lemma included_bytes_one (lang : string) (bytes : N) :
  included_bytes [(lang, bytes)]
  = if includes String.eqb excludedLanguages lang then 0 else Z.of_N bytes.
Proof.
  unfold included_bytes. rewrite included_entries_one.
  destruct (includes String.eqb excludedLanguages lang); cbn; lia.
Qed.

Lemma language_bytes_absent (entries : list (string * N)) (lang : string) :
  includes String.eqb (map fst (included_entries entries)) lang = false ->
  language_bytes entries lang = 0.
Proof.
  intros Hin. unfold language_bytes.
  destruct (filter (fun e => String.eqb (fst e) lang) (included_entries entries))
    as [| e l] eqn:Ef; [reflexivity |].
  assert (He : In e (filter (fun e => String.eqb (fst e) lang) (included_entries entries)))
    by (rewrite Ef; now left).
  apply filter_In in He. destruct He as [He Hn].
  apply String.eqb_eq in Hn.
  assert (includes String.eqb (map fst (included_entries entries)) lang = true).
  { apply (includes_In String.eqb String.eqb_eq). rewrite <- Hn. now apply in_map. }
  congruence.
Qed.

(** The table after the entries [entries]: the languages that are not
    excluded, in the order of their first entry, each with its bytes. *)
Lemma exact_table_spec (entries : list (string * N)) :
  let languages := fold_left add_exact entries [] in
  map fst languages = Set_of String.eqb (map fst (included_entries entries)) /\
  NoDup (map fst languages) /\
  (forall lang,
     obj_get String.eqb languages lang
     = if includes String.eqb (map fst (included_entries entries)) lang
       then Some (language_bytes entries lang) else None) /\
  total_exact languages = included_bytes entries.
Proof.
  induction entries as [| [lang bytes] entries IH] using rev_ind; cbn zeta.
  - repeat split; try reflexivity. constructor.
  - cbn zeta in IH. destruct IH as (Hkeys & Hnd & Hget & Htot).
    rewrite fold_left_app. cbn [fold_left].
    set (languages := fold_left add_exact entries []) in *.
    rewrite included_entries_app, map_app, included_bytes_app.
    rewrite included_entries_one, included_bytes_one.
    assert (Hlb : forall l, language_bytes (entries ++ [(lang, bytes)]) l
                            = language_bytes entries l + language_bytes [(lang, bytes)] l)
      by (intros l; apply language_bytes_app).
    unfold add_exact.
    destruct (includes String.eqb excludedLanguages lang) eqn:Eex.
    + cbn [map]. rewrite !app_nil_r.
      split; [assumption | split; [assumption | split; [| lia]]].
      intros l. rewrite Hget, Hlb, language_bytes_one, Eex. now rewrite Z.add_0_r.
    + cbn [map fst]. split; [| split; [| split]].
      * rewrite obj_set_keys_order, Hkeys. unfold Set_of.
        rewrite fold_left_app. reflexivity.
      * now apply (obj_set_NoDup String.eqb String.eqb_eq).
      * intros l. rewrite Hlb, language_bytes_one, Eex.
        unfold includes at 1. rewrite existsb_app. cbn [existsb].
        rewrite orb_false_r.
        fold (includes String.eqb (map fst (included_entries entries)) l).
        rewrite (String.eqb_sym l lang).
        destruct (String.eqb lang l) eqn:El.
        -- apply String.eqb_eq in El. subst l.
           rewrite (obj_get_set_same String.eqb String.eqb_eq), orb_true_r.
           f_equal. rewrite Hget.
           destruct (includes String.eqb (map fst (included_entries entries)) lang) eqn:Ein;
             [reflexivity |].
           now rewrite (language_bytes_absent _ _ Ein).
        -- rewrite (obj_get_set_other String.eqb String.eqb_eq)
             by (intros ->; rewrite String.eqb_refl in El; discriminate).
           rewrite Hget, orb_false_r. now rewrite Z.add_0_r.
      * rewrite total_exact_sum, obj_set_sum, <- total_exact_sum, Htot. lia.
Qed.

(** ** The effects of fetching *)

Section EffectFacts.
Variable env : Env.
Variable github : GitHub.

(** One repository: the table grows by the languages returned, stays as it
    is when the request is refused, and the process dies when the body does
    not parse. *)
Lemma fetch_repo_languages_spec (languages : list (string * value)) (repo : Repo)
    (w : World) :
  fetch_repo_languages env github languages repo w
  = (match fst (githubRequest env github repo_languages (languages_path repo) w) with
     | Returned repoLangs => Returned (add_repo_languages languages repoLangs)
     | Died e => Died e
     | _ => Returned languages
     end,
     snd (fetch_repo_languages env github [] repo w)).
Proof.
  unfold fetch_repo_languages, try_catch, bind, githubRequest.
  destruct (repo_languages github (requests w) _) as [data | body | code body | err];
    cbn [fst snd].
  - destruct (0 <? List.length _)%nat; reflexivity.
  - reflexivity.
  - reflexivity.
  - reflexivity.
Qed.

Lemma fetch_languages_outcome (repos : list Repo) :
  forall (languages : list (string * value)) (w : World),
  exists w' : World,
    fetch_languages env github languages repos w
    = (Returned (fold_left add_repo_languages
                   (language_responses env github repos w) languages), w')
    \/ exists e : Error, fetch_languages env github languages repos w = (Died e, w').
Proof.
  induction repos as [| repo repos IH]; intros languages w.
  - exists w. left. reflexivity.
  - cbn [fetch_languages language_responses]. unfold bind at 1 2.
    rewrite fetch_repo_languages_spec.
    destruct (fst (githubRequest env github repo_languages (languages_path repo) w))
      as [repoLangs | e | | e].
    + destruct (IH (add_repo_languages languages repoLangs)
                   (snd (fetch_repo_languages env github [] repo w)))
        as (w' & [E | (e & E)]); exists w'; rewrite E; [left | right; exists e];
        reflexivity.
    + destruct (IH languages (snd (fetch_repo_languages env github [] repo w)))
        as (w' & [E | (e' & E)]); exists w'; rewrite E; [left | right; exists e'];
        reflexivity.
    + destruct (IH languages (snd (fetch_repo_languages env github [] repo w)))
        as (w' & [E | (e' & E)]); exists w'; rewrite E; [left | right; exists e'];
        reflexivity.
    + eexists. right. exists e. reflexivity.
Qed.

Lemma log_lines_returns (lines : list string) (w : World) :
  exists w' : World, log_lines lines w = (Returned tt, w').
Proof.
  revert w. induction lines as [| l lines IH]; intros w.
  - exists w. reflexivity.
  - cbn [log_lines]. unfold bind, console_log.
    apply IH.
Qed.

(** [getLanguageStats] returns the ten first of the ranking of the table
    built from the entries the API returned, unless the process dies. *)
Lemma getLanguageStats_outcome (repos : list Repo) (w : World) :
  exists w' : World,
    getLanguageStats env github repos w
    = (Returned (top_languages
                   (fold_left add_language (language_entries env github repos w) [])),
       w')
    \/ exists e : Error, getLanguageStats env github repos w = (Died e, w').
Proof.
  unfold getLanguageStats, language_entries.
  destruct (fetch_languages_outcome repos [] w) as (w1 & [E1 | (e & E1)]).
  - unfold bind at 1 2. rewrite E1, add_repo_languages_concat.
    set (languages := fold_left add_language _ []).
    unfold bind, console_log.
    match goal with
    | |- context [log_lines ?lines ?w2] =>
        destruct (log_lines_returns lines w2) as (w3 & E3)
    end.
    rewrite E3. exists w3. left. reflexivity.
  - exists w1. right. exists e. unfold bind at 1. now rewrite E1.
Qed.

(** Requests whose answers all parse make nothing die. *)
Lemma githubRequest_parses {A : Type}
    (endpoint : GitHub -> list Request -> Request -> Response A)
    (path : string) (w : World) (e : Error) :
  parses (endpoint github (requests w) (request_options env path)) ->
  fst (githubRequest env github endpoint path w) <> Died e.
Proof.
  unfold githubRequest.
  destruct (endpoint github (requests w) (request_options env path));
    cbn; intros H; [discriminate | contradiction | discriminate | discriminate].
Qed.

Lemma fetch_languages_lives (repos : list Repo) :
  (forall (h : list Request) (r : Request), parses (repo_languages github h r)) ->
  forall (languages : list (string * value)) (w : World) (e : Error),
    fst (fetch_languages env github languages repos w) <> Died e.
Proof.
  intros Hparse. induction repos as [| repo repos IH]; intros languages w e.
  - discriminate.
  - cbn [fetch_languages]. unfold bind at 1. rewrite fetch_repo_languages_spec.
    pose proof (fun e' => githubRequest_parses repo_languages (languages_path repo) w e'
                            (Hparse _ _)) as Hlive.
    destruct (fst (githubRequest env github repo_languages (languages_path repo) w))
      as [repoLangs | e' | | e'].
    + apply IH.
    + apply IH.
    + apply IH.
    + now destruct (Hlive e').
Qed.

Lemma getLanguageStats_spec (repos : list Repo) (w : World) :
  (forall (h : list Request) (r : Request), parses (repo_languages github h r)) ->
  exists w' : World,
    getLanguageStats env github repos w
    = (Returned (top_languages
                   (fold_left add_language (language_entries env github repos w) [])),
       w').
Proof.
  intros Hparse.
  destruct (getLanguageStats_outcome repos w) as (w' & [E | (e & E)]).
  - now exists w'.
  - exfalso. revert E. unfold getLanguageStats. unfold bind at 1.
    pose proof (fetch_languages_lives repos Hparse [] w) as Hlive.
    destruct (fetch_languages env github [] repos w) as [[languages | e' | | e'] w1].
    + unfold bind, console_log.
      match goal with
      | |- context [log_lines ?lines ?w2] =>
          destruct (log_lines_returns lines w2) as (w3 & ->)
      end.
      discriminate.
    + discriminate.
    + discriminate.
    + intros _. now apply (Hlive e').
Qed.
End EffectFacts.

(** ** The order of the percentages *)

Lemma parseFloat_steps_checked :
  forallb (fun t => increasing_step (Z.of_nat t)) (seq 0 1000) = true.
Proof. vm_compute. reflexivity. Qed.

Lemma parseFloat_step (t : Z) : 0 <= t < 1000 -> increasing_step t = true.
Proof.
  intros Ht. pose proof parseFloat_steps_checked as H.
  rewrite forallb_forall in H. specialize (H (Z.to_nat t)).
  rewrite Z2Nat.id in H by lia. apply H, in_seq. lia.
Qed.

Lemma parseFloat_chain (k : nat) :
  forall t : Z, 0 <= t -> t + Z.of_nat k + 1 <= 1000 ->
  exists n d n' d' : Z,
    parseFloat (FDec 1 t) = Finite n d /\
    parseFloat (FDec 1 (t + Z.of_nat k + 1)) = Finite n' d' /\
    0 < d /\ 0 < d' /\ n * d' < n' * d.
Proof.
  induction k as [| k IH]; intros t Ht Hk.
  - pose proof (parseFloat_step t ltac:(lia)) as H. unfold increasing_step in H.
    replace (t + Z.of_nat 0 + 1) with (t + 1) by lia.
    destruct (parseFloat (FDec 1 t)) as [| | n d]; try discriminate.
    destruct (parseFloat (FDec 1 (t + 1))) as [| | n' d']; try discriminate.
    apply andb_prop in H. destruct H as [H H3].
    apply andb_prop in H. destruct H as [H1 H2].
    exists n, d, n', d'. repeat split; lia.
  - destruct (IH t Ht ltac:(lia)) as (n & d & n1 & d1 & E & E1 & Hd & Hd1 & Hlt).
    pose proof (parseFloat_step (t + Z.of_nat k + 1) ltac:(lia)) as H.
    unfold increasing_step in H. rewrite E1 in H.
    replace (t + Z.of_nat (S k) + 1) with (t + Z.of_nat k + 1 + 1) by lia.
    destruct (parseFloat (FDec 1 (t + Z.of_nat k + 1 + 1))) as [| | n' d'];
      try discriminate.
    apply andb_prop in H. destruct H as [H H3].
    apply andb_prop in H. destruct H as [H1 H2].
    exists n, d, n', d'. repeat split; try assumption; try lia.
    apply (mul_lt_cancel_r _ _ d1); [assumption |].
    apply Z.lt_trans with (n1 * d * d').
    + replace (n * d' * d1) with (n * d1 * d') by ring.
      apply Z.mul_lt_mono_pos_r; lia.
    + replace (n' * d * d1) with (n' * d1 * d) by ring.
      replace (n1 * d * d') with (n1 * d' * d) by ring.
      apply Z.mul_lt_mono_pos_r; lia.
Qed.

Lemma parseFloat_order (t t' : Z) :
  0 <= t <= 1000 -> 0 <= t' <= 1000 ->
  fsub_pos (parseFloat (FDec 1 t')) (parseFloat (FDec 1 t)) = (t <? t').
Proof.
  intros Ht Ht'.
  destruct (Z.lt_trichotomy t t') as [Hlt | [<- | Hgt]].
  - destruct (parseFloat_chain (Z.to_nat (t' - t - 1)) t ltac:(lia) ltac:(lia))
      as (n & d & n' & d' & E & E' & Hd & Hd' & H).
    replace (t + Z.of_nat (Z.to_nat (t' - t - 1)) + 1) with t' in E' by lia.
    rewrite E, E'. cbn [fsub_pos].
    destruct (Z.ltb_spec t t'); [| lia]. apply Z.ltb_lt. lia.
  - rewrite Z.ltb_irrefl.
    destruct (parseFloat (FDec 1 t)) as [| | n d]; try reflexivity.
    cbn [fsub_pos]. apply Z.ltb_irrefl.
  - destruct (parseFloat_chain (Z.to_nat (t - t' - 1)) t' ltac:(lia) ltac:(lia))
      as (n & d & n' & d' & E & E' & Hd & Hd' & H).
    replace (t' + Z.of_nat (Z.to_nat (t - t' - 1)) + 1) with t in E' by lia.
    rewrite E, E'. cbn [fsub_pos].
    destruct (Z.ltb_spec t t'); [lia |]. apply Z.ltb_ge. lia.
Qed.

(** ** The report *)

Example replace_streak_region :
  replace_region "<!-- STREAK_START -->" "<!-- STREAK_END -->"
    ("<!-- STREAK_START -->" ++ newline
     ++ streakContent {| current := 3; longest := 7; total := 42 |} ++ newline
     ++ "<!-- STREAK_END -->")
    "# Hi <!-- STREAK_START -->old<!-- STREAK_END --> bye <!-- STREAK_END -->"
  = ("# Hi <!-- STREAK_START -->" ++ newline
     ++ "**Current Streak:** 3 days  " ++ newline
     ++ "**Longest Streak:** 7 days  " ++ newline
     ++ "**Total Active Days:** 42 days" ++ newline
     ++ "<!-- STREAK_END --> bye <!-- STREAK_END -->")%string.
Proof. vm_compute. reflexivity. Qed.

Example replace_stamp_example :
  replace_stamp 100 0 "*Last Updated: NOW*"
    ("*Last Updated: none" ++ newline ++ "x *Last Updated: a * b* c" ++ newline ++ "*")%string
  = ("*Last Updated: none" ++ newline ++ "x *Last Updated: NOW* c" ++ newline ++ "*")%string.
Proof. vm_compute. reflexivity. Qed.

(** ** The ranking of the languages *)

Lemma Zsum_perm (l l' : list Z) : Permutation l l' -> Zsum l = Zsum l'.
Proof.
  induction 1 as [| x l l' _ IH | x y l | l l' l'' _ IH1 _ IH2].
  - reflexivity.
  - change (x + Zsum l = x + Zsum l'). lia.
  - change (y + (x + Zsum l) = x + (y + Zsum l)). lia.
  - lia.
Qed.

Lemma language_bytes_nonneg (entries : list (string * N)) (lang : string) :
  0 <= language_bytes entries lang.
Proof.
  unfold language_bytes. apply Zsum_nonneg, Forall_forall.
  intros b Hb. apply in_map_iff in Hb. destruct Hb as (e & <- & _). lia.
Qed.

(** The entries of the table of a run. *)
Lemma exact_table_entry (entries : list (string * N)) (lang : string) (b : Z) :
  In (lang, b) (fold_left add_exact entries []) ->
  b = language_bytes entries lang /\
  In lang (map fst (included_entries entries)) /\
  0 <= b <= total_exact (fold_left add_exact entries []).
Proof.
  intros Hin.
  destruct (exact_table_spec entries) as (Hkeys & Hnd & Hget & Htot).
  cbv zeta in *. set (languages := fold_left add_exact entries []) in *.
  pose proof (proj1 (obj_get_In String.eqb String.eqb_eq _ _ _ Hnd) Hin) as Hg.
  rewrite Hget in Hg.
  destruct (includes String.eqb (map fst (included_entries entries)) lang) eqn:E;
    [| discriminate].
  injection Hg as <-. split; [reflexivity |].
  split; [now apply (includes_In String.eqb String.eqb_eq) |].
  rewrite total_exact_sum. apply Zsum_bound.
  - apply Forall_forall. intros b Hb. apply in_map_iff in Hb.
    destruct Hb as ([l b'] & <- & Hl). cbn [snd].
    pose proof (proj1 (obj_get_In String.eqb String.eqb_eq _ _ _ Hnd) Hl) as Hg.
    rewrite Hget in Hg.
    destruct (includes String.eqb (map fst (included_entries entries)) l);
      [| discriminate].
    injection Hg as <-. apply language_bytes_nonneg.
  - change (language_bytes entries lang)
      with (snd (lang, language_bytes entries lang)). now apply in_map.
Qed.

Lemma included_not_excluded (entries : list (string * N)) (lang : string) :
  In lang (map fst (included_entries entries)) <->
  In lang (map fst entries) /\ ~ In lang excludedLanguages.
Proof.
  unfold included_entries. rewrite !in_map_iff. split.
  - intros (e & <- & He). apply filter_In in He. destruct He as [He Hn].
    split; [now exists e |].
    apply negb_true_iff in Hn.
    now apply (includes_false String.eqb String.eqb_eq) in Hn.
  - intros [(e & <- & He) Hn]. exists e. split; [reflexivity |].
    apply filter_In. split; [assumption |].
    apply negb_true_iff. now apply (includes_false String.eqb String.eqb_eq).
Qed.

Lemma ranked_exact_perm (languages : list (string * Z)) :
  Permutation (ranked_exact languages)
              (map (to_stat (total_exact languages)) languages).
Proof.
  unfold ranked_exact. rewrite Array_sort_perm.
  apply Permutation_refl'. apply map_ext. now intros [n b].
Qed.

Lemma ranked_exact_names (languages : list (string * Z)) (lang : string) :
  In lang (map name (ranked_exact languages)) <-> In lang (map fst languages).
Proof.
  assert (E : map name (map (to_stat (total_exact languages)) languages)
              = map fst languages).
  { rewrite map_map. apply map_ext. now intros [n b]. }
  rewrite <- E. split; apply Permutation_in, Permutation_map;
    [| symmetry]; apply ranked_exact_perm.
Qed.

Section Ranked.
Variable entries : list (string * N).
Hypothesis total_pos : 0 < included_bytes entries < 2 ^ 53.

Lemma table_total : total_exact (fold_left add_exact entries []) = included_bytes entries.
Proof. apply exact_table_spec. Qed.

Lemma stat_percentage (s : LanguageStat) :
  In s (map (to_stat (included_bytes entries)) (fold_left add_exact entries [])) ->
  exists t : Z,
    percentage s = FDec 1 t /\ 0 <= t <= 1000 /\
    In (name s) (map fst (included_entries entries)) /\
    1000 * language_bytes entries (name s) - included_bytes entries
    < t * included_bytes entries
    < 1000 * language_bytes entries (name s) + included_bytes entries.
Proof.
  intros Hs. apply in_map_iff in Hs. destruct Hs as ([lang b] & <- & Hin).
  destruct (exact_table_entry entries lang b Hin) as (Hb & Hname & Hrange).
  rewrite table_total in Hrange. cbn [to_stat name percentage].
  destruct (percent_of_spec b (included_bytes entries) Hrange total_pos)
    as (t & Et & Ht & Hnear & _).
  exists t. rewrite <- Hb. repeat split; try assumption; lia.
Qed.

Lemma stats_are_percentages :
  Forall is_percentage
    (map (to_stat (included_bytes entries)) (fold_left add_exact entries [])).
Proof.
  apply Forall_forall. intros s Hs.
  destruct (stat_percentage s Hs) as (t & Et & Ht & _). now exists t.
Qed.

Lemma by_percentage_key (a b : LanguageStat) :
  is_percentage a -> is_percentage b ->
  by_percentage a b = (tenths_of a <? tenths_of b).
Proof.
  intros (ta & Ea & Ha) (tb & Eb & Hb).
  unfold by_percentage, tenths_of. rewrite Ea, Eb. cbn [tenths].
  now apply parseFloat_order.
Qed.

Lemma ranked_as_sort :
  ranked_exact (fold_left add_exact entries [])
  = Array_sort by_percentage
      (map (to_stat (included_bytes entries)) (fold_left add_exact entries [])).
Proof.
  unfold ranked_exact. rewrite table_total. reflexivity.
Qed.

Lemma ranked_sorted :
  StronglySorted (desc tenths_of) (ranked_exact (fold_left add_exact entries [])).
Proof.
  rewrite ranked_as_sort.
  apply (Array_sort_sorted_on by_percentage tenths_of is_percentage by_percentage_key).
  apply stats_are_percentages.
Qed.

Lemma ranked_stable (v : Z) :
  filter (fun s => tenths_of s =? v) (ranked_exact (fold_left add_exact entries []))
  = filter (fun s => tenths_of s =? v)
      (map (to_stat (included_bytes entries)) (fold_left add_exact entries [])).
Proof.
  rewrite ranked_as_sort.
  apply (Array_sort_stable_on by_percentage tenths_of is_percentage by_percentage_key).
  apply stats_are_percentages.
Qed.

End Ranked.

(** ** The table of the script and the table of the exact sums *)

(** *** Sums of doubles that are exact *)

Lemma scale_mul (n d e c : Z) :
  scale (n * c) (d * c) e = (fst (scale n d e) * c, snd (scale n d e) * c).
Proof.
  unfold scale. destruct (e <? 0); cbn [fst snd]; f_equal; ring.
Qed.

Lemma rne_mul (n d c : Z) : 0 < d -> 0 < c -> rne (n * c) (d * c) = rne n d.
Proof.
  intros Hd Hc. unfold rne.
  rewrite Z.div_mul_cancel_r by lia.
  rewrite Z.mul_mod_distr_r by lia.
  assert (E : (2 * (n mod d * c) ?= d * c) = (2 * (n mod d) ?= d)).
  { destruct (Z.compare_spec (2 * (n mod d)) d),
             (Z.compare_spec (2 * (n mod d * c)) (d * c)); try reflexivity; nia. }
  now rewrite E.
Qed.

Lemma binade_mul (n d j : Z) :
  0 < n -> 0 < d -> 0 <= j -> binade (n * 2 ^ j) (d * 2 ^ j) = binade n d.
Proof.
  intros Hn Hd Hj. unfold binade.
  rewrite !Z.log2_mul_pow2 by lia.
  replace (j + Z.log2 n - (j + Z.log2 d) - 52) with (Z.log2 n - Z.log2 d - 52) by ring.
  rewrite scale_mul.
  destruct (scale n d (Z.log2 n - Z.log2 d - 52)) as [n' d']. cbn [fst snd].
  assert (Hc : 0 < 2 ^ j) by (apply Z.pow_pos_nonneg; lia).
  replace (n' * 2 ^ j <? 2 ^ 52 * (d' * 2 ^ j)) with (n' <? 2 ^ 52 * d'); [reflexivity |].
  destruct (Z.ltb_spec n' (2 ^ 52 * d')), (Z.ltb_spec (n' * 2 ^ j) (2 ^ 52 * (d' * 2 ^ j)));
    try reflexivity; nia.
Qed.

Lemma scale_snd_pos (n d e : Z) : 0 < d -> 0 < snd (scale n d e).
Proof.
  intros Hd. unfold scale. destruct (Z.ltb_spec e 0); cbn [snd]; [assumption |].
  apply Z.mul_pos_pos; [assumption | apply Z.pow_pos_nonneg; lia].
Qed.

(** The double nearest to a fraction does not depend on how the fraction is
    written. *)
Lemma round53_mul (n d j : Z) :
  0 < n -> 0 < d -> 0 <= j -> round53 (n * 2 ^ j) (d * 2 ^ j) = round53 n d.
Proof.
  intros Hn Hd Hj. unfold round53.
  rewrite binade_mul by assumption. rewrite scale_mul.
  pose proof (scale_snd_pos n d (binade n d) Hd) as Hpos.
  destruct (scale n d (binade n d)) as [n' d']. cbn [fst snd] in *.
  rewrite rne_mul; [reflexivity | assumption | apply Z.pow_pos_nonneg; lia].
Qed.

Lemma of_Z_pow2 (z : Z) :
  0 < z < 2 ^ 53 ->
  exists k : Z, 0 <= k /\ of_Z z = Finite (z * 2 ^ k) (2 ^ k).
Proof.
  intros Hz. unfold of_Z. destruct (Z.eqb_spec z 0) as [? | _]; [lia |].
  assert (Hlog : 0 <= Z.log2 z <= 52).
  { split; [apply Z.log2_nonneg |].
    assert (Z.log2 z < 53) by (apply Z.log2_lt_pow2; lia). lia. }
  destruct (binade_spec z 1 ltac:(lia) ltac:(lia))
    as (n' & d' & Hs & Hd' & Hrange & He & Hval).
  { change (Z.log2 1) with 0. lia. }
  change (Z.log2 1) with 0 in He.
  unfold round53. rewrite Hs.
  set (e := binade z 1) in *.
  destruct (Z.ltb_spec 971 e) as [? | _]; [lia |].
  destruct (Z.eqb_spec e 971) as [? | _]; [lia |]. cbn [orb andb].
  destruct Hval as [(Hneg & -> & ->) | (Hpos & -> & ->)].
  - destruct (Z.ltb_spec e 0) as [_ | ?]; [| lia].
    rewrite rne_exact. exists (- e). split; [lia | reflexivity].
  - destruct (Z.ltb_spec e 0) as [? | _]; [lia |].
    assert (E : e = 0) by lia. rewrite E.
    change (2 ^ 0) with 1. rewrite !Z.mul_1_r, rne_exact.
    exists 0. split; [lia |]. change (2 ^ 0) with 1. now rewrite Z.mul_1_r.
Qed.

(** Integers whose sum is below [2^53] are added exactly. *)
Lemma fadd_of_Z (a b : Z) :
  0 <= a -> 0 <= b -> a + b < 2 ^ 53 -> fadd (of_Z a) (of_Z b) = of_Z (a + b).
Proof.
  intros Ha Hb Hsum.
  assert (Hrep : forall z, 0 <= z < 2 ^ 53 ->
            exists k, 0 <= k /\ of_Z z = Finite (z * 2 ^ k) (2 ^ k)).
  { intros z Hz. destruct (Z.eq_dec z 0) as [-> | Hne].
    - exists 0. split; [lia | reflexivity].
    - apply of_Z_pow2. lia. }
  destruct (Z.eq_dec (a + b) 0) as [E0 | Hne].
  - assert (a = 0) by lia. assert (b = 0) by lia. subst. reflexivity.
  - destruct (Hrep a ltac:(lia)) as (k & Hk & Ea).
    destruct (Hrep b ltac:(lia)) as (l & Hl & Eb).
    assert (Esum : of_Z (a + b) = round53 (a + b) 1).
    { unfold of_Z. destruct (Z.eqb_spec (a + b) 0); [lia | reflexivity]. }
    rewrite Esum, Ea, Eb. unfold fadd.
    assert (Hr : 0 < 2 ^ (k + l)) by (apply Z.pow_pos_nonneg; lia).
    replace (a * 2 ^ k * 2 ^ l + b * 2 ^ l * 2 ^ k) with ((a + b) * 2 ^ (k + l))
      by (rewrite Z.pow_add_r by lia; ring).
    replace (2 ^ k * 2 ^ l) with (1 * 2 ^ (k + l))
      by (rewrite Z.pow_add_r by lia; ring).
    destruct (Z.eqb_spec ((a + b) * 2 ^ (k + l)) 0) as [E0 | _]; [nia |].
    apply round53_mul; lia.
Qed.

Example fadd_agrees_with_binary64 :
  forallb (fun '(x, y) => number_eqb (binary64_sum x y) (fadd (of_Z x) (of_Z y)))
    [(0, 0); (1, 2); (9007199254740991, 1); (9007199254740992, 1);
     (9007199254740993, 2); (9007199254740992, 3); (4611686018427387904, 1025);
     (123456789012345678, 987654321098765432); (18014398509481985, 7)] = true.
Proof. vm_compute. reflexivity. Qed.

Lemma truthy_of_Z (z : Z) :
  0 <= z < 2 ^ 53 ->
  (if truthy (of_Z z) then Num (of_Z z) else Num zero) = Num (of_Z z).
Proof.
  intros Hz. destruct (Z.eq_dec z 0) as [-> | Hne]; [reflexivity |].
  destruct (of_Z_pow2 z ltac:(lia)) as (k & Hk & E). rewrite E.
  cbn [truthy].
  assert (0 < 2 ^ k) by (apply Z.pow_pos_nonneg; lia).
  destruct (Z.eqb_spec (z * 2 ^ k) 0) as [E0 | _]; [nia | reflexivity].
Qed.

(** *** Plain names *)

Lemma plain_name_spec (name : string) :
  plain_name name = true ->
  is_index name = false /\
  includes String.eqb Object_prototype_names name = false /\
  String.eqb name "__proto__" = false.
Proof.
  unfold plain_name. intros H. apply andb_prop in H. destruct H as [Hi Hp].
  apply negb_true_iff in Hi, Hp. split; [exact Hi |]. split; [exact Hp |].
  destruct (String.eqb_spec name "__proto__") as [-> | _]; [| reflexivity].
  discriminate Hp.
Qed.

Lemma Object_entries_named_plain {V : Type} (o : list (string * V)) :
  Forall (fun e => is_index (fst e) = false) o -> Object_entries_named o = o.
Proof.
  intros H. unfold Object_entries_named.
  assert (E : filter (fun e => is_index (fst e)) o = []
              /\ filter (fun e => negb (is_index (fst e))) o = o).
  { induction H as [| e o He _ [IH1 IH2]]; cbn [filter]; [now split |].
    rewrite He. cbn [negb]. now rewrite IH2. }
  destruct E as [-> ->]. reflexivity.
Qed.

(** *** The table *)

Lemma obj_get_as_value (T : list (string * Z)) (lang : string) :
  obj_get String.eqb (map as_value T) lang
  = option_map (fun b => Num (of_Z b)) (obj_get String.eqb T lang).
Proof.
  induction T as [| [k b] T IH]; [reflexivity |].
  cbn [map as_value fst snd obj_get]. destruct (String.eqb k lang); [reflexivity | exact IH].
Qed.

Lemma obj_set_as_value (T : list (string * Z)) (lang : string) (v : Z) :
  obj_set String.eqb (map as_value T) lang (Num (of_Z v))
  = map as_value (obj_set String.eqb T lang v).
Proof.
  induction T as [| [k b] T IH]; [reflexivity |].
  cbn [map as_value fst snd obj_set].
  destruct (String.eqb k lang); cbn [map as_value fst snd]; [reflexivity |].
  now rewrite IH.
Qed.

Lemma obj_get_In_value (T : list (string * Z)) (lang : string) (b : Z) :
  obj_get String.eqb T lang = Some b -> In (lang, b) T.
Proof.
  induction T as [| [k v] T IH]; cbn [obj_get]; [discriminate |].
  destruct (String.eqb_spec k lang) as [-> | _].
  - intros H. injection H as ->. now left.
  - intros H. right. now apply IH.
Qed.

(** One entry with a plain name, added to a table of exact sums. *)
Lemma add_language_as_value (T : list (string * Z)) (entry : string * N) :
  plain_name (fst entry) = true ->
  Forall (fun x => 0 <= snd x < 2 ^ 53) T ->
  (includes String.eqb excludedLanguages (fst entry) = false ->
   match obj_get String.eqb T (fst entry) with Some b => b | None => 0 end
   + Z.of_N (snd entry) < 2 ^ 53) ->
  add_language (map as_value T) entry = map as_value (add_exact T entry).
Proof.
  destruct entry as [lang bytes]. cbn [fst snd]. intros Hplain Hrange Hsum.
  destruct (plain_name_spec lang Hplain) as (_ & Hproto & Hne).
  unfold add_language, add_exact.
  destruct (includes String.eqb excludedLanguages lang); [reflexivity |].
  specialize (Hsum eq_refl).
  rewrite Hne. unfold get_or_zero. rewrite obj_get_as_value, Hproto.
  destruct (obj_get String.eqb T lang) as [b |] eqn:Eget; cbn [option_map].
  - apply obj_get_In_value in Eget. rewrite Forall_forall in Hrange.
    specialize (Hrange _ Eget). cbn [snd] in Hrange.
    rewrite (truthy_of_Z b Hrange). cbn [js_add].
    rewrite fadd_of_Z by lia. apply obj_set_as_value.
  - cbn [js_add]. change zero with (of_Z 0).
    rewrite fadd_of_Z by lia. apply obj_set_as_value.
Qed.

Lemma Zsum_filter_le {A : Type} (f : A -> Z) (p : A -> bool) (l : list A) :
  (forall x, 0 <= f x) -> 0 <= Zsum (map f (filter p l)) <= Zsum (map f l).
Proof.
  intros Hf. induction l as [| x l IH]; [cbn; lia |].
  cbn [filter map]. unfold Zsum in *.
  destruct (p x); cbn [map fold_right]; specialize (Hf x); lia.
Qed.

Lemma language_bytes_le (entries : list (string * N)) (lang : string) :
  0 <= language_bytes entries lang <= included_bytes entries.
Proof.
  unfold language_bytes, included_bytes.
  apply (Zsum_filter_le (fun e : string * N => Z.of_N (snd e))). intros x. lia.
Qed.

(** For languages with plain names whose bytes sum to less than 2^53, the
    table of the script holds the exact sums. *)
Lemma languages_as_exact (entries : list (string * N)) :
  Forall (fun e => plain_name (fst e) = true) entries ->
  included_bytes entries < 2 ^ 53 ->
  fold_left add_language entries [] = map as_value (fold_left add_exact entries []).
Proof.
  induction entries as [| entry entries IH] using rev_ind; intros Hplain Hbound.
  - reflexivity.
  - apply Forall_app in Hplain. destruct Hplain as [Hplain Hentry].
    inversion Hentry as [| ? ? Hp _]; subst.
    rewrite included_bytes_app in Hbound.
    assert (Hlast : 0 <= included_bytes [entry]).
    { unfold included_bytes. apply Zsum_nonneg.
      apply Forall_forall. intros b Hb. apply in_map_iff in Hb.
      destruct Hb as (e & <- & _). lia. }
    rewrite !fold_left_app. cbn [fold_left]. rewrite IH by (assumption || lia).
    apply add_language_as_value; [assumption | |].
    + apply Forall_forall. intros [lang b] Hin. cbn [snd].
      destruct (exact_table_entry entries lang b Hin) as (_ & _ & Hb).
      rewrite (proj2 (proj2 (proj2 (exact_table_spec entries)))) in Hb. lia.
    + destruct entry as [lang bytes]. cbn [fst snd]. intros Eex.
      destruct (exact_table_spec entries) as (_ & _ & Hget & _). cbv zeta in Hget.
      rewrite Hget.
      pose proof (language_bytes_le entries lang) as Hle.
      rewrite included_bytes_one, Eex in Hbound.
      destruct (includes String.eqb (map fst (included_entries entries)) lang); lia.
Qed.

Lemma exact_table_keys_plain (entries : list (string * N)) :
  Forall (fun e => plain_name (fst e) = true) entries ->
  Forall (fun x => is_index (fst x) = false) (fold_left add_exact entries []).
Proof.
  intros Hplain. apply Forall_forall. intros [lang b] Hin. cbn [fst].
  destruct (exact_table_entry entries lang b Hin) as (_ & Hname & _).
  apply included_not_excluded in Hname. destruct Hname as [Hname _].
  apply in_map_iff in Hname. destruct Hname as (e & <- & He).
  rewrite Forall_forall in Hplain. now apply plain_name_spec, Hplain.
Qed.

Lemma fold_js_add_exact (l : list Z) :
  Forall (fun b => 0 <= b) l ->
  forall acc : Z, 0 <= acc -> acc + Zsum l < 2 ^ 53 ->
    fold_left js_add (map (fun b => Num (of_Z b)) l) (Num (of_Z acc))
    = Num (of_Z (acc + Zsum l)).
Proof.
  induction 1 as [| b l Hb Hl IH]; intros acc Hacc Hsum.
  - cbn. now rewrite Z.add_0_r.
  - change (Zsum (b :: l)) with (b + Zsum l) in *.
    pose proof (Zsum_nonneg l Hl).
    cbn [map fold_left js_add]. rewrite fadd_of_Z by lia.
    rewrite IH by lia. f_equal. f_equal. lia.
Qed.

Lemma as_value_keys_plain (T : list (string * Z)) :
  Forall (fun x => is_index (fst x) = false) T ->
  Object_entries_named (map as_value T) = map as_value T.
Proof.
  intros H. apply Object_entries_named_plain.
  apply Forall_forall. intros x Hx. apply in_map_iff in Hx.
  destruct Hx as (e & <- & He). rewrite Forall_forall in H. now apply H.
Qed.

(** Under the same conditions the statistics of the script, and their
    ranking, are those of the exact sums. *)
Lemma stats_as_exact (entries : list (string * N)) :
  Forall (fun e => plain_name (fst e) = true) entries ->
  included_bytes entries < 2 ^ 53 ->
  language_stats (fold_left add_language entries [])
  = map (to_stat (total_exact (fold_left add_exact entries [])))
        (fold_left add_exact entries []).
Proof.
  intros Hplain Hbound. rewrite (languages_as_exact entries Hplain Hbound).
  set (T := fold_left add_exact entries []).
  pose proof (exact_table_keys_plain entries Hplain) as Hkeys. fold T in Hkeys.
  assert (Hnn : Forall (fun b => 0 <= b) (map snd T)).
  { apply Forall_forall. intros b Hb. apply in_map_iff in Hb.
    destruct Hb as ([lang b'] & <- & Hin).
    now destruct (exact_table_entry entries lang b' Hin) as (_ & _ & ? & _). }
  assert (Htotal : total_bytes (map as_value T) = Num (of_Z (total_exact T))).
  { unfold total_bytes. rewrite (as_value_keys_plain T Hkeys).
    replace (map snd (map as_value T)) with (map (fun b => Num (of_Z b)) (map snd T))
      by (rewrite !map_map; reflexivity).
    change zero with (of_Z 0).
    rewrite (fold_js_add_exact (map snd T) Hnn 0 ltac:(lia)).
    - now rewrite total_exact_sum.
    - rewrite <- total_exact_sum. unfold T. rewrite table_total. lia. }
  unfold language_stats.
  rewrite Htotal, (as_value_keys_plain T Hkeys), map_map.
  apply map_ext. now intros [lang b].
Qed.

Lemma ranked_as_exact (entries : list (string * N)) :
  Forall (fun e => plain_name (fst e) = true) entries ->
  included_bytes entries < 2 ^ 53 ->
  ranked_languages (fold_left add_language entries [])
  = ranked_exact (fold_left add_exact entries []).
Proof.
  intros Hplain Hbound. unfold ranked_languages, ranked_exact.
  rewrite (stats_as_exact entries Hplain Hbound). reflexivity.
Qed.
(** ** The table of the script, whatever the names *)

Lemma Object_entries_named_perm {V : Type} (o : list (string * V)) :
  Permutation (Object_entries_named o) o.
Proof.
  unfold Object_entries_named. rewrite Array_sort_perm.
  apply (filter_partition_perm (fun e => is_index (fst e))).
Qed.

Lemma Object_entries_named_keys {V : Type} (o : list (string * V)) (k : string) :
  In k (map fst (Object_entries_named o)) <-> In k (map fst o).
Proof.
  split; apply Permutation_in, Permutation_map; [| symmetry];
    apply Object_entries_named_perm.
Qed.

Lemma Object_entries_named_length {V : Type} (o : list (string * V)) :
  List.length (Object_entries_named o) = List.length o.
Proof. apply Permutation_length, Object_entries_named_perm. Qed.

(** A step of the loop adds at most the name of its entry, and only when the
    name is not excluded; it removes no name; and it adds every name that is
    neither excluded nor ['__proto__']. *)
Lemma add_language_keys (languages : list (string * value)) (entry : string * N)
    (k : string) :
  In k (map fst (add_language languages entry)) ->
  In k (map fst languages) \/
  (k = fst entry /\ ~ In k excludedLanguages /\ k <> "__proto__").
Proof.
  destruct entry as [lang bytes]. unfold add_language. cbn [fst].
  destruct (includes String.eqb excludedLanguages lang) eqn:Eex; [now left |].
  destruct (String.eqb lang "__proto__") eqn:Ep; [now left |].
  intros H. apply (obj_set_keys String.eqb String.eqb_eq) in H.
  destruct H as [H | ->]; [now left | right].
  split; [reflexivity |]. split.
  - now apply (includes_false String.eqb String.eqb_eq).
  - now apply String.eqb_neq.
Qed.

Lemma add_language_keeps (languages : list (string * value)) (entry : string * N)
    (k : string) :
  In k (map fst languages) -> In k (map fst (add_language languages entry)).
Proof.
  destruct entry as [lang bytes]. unfold add_language.
  destruct (includes String.eqb excludedLanguages lang); [trivial |].
  destruct (String.eqb lang "__proto__"); [trivial |].
  intros H. apply (obj_set_keys String.eqb String.eqb_eq). now left.
Qed.

Lemma add_language_adds (languages : list (string * value)) (lang : string)
    (bytes : N) :
  ~ In lang excludedLanguages -> lang <> "__proto__" ->
  In lang (map fst (add_language languages (lang, bytes))).
Proof.
  intros Hex Hp. unfold add_language.
  apply (includes_false String.eqb String.eqb_eq) in Hex. rewrite Hex.
  apply String.eqb_neq in Hp. rewrite Hp.
  apply (obj_set_keys String.eqb String.eqb_eq). now right.
Qed.

Lemma add_language_NoDup (languages : list (string * value)) (entry : string * N) :
  NoDup (map fst languages) -> NoDup (map fst (add_language languages entry)).
Proof.
  destruct entry as [lang bytes]. unfold add_language.
  destruct (includes String.eqb excludedLanguages lang); [trivial |].
  destruct (String.eqb lang "__proto__"); [trivial |].
  apply (obj_set_NoDup String.eqb String.eqb_eq).
Qed.

(** The names of the table: those of the entries that are neither excluded
    nor ['__proto__'], each once. *)
Lemma table_keys (entries : list (string * N)) (k : string) :
  In k (map fst (fold_left add_language entries [])) <->
  In k (map fst entries) /\ ~ In k excludedLanguages /\ k <> "__proto__".
Proof.
  induction entries as [| entry entries IH] using rev_ind.
  - cbn. tauto.
  - rewrite fold_left_app, map_app, in_app_iff. cbn [fold_left map In]. split.
    + intros H. apply add_language_keys in H. destruct H as [H | (-> & H)].
      * apply IH in H. tauto.
      * tauto.
    + intros ([H | [<- | []]] & Hex & Hp).
      * apply add_language_keeps, IH. tauto.
      * destruct entry as [lang bytes]. now apply add_language_adds.
Qed.

Lemma table_NoDup (entries : list (string * N)) :
  NoDup (map fst (fold_left add_language entries [])).
Proof.
  induction entries as [| entry entries IH] using rev_ind.
  - constructor.
  - rewrite fold_left_app. cbn [fold_left]. now apply add_language_NoDup.
Qed.

Lemma language_stats_names (languages : list (string * value)) :
  map name (language_stats languages) = map fst (Object_entries_named languages).
Proof.
  unfold language_stats. rewrite map_map. apply map_ext. now intros [n b].
Qed.

Lemma ranked_languages_perm (languages : list (string * value)) :
  Permutation (ranked_languages languages) (language_stats languages).
Proof. apply Array_sort_perm. Qed.

Lemma ranked_languages_names (languages : list (string * value)) (lang : string) :
  In lang (map name (ranked_languages languages)) <-> In lang (map fst languages).
Proof.
  rewrite <- Object_entries_named_keys, <- language_stats_names.
  split; apply Permutation_in, Permutation_map; [| symmetry];
    apply ranked_languages_perm.
Qed.

Lemma ranked_languages_length (languages : list (string * value)) :
  List.length (ranked_languages languages) = List.length languages.
Proof.
  rewrite (Permutation_length (ranked_languages_perm languages)).
  unfold language_stats. now rewrite length_map, Object_entries_named_length.
Qed.

(** *** A table without bytes *)

Lemma obj_set_Forall {V : Type} (P : V -> Prop) (o : list (string * V))
    (k : string) (v : V) :
  Forall (fun x => P (snd x)) o -> P v ->
  Forall (fun x => P (snd x)) (obj_set String.eqb o k v).
Proof.
  intros Ho Hv. induction Ho as [| [k0 v0] o H0 Ho IH]; cbn [obj_set].
  - now repeat constructor.
  - destruct (String.eqb k0 k); constructor; assumption.
Qed.

Lemma get_or_zero_no_bytes (languages : list (string * value)) (lang : string) :
  Forall (fun x => no_bytes (snd x)) languages ->
  no_bytes (get_or_zero languages lang).
Proof.
  intros H. unfold get_or_zero.
  destruct (obj_get String.eqb languages lang) as [[x |] |] eqn:E.
  - destruct (truthy x); [| now left].
    assert (Hin : In (Num x) (map snd languages)).
    { clear H. induction languages as [| [k0 v0] o IH]; [discriminate |].
      cbn [obj_get] in E. destruct (String.eqb k0 lang).
      - injection E as ->. now left.
      - right. now apply IH. }
    apply in_map_iff in Hin. destruct Hin as (e & He & Hin).
    rewrite Forall_forall in H. specialize (H e Hin). now rewrite He in H.
  - now right.
  - destruct (includes String.eqb Object_prototype_names lang); [now right | now left].
Qed.

Lemma add_language_no_bytes (languages : list (string * value)) (entry : string * N) :
  (~ In (fst entry) excludedLanguages -> snd entry = 0%N) ->
  Forall (fun x => no_bytes (snd x)) languages ->
  Forall (fun x => no_bytes (snd x)) (add_language languages entry).
Proof.
  destruct entry as [lang bytes]. cbn [fst snd]. intros Hzero H.
  unfold add_language.
  destruct (includes String.eqb excludedLanguages lang) eqn:Eex; [assumption |].
  destruct (String.eqb lang "__proto__"); [assumption |].
  apply obj_set_Forall; [assumption |].
  rewrite Hzero by now apply (includes_false String.eqb String.eqb_eq).
  destruct (get_or_zero_no_bytes languages lang H) as [-> | ->];
    [left | right]; reflexivity.
Qed.

Lemma included_bytes_zero (entries : list (string * N)) :
  included_bytes entries = 0 ->
  Forall (fun e => ~ In (fst e) excludedLanguages -> snd e = 0%N) entries.
Proof.
  unfold included_bytes, included_entries.
  induction entries as [| [lang bytes] entries IH]; intros H; [constructor |].
  cbn [filter fst] in H.
  assert (Hnn : 0 <= Zsum (map (fun e : string * N => Z.of_N (snd e))
                   (filter (fun e => negb (includes String.eqb excludedLanguages (fst e)))
                           entries))).
  { apply Zsum_nonneg, Forall_forall. intros b Hb. apply in_map_iff in Hb.
    destruct Hb as (e & <- & _). lia. }
  destruct (includes String.eqb excludedLanguages lang) eqn:Eex; cbn [negb map snd] in H.
  - constructor; [| now apply IH].
    cbn [fst snd]. intros Hn.
    apply (includes_false String.eqb String.eqb_eq) in Hn. congruence.
  - change (Zsum (?x :: ?l)) with (x + Zsum l) in H.
    constructor; [cbn [fst snd]; lia | apply IH; lia].
Qed.

Lemma table_no_bytes (entries : list (string * N)) :
  included_bytes entries = 0 ->
  Forall (fun x => no_bytes (snd x)) (fold_left add_language entries []).
Proof.
  intros H. apply included_bytes_zero in H.
  induction entries as [| entry entries IH] using rev_ind; [constructor |].
  apply Forall_app in H. destruct H as [H Hentry].
  rewrite fold_left_app. cbn [fold_left].
  apply add_language_no_bytes; [now inversion Hentry | now apply IH].
Qed.

Lemma total_no_bytes (languages : list (string * value)) :
  Forall (fun x => no_bytes (snd x)) languages -> no_bytes (total_bytes languages).
Proof.
  intros H. unfold total_bytes.
  assert (Hv : Forall no_bytes (map snd (Object_entries_named languages))).
  { apply Forall_forall. intros v Hv. apply in_map_iff in Hv.
    destruct Hv as (e & <- & He).
    apply (Permutation_in _ (Object_entries_named_perm languages)) in He.
    rewrite Forall_forall in H. now apply H. }
  assert (Hacc : no_bytes (Num zero)) by now left.
  revert Hacc. generalize (Num zero).
  induction Hv as [| v l Hv _ IH]; intros acc Hacc; [exact Hacc |].
  cbn [fold_left]. apply IH.
  destruct Hacc as [-> | ->], Hv as [-> | ->]; [left | right | right | right];
    reflexivity.
Qed.

Lemma percentage_no_bytes (bytes total : value) :
  no_bytes bytes -> no_bytes total -> percentage_of bytes total = FNaN.
Proof. intros [-> | ->] [-> | ->]; reflexivity. Qed.

(** Statistics that are all 'NaN' stay in their order: the comparator
    returns [NaN] for every pair. *)
Lemma sort_all_NaN (l : list LanguageStat) :
  Forall (fun s => percentage s = FNaN) l -> Array_sort by_percentage l = l.
Proof.
  induction 1 as [| s l Hs Hl IH]; [reflexivity |].
  cbn [Array_sort fold_right] in *. unfold Array_sort in IH. rewrite IH.
  destruct l as [| s' l']; [reflexivity |].
  cbn [sort_insert]. unfold by_percentage. rewrite Hs.
  inversion Hl as [| ? ? Hs' _]; subst. rewrite Hs'. reflexivity.
Qed.

(** Without bytes, the statistics returned are the ten first languages of
    the table, each with 'NaN'. *)
Lemma top_languages_no_bytes (entries : list (string * N)) :
  included_bytes entries = 0 ->
  top_languages (fold_left add_language entries [])
  = map (fun lang => {| name := lang; percentage := FNaN |})
        (firstn 10 (map fst (Object_entries_named (fold_left add_language entries [])))).
Proof.
  intros H. pose proof (table_no_bytes entries H) as Ht.
  set (languages := fold_left add_language entries []) in *.
  pose proof (total_no_bytes languages Ht) as Htotal.
  assert (E : language_stats languages
              = map (fun lang => {| name := lang; percentage := FNaN |})
                    (map fst (Object_entries_named languages))).
  { unfold language_stats. rewrite map_map. apply map_ext_in.
    intros [lang b] Hin.
    apply (Permutation_in _ (Object_entries_named_perm languages)) in Hin.
    rewrite Forall_forall in Ht. specialize (Ht _ Hin). cbn [snd fst] in *.
    now rewrite percentage_no_bytes. }
  unfold top_languages, ranked_languages. rewrite sort_all_NaN.
  - now rewrite E, firstn_map.
  - rewrite E. apply Forall_forall. intros s Hs. apply in_map_iff in Hs.
    now destruct Hs as (lang & <- & _).
Qed.

(** ** The claims about getLanguageStats *)

Lemma firstn_incl {A : Type} (n : nat) (l : list A) (x : A) :
  In x (firstn n l) -> In x l.
Proof.
  intros H. rewrite <- (firstn_skipn n l). apply in_or_app. now left.
Qed.

Lemma StronglySorted_firstn {A : Type} (R : A -> A -> Prop) (n : nat) (l : list A) :
  StronglySorted R l -> StronglySorted R (firstn n l).
Proof.
  intros H. revert n. induction H as [| x l Hs IH Hall]; intros [| n]; cbn;
    try constructor.
  - apply IH.
  - rewrite Forall_forall in *. intros y Hy. apply Hall.
    eapply firstn_incl; eassumption.
Qed.

Lemma map_option_Forall2 {A B : Type} (f : A -> option B) (l : list A) (l' : list B) :
  map_option f l = Some l' -> Forall2 (fun x y => f x = Some y) l l'.
Proof.
  revert l'. induction l as [| x l IH]; intros l' H; cbn in H.
  - injection H as <-. constructor.
  - destruct (f x) as [y |] eqn:E; [| discriminate].
    destruct (map_option f l) as [ys |]; [| discriminate].
    injection H as <-. constructor; [assumption | now apply IH].
Qed.

(** The table of a run holds no excluded language. *)
Lemma stats_not_excluded (env : Env) (github : GitHub) (repos : list Repo)
    (w : World) (s : LanguageStat) :
  In s (ranked_languages (languages_table env github repos w)) ->
  ~ In (name s) excludedLanguages.
Proof.
  intros Hs. unfold languages_table in Hs.
  assert (Hn : In (name s) (map name (ranked_languages
            (fold_left add_language (language_entries env github repos w) []))))
    by now apply in_map.
  apply ranked_languages_names, table_keys in Hn. tauto.
Qed.

(** A language named like a property that objects inherit turns the sums
    into strings: every percentage is then 'NaN', whatever the bytes; and
    ['__proto__'] is not stored at all. *)
Example inherited_name_makes_NaN :
  exists stats stats' : list LanguageStat,
    fst (getLanguageStats example_env
           (example_github [("constructor", 10%N); ("Go", 30%N)])
           [example_repo "site"] example_world)
    = Returned stats /\
    map (fun s => (name s, fixed_text (percentage s))) stats
    = [("constructor", "NaN"); ("Go", "NaN")] /\
    fst (getLanguageStats example_env
           (example_github [("__proto__", 5%N); ("Go", 30%N)])
           [example_repo "site"] example_world)
    = Returned stats' /\
    map (fun s => (name s, fixed_text (percentage s))) stats'
    = [("Go", "100.0")].
Proof.
  eexists. eexists. split; [vm_compute; reflexivity |].
  split; [vm_compute; reflexivity |]. split; vm_compute; reflexivity.
Qed.

(** A language named by an array index comes first in [Object.entries],
    whenever it was met. *)
Example index_name_comes_first :
  exists stats : list LanguageStat,
    fst (getLanguageStats example_env
           (example_github [("Go", 1%N); ("C", 1%N); ("1", 1%N)])
           [example_repo "site"] example_world)
    = Returned stats /\
    map (fun s => (name s, fixed_text (percentage s))) stats
    = [("1", "33.3"); ("Go", "33.3"); ("C", "33.3")].
Proof. eexists. split; vm_compute; reflexivity. Qed.




(** C6, as the script has it.  [getLanguageStats] returns at most 10
    languages, the first ten of the ranking.  Let the answers about languages
    parse and the languages have plain names, none an array index and none a
    property that objects inherit: when the bytes of the languages that are
    not excluded are positive (and below 2^53), the ranking is sorted by
    percentage, largest first, and languages of equal percentage keep the
    order of the table [languages], which is the order in which the languages
    were first met in the responses, not the order of their bytes. *)
Theorem C6_top_ten_sorted_stable_in_first_seen_order (env : Env) (github : GitHub)
    (repos : list Repo) (w : World) :
  languages_parse github ->
  plain_names (language_entries env github repos w) ->
  0 < included_bytes (language_entries env github repos w) < 2 ^ 53 ->
  exists (stats : list LanguageStat) (w' : World),
    getLanguageStats env github repos w = (Returned stats, w') /\
    (List.length stats <= 10)%nat /\
    stats = firstn 10 (ranked_languages (languages_table env github repos w)) /\
    StronglySorted (fun a b => tenths_of b <= tenths_of a) stats /\
    StronglySorted (fun a b => tenths_of b <= tenths_of a)
      (ranked_languages (languages_table env github repos w)) /\
    (forall v : Z,
       map name (filter (fun s => tenths_of s =? v)
                        (ranked_languages (languages_table env github repos w)))
       = map name (filter (fun s => tenths_of s =? v)
                          (language_stats (languages_table env github repos w)))) /\
    map name (language_stats (languages_table env github repos w))
    = Set_of String.eqb
        (map fst (included_entries (language_entries env github repos w))).
Proof.
  intros Hparse Hplain Htotal.
  destruct (getLanguageStats_spec env github repos w Hparse) as (w' & E).
  exists (firstn 10 (ranked_languages (languages_table env github repos w))), w'.
  split; [exact E |]. unfold languages_table.
  set (entries := language_entries env github repos w) in *.
  rewrite (ranked_as_exact entries Hplain (proj2 Htotal)).
  rewrite (stats_as_exact entries Hplain (proj2 Htotal)), (table_total entries).
  pose proof (ranked_sorted entries Htotal) as Hs.
  split; [apply firstn_le_length |]. split; [reflexivity |].
  split; [now apply StronglySorted_firstn |]. split; [exact Hs |].
  split.
  - intros v. now rewrite (ranked_stable entries Htotal).
  - rewrite map_map.
    destruct (exact_table_spec entries) as (Hkeys & _). cbv zeta in Hkeys.
    rewrite <- Hkeys. apply map_ext. now intros [n b].
Qed.

(** C6 as stated fails: Shell (1000 bytes) and Makefile (1001 bytes) both
    have 0.1 percent, and Shell, met first, comes before Makefile, which has
    more bytes. *)
Lemma C6_counterexample_tie_not_by_bytes :
  exists stats : list LanguageStat,
    fst (getLanguageStats example_env
           (example_github [("Shell", 1000%N); ("Makefile", 1001%N); ("Go", 1000000%N)])
           [example_repo "site"] example_world)
    = Returned stats /\
    map (fun s => (name s, fixed_text (percentage s))) stats
    = [("Go", "99.8"); ("Shell", "0.1"); ("Makefile", "0.1")] /\
    language_bytes [("Shell", 1000%N); ("Makefile", 1001%N); ("Go", 1000000%N)] "Shell"
    < language_bytes [("Shell", 1000%N); ("Makefile", 1001%N); ("Go", 1000000%N)] "Makefile".
Proof.
  eexists. split; [vm_compute; reflexivity |].
  split; vm_compute; reflexivity.
Qed.

(** An instance of C6: the three languages above. *)
Lemma C6_witness :
  exists (stats : list LanguageStat) (w' : World),
    getLanguageStats example_env
      (example_github [("Shell", 1000%N); ("Makefile", 1001%N); ("Go", 1000000%N)])
      [example_repo "site"] example_world
    = (Returned stats, w') /\
    (List.length stats <= 10)%nat.
Proof.
  refine (match C6_top_ten_sorted_stable_in_first_seen_order example_env
                  (example_github [("Shell", 1000%N); ("Makefile", 1001%N); ("Go", 1000000%N)])
                  [example_repo "site"] example_world _ _ _ with
          | ex_intro _ stats (ex_intro _ w' (conj E (conj H _))) =>
              ex_intro _ stats (ex_intro _ w' (conj E H))
          end).
  - intros h r. exact I.
  - repeat constructor.
  - split; reflexivity.
Defined.

(** C7.  A language whose name is one of the three literals of the exclusion
    list, 'Open Policy Agent', 'SCSS' and 'Scss', is in no statistic that
    [getLanguageStats] returns (nor in the ranking before the cut to ten),
    whatever its bytes and whatever the other names, and every line of the
    rendered fragment is the line of a statistic whose name is not excluded.
    The match is exact: 'scss' is not in the list, and a language that is not
    in the list and occurs in a response is in the ranking, and in the
    statistics returned when there are at most ten languages; the one other
    name that is never reported is '__proto__', which the object does not
    store.  The statistics are those of a run in which the answers about
    languages parse. *)
Theorem C7_excluded_languages_never_reported (env : Env) (github : GitHub)
    (repos : list Repo) (w : World) :
  languages_parse github ->
  exists (stats : list LanguageStat) (w' : World),
    getLanguageStats env github repos w = (Returned stats, w') /\
    (forall s, In s stats -> ~ In (name s) excludedLanguages) /\
    (forall s, In s (ranked_languages (languages_table env github repos w)) ->
               ~ In (name s) excludedLanguages) /\
    (forall text, languagesContent stats = Some text ->
       exists lines : list string,
         text = join_lines lines /\
         Forall2 (fun s line =>
                    language_line s = Some line /\ ~ In (name s) excludedLanguages)
                 stats lines) /\
    excludedLanguages = ["Open Policy Agent"; "SCSS"; "Scss"] /\
    ~ In "scss" excludedLanguages /\
    (forall lang,
       ~ In lang excludedLanguages -> lang <> "__proto__" ->
       In lang (map fst (language_entries env github repos w)) ->
       In lang (map name (ranked_languages (languages_table env github repos w))) /\
       ((List.length (languages_table env github repos w) <= 10)%nat ->
        In lang (map name stats))) /\
    ~ In "__proto__" (map name (ranked_languages (languages_table env github repos w))).
Proof.
  intros Hparse.
  destruct (getLanguageStats_spec env github repos w Hparse) as (w' & E).
  exists (firstn 10 (ranked_languages (languages_table env github repos w))), w'.
  split; [exact E |].
  assert (Hstats : forall s,
            In s (firstn 10 (ranked_languages (languages_table env github repos w))) ->
            ~ In (name s) excludedLanguages).
  { intros s Hs. apply (stats_not_excluded env github repos w).
    eapply firstn_incl; eassumption. }
  split; [exact Hstats |].
  split; [apply stats_not_excluded |].
  split; [| split; [reflexivity | split; [| split]]].
  - intros text Htext. unfold languagesContent in Htext.
    destruct (map_option language_line
                (firstn 10 (ranked_languages (languages_table env github repos w))))
      as [lines |] eqn:El; [| discriminate].
    injection Htext as <-. exists lines. split; [reflexivity |].
    apply map_option_Forall2 in El.
    revert Hstats. induction El as [| s line l l' Hline _ IH]; intros Hstats.
    + constructor.
    + constructor.
      * split; [assumption | apply Hstats; now left].
      * apply IH. intros s' Hs'. apply Hstats. now right.
  - cbn. intros [H | [H | [H | []]]]; discriminate.
  - intros lang Hex Hproto Hin.
    assert (Hr : In lang (map name (ranked_languages (languages_table env github repos w)))).
    { apply ranked_languages_names. unfold languages_table. apply table_keys. tauto. }
    split; [exact Hr |].
    intros Hlen. rewrite firstn_all2; [exact Hr |].
    now rewrite ranked_languages_length.
  - intros H. apply ranked_languages_names in H. unfold languages_table in H.
    apply table_keys in H. tauto.
Qed.

(** An instance of C7: a run over two repositories. *)
Lemma C7_witness :
  exists (stats : list LanguageStat) (w' : World),
    getLanguageStats example_env
      (example_github [("SCSS", 900000%N); ("Go", 70%N); ("scss", 20%N)])
      [example_repo "site"; example_repo "blog"] example_world
    = (Returned stats, w') /\
    (forall s, In s stats -> ~ In (name s) excludedLanguages).
Proof.
  refine (match C7_excluded_languages_never_reported example_env
                  (example_github [("SCSS", 900000%N); ("Go", 70%N); ("scss", 20%N)])
                  [example_repo "site"; example_repo "blog"] example_world _ with
          | ex_intro _ stats (ex_intro _ w' (conj E (conj H _))) =>
              ex_intro _ stats (ex_intro _ w' (conj E H))
          end).
  intros h r. exact I.
Defined.

Example excluded_even_when_largest :
  exists stats : list LanguageStat,
    fst (getLanguageStats example_env
           (example_github [("SCSS", 900000%N); ("Go", 70%N); ("scss", 20%N);
                            ("Open Policy Agent", 500000%N); ("Scss", 1%N);
                            ("HTML", 10%N)])
           [example_repo "site"; example_repo "blog"] example_world)
    = Returned stats /\
    map (fun s => (name s, fixed_text (percentage s))) stats
    = [("Go", "70.0"); ("scss", "20.0"); ("HTML", "10.0")].
Proof. eexists. split; vm_compute; reflexivity. Qed.

(** C10.  When the bytes of the languages that are not excluded sum to zero,
    the division by the total is a division of zero by zero (or of a string
    that is no numeral): [getLanguageStats], in a run in which the answers
    about languages parse, returns the ten first languages of the table, each
    with the percentage 'NaN'.  A language of zero bytes that is not excluded
    (and not named '__proto__') is in the table, so that it is returned with
    'NaN' when the table has at most ten languages; languages with plain
    names are returned in the order in which they were first met; and when no
    language is left there is no statistic at all. *)
Theorem C10_zero_total_gives_NaN (env : Env) (github : GitHub)
    (repos : list Repo) (w : World) :
  languages_parse github ->
  included_bytes (language_entries env github repos w) = 0 ->
  exists (stats : list LanguageStat) (w' : World),
    getLanguageStats env github repos w = (Returned stats, w') /\
    stats = map (fun lang => {| name := lang; percentage := FNaN |})
                (firstn 10 (map fst (Object_entries_named
                                       (languages_table env github repos w)))) /\
    (forall s, In s stats ->
               percentage s = FNaN /\ fixed_text (percentage s) = "NaN") /\
    (forall lang,
       ~ In lang excludedLanguages -> lang <> "__proto__" ->
       In lang (map fst (language_entries env github repos w)) ->
       In lang (map fst (languages_table env github repos w)) /\
       ((List.length (languages_table env github repos w) <= 10)%nat ->
        In {| name := lang; percentage := FNaN |} stats)) /\
    (plain_names (language_entries env github repos w) ->
     map name stats
     = firstn 10 (Set_of String.eqb
                    (map fst (included_entries (language_entries env github repos w))))) /\
    (included_entries (language_entries env github repos w) = [] -> stats = []).
Proof.
  intros Hparse Htotal.
  destruct (getLanguageStats_spec env github repos w Hparse) as (w' & E).
  exists (top_languages (fold_left add_language (language_entries env github repos w) [])), w'.
  split; [exact E |]. unfold languages_table.
  set (entries := language_entries env github repos w) in *.
  pose proof (top_languages_no_bytes entries Htotal) as Etop.
  set (languages := fold_left add_language entries []) in *.
  split; [exact Etop |].
  assert (Hplain : plain_names entries ->
            map fst (Object_entries_named languages)
            = Set_of String.eqb (map fst (included_entries entries))).
  { intros Hplain. unfold languages.
    rewrite (languages_as_exact entries Hplain) by lia.
    rewrite (as_value_keys_plain _ (exact_table_keys_plain entries Hplain)).
    rewrite map_map. cbn [as_value fst].
    destruct (exact_table_spec entries) as (Hkeys & _). cbv zeta in Hkeys.
    rewrite <- Hkeys. reflexivity. }
  split; [| split; [| split]].
  - intros s Hs. rewrite Etop in Hs. apply in_map_iff in Hs.
    destruct Hs as (lang & <- & _). split; reflexivity.
  - intros lang Hex Hproto Hin.
    assert (Hkey : In lang (map fst languages)) by (apply table_keys; tauto).
    split; [exact Hkey |].
    intros Hlen. rewrite Etop.
    apply (in_map (fun lang => {| name := lang; percentage := FNaN |})).
    rewrite firstn_all2.
    + now apply Object_entries_named_keys.
    + now rewrite length_map, Object_entries_named_length.
  - intros Hp. rewrite Etop, map_map. cbn [name]. rewrite map_id.
    now rewrite (Hplain Hp).
  - intros Hnone. rewrite Etop.
    assert (Hempty : languages = []).
    { destruct languages as [| [lang v] rest] eqn:El; [reflexivity |].
      assert (Hk : In lang (map fst languages)) by (rewrite El; now left).
      apply table_keys in Hk. destruct Hk as (Hin & Hex & _).
      assert (Hinc : In lang (map fst (included_entries entries)))
        by (apply included_not_excluded; tauto).
      rewrite Hnone in Hinc. destruct Hinc. }
    rewrite Hempty. reflexivity.
Qed.

(** An instance of C10: a repository with an excluded language and an empty
    file type. *)
Lemma C10_witness :
  exists (stats : list LanguageStat) (w' : World),
    getLanguageStats example_env
      (example_github [("SCSS", 4096%N); ("Text", 0%N)])
      [example_repo "site"] example_world
    = (Returned stats, w') /\
    stats = [{| name := "Text"; percentage := FNaN |}].
Proof.
  refine (match C10_zero_total_gives_NaN example_env
                  (example_github [("SCSS", 4096%N); ("Text", 0%N)])
                  [example_repo "site"] example_world _ _ with
          | ex_intro _ stats (ex_intro _ w' (conj E (conj H _))) =>
              ex_intro _ stats (ex_intro _ w' (conj E H))
          end).
  - intros h r. exact I.
  - reflexivity.
Defined.

Example zero_total_example :
  fst (getLanguageStats example_env
         (example_github [("SCSS", 4096%N); ("Text", 0%N)])
         [example_repo "site"] example_world)
  = Returned [{| name := "Text"; percentage := FNaN |}].
Proof. vm_compute. reflexivity. Qed.

(** ** The claims about failures and the environment *)

Section RunFacts.
Variable env : Env.
Variable github : GitHub.

Lemma githubRequest_world {A : Type}
    (endpoint : GitHub -> list Request -> Request -> Response A)
    (path : string) (w : World) :
  snd (githubRequest env github endpoint path w)
  = {| requests := requests w ++ [request_options env path];
       console := console w; README := README w;
       README_writable := README_writable w |}.
Proof.
  unfold githubRequest.
  destruct (endpoint github (requests w) (request_options env path)); reflexivity.
Qed.

Hypothesis commits_answers_parse : commits_parse github.

Lemma getCommitActivity_returns (owner repo : string) (w : World) :
  exists (commits : list Commit) (w' : World),
    getCommitActivity env github owner repo w = (Returned commits, w').
Proof.
  unfold getCommitActivity, try_catch, githubRequest.
  pose proof (commits_answers_parse (requests w)
                (request_options env (commits_path env owner repo))) as Hparse.
  destruct (repo_commits github (requests w) _);
    [| contradiction | |]; eexists; eexists; reflexivity.
Qed.

(** The loop over the repositories does not fail when the answers parse. *)
Lemma fetch_dates_returns (repos : list Repo) :
  forall (allDates : list isoDate) (w : World),
  exists (dates : list isoDate) (w' : World),
    fetch_dates env github allDates repos w = (Returned dates, w').
Proof.
  induction repos as [| repo repos IH]; intros allDates w.
  - exists allDates, w. reflexivity.
  - cbn [fetch_dates]. unfold bind at 1.
    destruct (getCommitActivity_returns (owner_login repo) (repo_name repo) w)
      as (commits & w1 & ->).
    apply IH.
Qed.
End RunFacts.

(** C8.  When the request for the commits of a repository fails, with a
    status other than 200 or without an answer, [getCommitActivity] catches
    the error, prints a line that names the repository as owner/name, and
    returns the empty list, so that the loop of [main] goes on with the
    repositories that remain; the loop does not fail, as long as the bodies of
    the answers with status 200 parse.  In the same way, when the request for
    the languages of a repository fails, a line that names the repository is
    printed, the table of languages is left as it was, and the loop goes on
    with the repositories that remain. *)
Theorem C8_fetch_failure_is_logged_and_skipped (env : Env) (github : GitHub)
    (w : World) :
  (forall (repo : Repo) (e : Error),
     fst (githubRequest env github repo_commits
            (commits_path env (owner_login repo) (repo_name repo)) w) = Thrown e ->
     exists w' : World,
       getCommitActivity env github (owner_login repo) (repo_name repo) w
       = (Returned [], w') /\
       console w'
       = console w ++ [Log ("Could not fetch commits for " ++ owner_login repo
                            ++ "/" ++ repo_name repo)] /\
       (forall (allDates : list isoDate) (repos : list Repo),
          fetch_dates env github allDates (repo :: repos) w
          = fetch_dates env github allDates repos w')) /\
  (commits_parse github ->
   forall (allDates : list isoDate) (repos : list Repo),
     exists (dates : list isoDate) (w' : World),
       fetch_dates env github allDates repos w = (Returned dates, w')) /\
  (forall (repo : Repo) (languages : list (string * value)) (e : Error),
     fst (githubRequest env github repo_languages (languages_path repo) w) = Thrown e ->
     exists w' : World,
       fetch_repo_languages env github languages repo w = (Returned languages, w') /\
       console w'
       = console w ++ [Log ("Could not fetch languages for " ++ repo_name repo)] /\
       (forall repos : list Repo,
          fetch_languages env github languages (repo :: repos) w
          = fetch_languages env github languages repos w')) /\
  (languages_parse github ->
   forall repos : list Repo,
     exists (stats : list LanguageStat) (w' : World),
       getLanguageStats env github repos w = (Returned stats, w')).
Proof.
  split; [| split; [| split]].
  - intros repo e He.
    pose proof (githubRequest_world env github repo_commits
                  (commits_path env (owner_login repo) (repo_name repo)) w) as Hw.
    assert (Hget : exists w',
              getCommitActivity env github (owner_login repo) (repo_name repo) w
              = (Returned [], w') /\
              console w' = console w ++ [Log ("Could not fetch commits for "
                             ++ owner_login repo ++ "/" ++ repo_name repo)]).
    { unfold getCommitActivity, try_catch.
      destruct (githubRequest env github repo_commits
                  (commits_path env (owner_login repo) (repo_name repo)) w)
        as [[a | e' | | e'] w1]; cbn [fst snd] in *; try discriminate.
      subst w1. eexists. split; reflexivity. }
    destruct Hget as (w' & Hget & Hlog).
    exists w'. split; [exact Hget |]. split; [exact Hlog |].
    intros allDates repos. cbn [fetch_dates]. unfold bind at 1.
    rewrite Hget. cbn [flat_map]. now rewrite app_nil_r.
  - intros Hparse allDates repos. now apply fetch_dates_returns.
  - intros repo languages e He.
    pose proof (githubRequest_world env github repo_languages (languages_path repo) w)
      as Hw.
    assert (Hget : exists w',
              fetch_repo_languages env github languages repo w = (Returned languages, w') /\
              console w' = console w ++ [Log ("Could not fetch languages for "
                                               ++ repo_name repo)]).
    { unfold fetch_repo_languages, try_catch, bind at 1.
      destruct (githubRequest env github repo_languages (languages_path repo) w)
        as [[a | e' | | e'] w1]; cbn [fst snd] in *; try discriminate.
      subst w1. eexists. split; reflexivity. }
    destruct Hget as (w' & Hget & Hlog).
    exists w'. split; [exact Hget |]. split; [exact Hlog |].
    intros repos. cbn [fetch_languages]. unfold bind at 1. now rewrite Hget.
  - intros Hparse repos.
    destruct (getLanguageStats_spec env github repos w Hparse) as (w' & E).
    eexists. eexists. exact E.
Qed.

(** An instance of C8: the repository "empty" answers 409 to the request for
    its commits. *)
Lemma C8_witness :
  exists w' : World,
    getCommitActivity example_env failing_github "octocat" "empty" example_world
    = (Returned [], w') /\
    console w' = [Log "Could not fetch commits for octocat/empty"].
Proof.
  refine (match proj1 (C8_fetch_failure_is_logged_and_skipped
                         example_env failing_github example_world)
                  (example_repo "empty")
                  (GitHubApiError 409 "Git Repository is empty.") eq_refl with
          | ex_intro _ w' (conj E (conj H _)) => ex_intro _ w' (conj E H)
          end).
Defined.

Example run_continues_after_failures :
  let r := run example_env failing_github utc 5 (19723 * msPerDay)
               "Mon, 01 Jan 2024 00:00:00 GMT" example_world in
  fst r = Some 0 /\
  map path (requests (snd r))
  = ["/user/repos?per_page=100&page=1&affiliation=owner,collaborator,organization_member";
     "/repos/octocat/empty/commits?author=octocat&per_page=100";
     "/repos/octocat/site/commits?author=octocat&per_page=100";
     "/repos/octocat/empty/languages";
     "/repos/octocat/site/languages"] /\
  console (snd r)
  = [Log "Fetching repositories..."; Log "Found 2 repositories";
     Log "Fetching commit data...";
     Log "Could not fetch commits for octocat/empty";
     Log "Calculating statistics...";
     Log "Could not fetch languages for empty";
     Log "site: Go";
     Log (newline ++ "Total bytes per language:");
     Log "  Go: 0.00 MB (100.0%)";
     Log "README.md updated successfully!"] /\
  README (snd r)
  = Some ("<!-- STREAK_START -->" ++ newline
          ++ "**Current Streak:** 1 days  " ++ newline
          ++ "**Longest Streak:** 1 days  " ++ newline
          ++ "**Total Active Days:** 1 days" ++ newline
          ++ "<!-- STREAK_END -->")%string.
Proof. vm_compute. repeat split. Qed.

(** An answer with status 200 whose body is not JSON is no failure of the
    request: [JSON.parse] throws in the listener, nothing catches it, and the
    process ends there with status 1. *)
Example unparsable_answer_ends_the_run :
  run example_env
      {| user_repos := fun _ _ => OK [example_repo "site"; example_repo "blog"];
         repo_commits := fun _ _ => Unparsable "<html>";
         repo_languages := fun _ _ => OK [("Go", 10%N)] |}
      utc 5 (19723 * msPerDay) "Mon, 01 Jan 2024 00:00:00 GMT" example_world
  = (Some 1,
     {| requests :=
          [request_options example_env (repos_path 1);
           request_options example_env (commits_path example_env "octocat" "site")];
        console := [Log "Fetching repositories..."; Log "Found 2 repositories";
                    Log "Fetching commit data..."; Uncaught (SyntaxError "<html>")];
        README := README example_world;
        README_writable := true |}).
Proof. vm_compute. reflexivity. Qed.

(** *** Requests are only added *)

Lemma grows_ret {A : Type} (a : A) : grows (ret a).
Proof. intros w. exists []. cbn. now rewrite app_nil_r. Qed.

Lemma grows_throw {A : Type} (e : Error) : grows (@throw A e).
Proof. intros w. exists []. cbn. now rewrite app_nil_r. Qed.

Lemma grows_console_log (text : string) : grows (console_log text).
Proof. intros w. exists []. cbn. now rewrite app_nil_r. Qed.

Lemma grows_readFileSync : grows readFileSync.
Proof.
  intros w. exists []. unfold readFileSync.
  destruct (README w); cbn; now rewrite app_nil_r.
Qed.

Lemma grows_writeFileSync (text : string) : grows (writeFileSync text).
Proof.
  intros w. exists []. unfold writeFileSync.
  destruct (README_writable w); cbn; now rewrite app_nil_r.
Qed.

Lemma grows_bind {A B : Type} (m : M A) (k : A -> M B) :
  grows m -> (forall a, grows (k a)) -> grows (bind m k).
Proof.
  intros Hm Hk w. unfold bind. destruct (Hm w) as (more & E).
  destruct (m w) as [[a | e | | e] w1]; cbn [snd] in *.
  - destruct (Hk a w1) as (more' & E'). exists (more ++ more').
    now rewrite E', E, app_assoc.
  - now exists more.
  - now exists more.
  - now exists more.
Qed.

Lemma grows_try_catch {A : Type} (m handler : M A) :
  grows m -> grows handler -> grows (try_catch m handler).
Proof.
  intros Hm Hh w. unfold try_catch. destruct (Hm w) as (more & E).
  destruct (m w) as [[a | e | | e] w1]; cbn [snd] in *.
  - now exists more.
  - destruct (Hh w1) as (more' & E'). exists (more ++ more').
    now rewrite E', E, app_assoc.
  - now exists more.
  - now exists more.
Qed.

Create HintDb grows.
#[global] Hint Resolve grows_ret grows_throw grows_console_log grows_readFileSync
  grows_writeFileSync : grows.

(** Splits a computation at its binds, handlers and tests, and closes the
    parts with the facts collected so far. *)
Ltac grows_steps :=
  repeat first
    [ solve [auto with grows]
    | apply grows_bind; [| intros ?]
    | apply grows_try_catch
    | match goal with
      | |- grows (if ?b then _ else _) => destruct b
      | |- grows (match ?o with Some _ => _ | None => _ end) => destruct o
      end ].

Section Grows.
Variable env : Env.
Variable github : GitHub.
Variable zone : TimeZone.

Lemma grows_githubRequest {A : Type}
    (endpoint : GitHub -> list Request -> Request -> Response A) (path : string) :
  grows (githubRequest env github endpoint path).
Proof.
  intros w. exists [request_options env path].
  now rewrite githubRequest_world.
Qed.
#[local] Hint Resolve grows_githubRequest : grows.

Lemma grows_getAllRepos_loop (fuel : nat) :
  forall (page : nat) (repos : list Repo),
    grows (getAllRepos_loop env github fuel page repos).
Proof.
  induction fuel as [| fuel IH]; intros page repos; cbn [getAllRepos_loop].
  - intros w. exists []. cbn. now rewrite app_nil_r.
  - grows_steps.
Qed.
#[local] Hint Resolve grows_getAllRepos_loop : grows.

Lemma grows_getCommitActivity (owner repo : string) :
  grows (getCommitActivity env github owner repo).
Proof. unfold getCommitActivity. grows_steps. Qed.
#[local] Hint Resolve grows_getCommitActivity : grows.

Lemma grows_fetch_dates (repos : list Repo) :
  forall allDates : list isoDate, grows (fetch_dates env github allDates repos).
Proof.
  induction repos as [| repo repos IH]; intros allDates; cbn [fetch_dates];
    grows_steps.
Qed.
#[local] Hint Resolve grows_fetch_dates : grows.

Lemma grows_fetch_repo_languages (languages : list (string * value)) (repo : Repo) :
  grows (fetch_repo_languages env github languages repo).
Proof. unfold fetch_repo_languages. grows_steps. Qed.
#[local] Hint Resolve grows_fetch_repo_languages : grows.

Lemma grows_fetch_languages (repos : list Repo) :
  forall languages : list (string * value),
    grows (fetch_languages env github languages repos).
Proof.
  induction repos as [| repo repos IH]; intros languages; cbn [fetch_languages];
    grows_steps.
Qed.
#[local] Hint Resolve grows_fetch_languages : grows.

Lemma grows_log_lines (lines : list string) : grows (log_lines lines).
Proof.
  induction lines as [| l lines IH]; cbn [log_lines]; grows_steps.
Qed.
#[local] Hint Resolve grows_log_lines : grows.

Lemma grows_getLanguageStats (repos : list Repo) :
  grows (getLanguageStats env github repos).
Proof. unfold getLanguageStats. grows_steps. Qed.
#[local] Hint Resolve grows_getLanguageStats : grows.

Lemma grows_after_first_page (fuel : nat) (now : Z) (nowUTC : string)
    (data : list Repo) :
  grows (after_first_page env github zone fuel now nowUTC data).
Proof. unfold after_first_page. grows_steps. Qed.

(** [main] begins with the request for the first page of repositories. *)
Lemma main_first_request (fuel : nat) (now : Z) (nowUTC : string) (w : World) :
  main env github zone (S fuel) now nowUTC w
  = let w1 :=
      {| requests := requests w ++ [request_options env (repos_path 1)];
         console := console w ++ [Log "Fetching repositories..."];
         README := README w; README_writable := README_writable w |} in
    match user_repos github (requests w) (request_options env (repos_path 1)) with
    | OK data => after_first_page env github zone fuel now nowUTC data w1
    | Unparsable data => (Died (SyntaxError data), w1)
    | Status statusCode data => (Thrown (GitHubApiError statusCode data), w1)
    | NoResponse error => (Thrown (TransportError error), w1)
    end.
Proof.
  unfold main, getAllRepos. cbn [getAllRepos_loop].
  unfold bind at 1. unfold console_log at 1.
  unfold bind at 1. unfold bind at 1.
  unfold githubRequest at 1. cbn [requests console README].
  unfold repos_path.
  destruct (user_repos github (requests w) _); reflexivity.
Qed.
End Grows.

(** * Further properties *)

(** ** calculateStreaks *)

Lemma calculateStreaks_total (zone : TimeZone) (now : Z) (dates : list isoDate) :
  total (calculateStreaks zone now dates) = List.length (sortedDates_of dates).
Proof.
  unfold calculateStreaks. destruct dates as [| d l]; [reflexivity |].
  cbn [List.length Nat.eqb].
  destruct (longestStreak_loop None (sortedDates_of (d :: l)) 0 0). reflexivity.
Qed.

Lemma calculateStreaks_total_distinct (zone : TimeZone) (now : Z)
    (dates : list isoDate) :
  total (calculateStreaks zone now dates) = List.length (nodup Z.eq_dec dates).
Proof.
  rewrite calculateStreaks_total. unfold sortedDates_of.
  rewrite Array_sort_length. apply distinct_count.
Qed.

Lemma streak_in_length (dates : list isoDate) (d : isoDate) (k : nat) :
  streak_in dates d k -> (k <= List.length (nodup Z.eq_dec dates))%nat.
Proof.
  intros H.
  rewrite <- (length_seq k 0), <- (length_map (fun i : nat => d - Z.of_nat i)).
  apply NoDup_incl_length.
  - apply Finite.Injective_map_NoDup; [| apply seq_NoDup].
    intros i j Hij. lia.
  - intros x Hx. apply in_map_iff in Hx. destruct Hx as (i & <- & Hi).
    apply in_seq in Hi. apply nodup_In. apply H. lia.
Qed.

(** The walk of the current streak counts at most one day for each turn. *)
Lemma currentStreak_loop_le (zone : TimeZone) (S0 : list isoDate) (n : nat) :
  forall (t : Z) (c : nat), (currentStreak_loop zone n S0 t c <= c + n)%nat.
Proof.
  induction n as [| n IH]; intros t c; cbn [currentStreak_loop]; [lia |].
  cbv zeta. destruct (includes Z.eqb S0 (toISODate t)); [| lia].
  specialize (IH (setDate_prev zone t) (S c)). lia.
Qed.

Lemma calculateStreaks_current_le_total (zone : TimeZone) (now : Z)
    (dates : list isoDate) :
  (current (calculateStreaks zone now dates)
   <= total (calculateStreaks zone now dates))%nat.
Proof.
  rewrite calculateStreaks_total.
  unfold calculateStreaks. destruct dates as [| d l]; [cbn; lia |].
  cbn [List.length Nat.eqb].
  destruct (longestStreak_loop None (sortedDates_of (d :: l)) 0 0).
  cbn [current].
  apply (currentStreak_loop_le zone _ _ now 0%nat).
Qed.

Lemma currentStreak_loop_day (zone : TimeZone) (offset : Z) (S0 : list isoDate)
    (n : nat) :
  fixed_offset zone offset ->
  forall (t t' : Z) (c : nat),
    toISODate t = toISODate t' ->
    currentStreak_loop zone n S0 t c = currentStreak_loop zone n S0 t' c.
Proof.
  intros Hfixed.
  induction n as [| n IH]; intros t t' c H; cbn [currentStreak_loop]; [reflexivity |].
  cbv zeta. rewrite H.
  destruct (includes Z.eqb S0 (toISODate t')); [| reflexivity].
  apply IH. rewrite !(toISODate_prev zone offset Hfixed). congruence.
Qed.

(** X1.  The numbers of [calculateStreaks] are ordered, in every time zone:
    the current streak and the longest streak are at most the total, and the
    total is the number of distinct dates; when there is a date at all, the
    longest streak is at least 1.  In a zone whose offset from UTC does not
    change, the current streak is at most the longest streak. *)
Theorem calculateStreaks_current_le_longest_le_total (zone : TimeZone) (offset : Z)
    (now : Z) (dates : list isoDate) :
  (fixed_offset zone offset ->
   (current (calculateStreaks zone now dates)
    <= longest (calculateStreaks zone now dates))%nat) /\
  (current (calculateStreaks zone now dates)
   <= total (calculateStreaks zone now dates))%nat /\
  (longest (calculateStreaks zone now dates)
   <= total (calculateStreaks zone now dates))%nat /\
  total (calculateStreaks zone now dates) = List.length (nodup Z.eq_dec dates) /\
  (dates <> [] -> (1 <= longest (calculateStreaks zone now dates))%nat).
Proof.
  pose proof (longest_streak_run zone now dates) as [Hmax (d & Hd)].
  cbv zeta in *.
  pose proof (calculateStreaks_total_distinct zone now dates) as Ht.
  split; [| split; [| split; [| split; [exact Ht |]]]].
  - intros Hfixed.
    pose proof (current_streak_run zone offset Hfixed now dates) as [Hrun _].
    cbv zeta in Hrun. apply (Hmax (toISODate now)). exact Hrun.
  - apply calculateStreaks_current_le_total.
  - rewrite Ht. eapply streak_in_length; eassumption.
  - intros Hne. destruct dates as [| d0 l]; [contradiction |].
    apply (Hmax d0). intros i Hi. assert (i = 0%nat) by lia. subst i.
    left. cbn. lia.
Qed.

(** An instance: a single commit, made long ago, read in UTC. *)
Lemma calculateStreaks_current_le_longest_le_total_witness :
  (current (calculateStreaks utc (20000 * msPerDay)%Z [12345]%Z)
   <= longest (calculateStreaks utc (20000 * msPerDay)%Z [12345]%Z))%nat /\
  (1 <= longest (calculateStreaks utc (20000 * msPerDay)%Z [12345]%Z))%nat.
Proof.
  split.
  - refine (proj1 (calculateStreaks_current_le_longest_le_total
                     utc 0 (20000 * msPerDay) [12345]) _).
    split; intros t; reflexivity.
  - refine (proj2 (proj2 (proj2 (proj2 (calculateStreaks_current_le_longest_le_total
                                   utc 0 (20000 * msPerDay) [12345])))) _).
    discriminate.
Defined.

(** Where the offset changes, the walk can skip a day and the current streak
    exceed the longest: in New York, in the evening of the day on which
    daylight saving time ends (2024-11-04 00:30 UTC), the dates 2024-11-04
    and 2024-11-02 count as a current streak of 2, while no two of the dates
    are consecutive. *)
Example current_exceeds_longest_in_new_york :
  calculateStreaks new_york (20031 * msPerDay + 1800000) [20031; 20029]
  = {| current := 2; longest := 1; total := 2 |}.
Proof. vm_compute. reflexivity. Qed.

(** Where the offset changes, the time of day matters: the same four days
    give a current streak of 3 at 00:30 UTC of 2024-11-04 in New York, and of
    4 at noon. *)
Example time_of_day_matters_in_new_york :
  current (calculateStreaks new_york (20031 * msPerDay + 1800000)
             [20031; 20030; 20029; 20028]) = 3%nat /\
  current (calculateStreaks new_york (20031 * msPerDay + 12 * 3600000)
             [20031; 20030; 20029; 20028]) = 4%nat.
Proof. split; vm_compute; reflexivity. Qed.

(** X2.  [calculateStreaks] does not depend on the order of the dates or on
    how often a date is repeated: two lists that hold the same dates give the
    same result.  In a zone whose offset from UTC does not change it does not
    depend on the time of day either: two instants of the same UTC day give
    the same result. *)
Theorem calculateStreaks_depends_on_day_and_date_set
    (zone : TimeZone) (offset : Z) (now now' : Z) (dates dates' : list isoDate) :
  (forall d, In d dates <-> In d dates') ->
  calculateStreaks zone now dates = calculateStreaks zone now dates' /\
  (fixed_offset zone offset -> toISODate now = toISODate now' ->
   calculateStreaks zone now dates = calculateStreaks zone now' dates').
Proof.
  intros Hset.
  assert (Hs : sortedDates_of dates = sortedDates_of dates').
  { apply (StronglySorted_ext (fun a b => b < a)).
    - intros a. lia.
    - intros a b c. lia.
    - apply sortedDates_sorted.
    - apply sortedDates_sorted.
    - intros x. rewrite !sortedDates_In. apply Hset. }
  destruct dates as [| d l], dates' as [| d' l'].
  - split; reflexivity.
  - exfalso. apply (proj2 (Hset d')). now left.
  - exfalso. apply (proj1 (Hset d)). now left.
  - unfold calculateStreaks. cbn [List.length Nat.eqb].
    rewrite Hs. split; [reflexivity |].
    intros Hfixed Hday.
    rewrite (currentStreak_loop_day zone offset _ _ Hfixed now now' 0%nat Hday).
    reflexivity.
Qed.

(** An instance: the same three days, listed in two ways, read in the morning
    and in the evening of 2024-10-04, in UTC. *)
Lemma calculateStreaks_depends_on_day_and_date_set_witness :
  calculateStreaks utc (20000 * msPerDay + 1) [19999; 20000; 19999; 19997]
  = calculateStreaks utc (20000 * msPerDay + 86399999) [19997; 19999; 20000].
Proof.
  refine (proj2 (calculateStreaks_depends_on_day_and_date_set
                   utc 0 (20000 * msPerDay + 1) (20000 * msPerDay + 86399999)
                   [19999; 20000; 19999; 19997] [19997; 19999; 20000] _) _ _).
  - intros d. simpl. lia.
  - split; intros t; reflexivity.
  - reflexivity.
Defined.

(** ** calculateYearlyStats *)

Lemma nodup_filter (f : Z -> bool) (l : list Z) :
  nodup Z.eq_dec (filter f l) = filter f (nodup Z.eq_dec l).
Proof.
  induction l as [| a l IH]; [reflexivity |].
  cbn [filter nodup].
  destruct (f a) eqn:Ef; destruct (in_dec Z.eq_dec a l) as [Hin | Hn]; cbn [filter nodup].
  - destruct (in_dec Z.eq_dec a (filter f l)) as [_ | Hn']; [exact IH |].
    exfalso. apply Hn'. apply filter_In. now split.
  - rewrite Ef. destruct (in_dec Z.eq_dec a (filter f l)) as [Hin' | _].
    + exfalso. apply Hn. now apply filter_In in Hin'.
    + now rewrite IH.
  - exact IH.
  - now rewrite Ef.
Qed.

Lemma nat_sum_add {A : Type} (f g : A -> nat) (l : list A) :
  nat_sum (map (fun x => (f x + g x)%nat) l)
  = (nat_sum (map f l) + nat_sum (map g l))%nat.
Proof.
  induction l as [| x l IH]; [reflexivity |].
  unfold nat_sum in *. cbn [map fold_right]. rewrite IH. lia.
Qed.

Lemma nat_sum_zero {A : Type} (l : list A) : nat_sum (map (fun _ => 0%nat) l) = 0%nat.
Proof. induction l as [| x l IH]; [reflexivity | exact IH]. Qed.

(** A year is counted once in a list of years without repetition. *)
Lemma nat_sum_one (y : Z) (ys : list Z) :
  NoDup ys -> In y ys ->
  nat_sum (map (fun y' => if y =? y' then 1%nat else 0%nat) ys) = 1%nat.
Proof.
  induction 1 as [| z ys Hz Hnd IH]; intros Hin; [contradiction |].
  unfold nat_sum in *. cbn [map fold_right].
  destruct (Z.eqb_spec y z) as [-> | Hne].
  - assert (E : map (fun y' => if z =? y' then 1%nat else 0%nat) ys
                = map (fun _ => 0%nat) ys).
    { apply map_ext_in. intros y' Hy'.
      destruct (Z.eqb_spec z y') as [-> | _]; [contradiction | reflexivity]. }
    rewrite E. fold (nat_sum (map (fun _ : Z => 0%nat) ys)).
    now rewrite nat_sum_zero.
  - destruct Hin as [-> | Hin]; [contradiction |]. now rewrite IH.
Qed.

(** The dates of a list, counted year by year. *)
Lemma count_by_year (zone : TimeZone) (ys : list Z) (l : list isoDate) :
  NoDup ys -> (forall d, In d l -> In (year_of zone d) ys) ->
  nat_sum (map (fun y => List.length (filter (in_year zone y) l)) ys) = List.length l.
Proof.
  intros Hnd. induction l as [| d l IH]; intros Hin.
  - cbn [filter List.length]. apply nat_sum_zero.
  - assert (E : map (fun y => List.length (filter (in_year zone y) (d :: l))) ys
                = map (fun y => ((if (year_of zone d =? y)%Z then 1 else 0)
                                 + List.length (filter (in_year zone y) l))%nat) ys).
    { apply map_ext. intros y. cbn [filter]. unfold in_year at 1.
      destruct (year_of zone d =? y); reflexivity. }
    rewrite E, nat_sum_add, IH, nat_sum_one.
    + reflexivity.
    + exact Hnd.
    + apply Hin. now left.
    + intros d' Hd'. apply Hin. now right.
Qed.

Lemma yearly_years (zone : TimeZone) (dates : list isoDate) :
  NoDup (map year (calculateYearlyStats zone dates)) /\
  (forall d, In d dates -> In (year_of zone d) (map year (calculateYearlyStats zone dates))) /\
  calculateYearlyStats zone dates
  = map (summary_of zone dates) (map year (calculateYearlyStats zone dates)).
Proof.
  destruct (yearly_stats_char zone dates) as [Hs Hin].
  split; [| split].
  - clear Hin. induction Hs as [| e l Hs IH Hall]; cbn [map]; constructor.
    + intros Hy. apply in_map_iff in Hy. destruct Hy as (e' & Hy & He').
      rewrite Forall_forall in Hall. apply Hall in He'. lia.
    + exact IH.
  - intros d Hd. apply in_map_iff. exists (summary_of zone dates (year_of zone d)).
    split; [reflexivity |]. apply Hin. split; [| reflexivity].
    exists d. now split.
  - rewrite map_map. rewrite <- (map_id (calculateYearlyStats zone dates)) at 1.
    apply map_ext_in. intros e He. now apply Hin in He.
Qed.

(** X3.  The yearly table accounts for every date, in every time zone: its
    contributions add up to the number of dates given, and its active days add
    up to the total number of active days that [calculateStreaks] reports for
    the same dates. *)
Theorem calculateYearlyStats_totals (zone : TimeZone) (now : Z)
    (dates : list isoDate) :
  nat_sum (map contributions (calculateYearlyStats zone dates)) = List.length dates /\
  nat_sum (map activeDays (calculateYearlyStats zone dates))
  = total (calculateStreaks zone now dates).
Proof.
  destruct (yearly_years zone dates) as (Hnd & Hin & E).
  pose proof (calculateStreaks_total_distinct zone now dates) as Ht.
  split.
  - rewrite E at 1. rewrite map_map. cbn [summary_of contributions].
    now apply count_by_year.
  - rewrite Ht.
    refine (eq_trans _ (count_by_year zone (map year (calculateYearlyStats zone dates))
                          (nodup Z.eq_dec dates) Hnd _)).
    + rewrite E at 1. rewrite map_map. cbn [summary_of activeDays].
      f_equal. apply map_ext. intros y. now rewrite nodup_filter.
    + intros d Hd. apply Hin. now apply nodup_In in Hd.
Qed.

(** ** getLanguageStats: the ranking *)

Lemma includes_perm (l l' : list string) (x : string) :
  Permutation l l' -> includes String.eqb l x = includes String.eqb l' x.
Proof.
  intros Hp.
  destruct (includes String.eqb l' x) eqn:E.
  - apply (includes_In String.eqb String.eqb_eq).
    apply (includes_In String.eqb String.eqb_eq) in E.
    now apply (Permutation_in _ (Permutation_sym Hp)).
  - apply (includes_false String.eqb String.eqb_eq).
    apply (includes_false String.eqb String.eqb_eq) in E.
    intros Hin. apply E. now apply (Permutation_in _ Hp).
Qed.

Lemma included_entries_perm (entries entries' : list (string * N)) :
  Permutation entries entries' ->
  Permutation (included_entries entries) (included_entries entries').
Proof. apply Permutation_filter. Qed.

Lemma language_bytes_perm (entries entries' : list (string * N)) (lang : string) :
  Permutation entries entries' ->
  language_bytes entries lang = language_bytes entries' lang.
Proof.
  intros Hp. unfold language_bytes. apply Zsum_perm, Permutation_map.
  now apply Permutation_filter, included_entries_perm.
Qed.

Lemma included_bytes_perm (entries entries' : list (string * N)) :
  Permutation entries entries' -> included_bytes entries = included_bytes entries'.
Proof.
  intros Hp. unfold included_bytes.
  now apply Zsum_perm, Permutation_map, included_entries_perm.
Qed.

Lemma NoDup_map_fst {A B : Type} (l : list (A * B)) : NoDup (map fst l) -> NoDup l.
Proof.
  induction l as [| [a b] l IH]; cbn [map fst]; intros H; [constructor |].
  inversion H as [| ? ? Hn Hnd]; subst. constructor; [| now apply IH].
  intros Hin. apply Hn. apply in_map_iff. now exists (a, b).
Qed.

(** The table of the languages of two sequences of entries that differ in
    their order only holds the same languages with the same bytes. *)
Lemma exact_table_perm (entries entries' : list (string * N)) :
  Permutation entries entries' ->
  Permutation (fold_left add_exact entries [])
              (fold_left add_exact entries' []).
Proof.
  intros Hp.
  destruct (exact_table_spec entries) as (_ & Hnd & Hget & _).
  destruct (exact_table_spec entries') as (_ & Hnd' & Hget' & _).
  cbv zeta in *.
  apply NoDup_Permutation; try now apply NoDup_map_fst.
  intros [lang b].
  rewrite (obj_get_In String.eqb String.eqb_eq _ lang b Hnd).
  rewrite (obj_get_In String.eqb String.eqb_eq _ lang b Hnd').
  rewrite Hget, Hget'.
  rewrite (language_bytes_perm entries entries' lang Hp).
  rewrite (includes_perm _ (map fst (included_entries entries')) lang).
  - reflexivity.
  - now apply Permutation_map, included_entries_perm.
Qed.

(** X4.  For languages with plain names, none an array index and none a
    property that objects inherit, whose bytes sum to less than 2^53 (so that
    the additions are exact), the percentages do not depend on the order in
    which the languages are met: when the entries of the responses come in
    another order, the ranking holds the same statistics, each language with
    the same percentage, in some order. *)
Theorem ranked_languages_same_statistics_in_any_order
    (entries entries' : list (string * N)) :
  Permutation entries entries' ->
  plain_names entries ->
  included_bytes entries < 2 ^ 53 ->
  Permutation (ranked_languages (fold_left add_language entries []))
              (ranked_languages (fold_left add_language entries' [])).
Proof.
  intros Hp Hplain Hbound.
  assert (Hplain' : plain_names entries').
  { unfold plain_names in *. rewrite Forall_forall in *.
    intros e He. apply Hplain. now apply (Permutation_in _ (Permutation_sym Hp)). }
  rewrite (ranked_as_exact entries Hplain Hbound).
  rewrite (ranked_as_exact entries' Hplain')
    by now rewrite <- (included_bytes_perm entries entries' Hp).
  eapply Permutation_trans; [apply ranked_exact_perm |].
  eapply Permutation_trans; [| apply Permutation_sym, ranked_exact_perm].
  rewrite !table_total, (included_bytes_perm entries entries' Hp).
  now apply Permutation_map, exact_table_perm.
Qed.

(** From 2^53 bytes on the additions round, and the order matters: the total
    of 2^53, 1 and 1 bytes is 2^53 when the large count is added first and
    2^53 + 2 when it is added last. *)
Example total_depends_on_order_from_2_53 :
  total_bytes (fold_left add_language
                 [("C", 9007199254740992%N); ("Go", 1%N); ("Rust", 1%N)] [])
  = Num (of_Z 9007199254740992) /\
  total_bytes (fold_left add_language
                 [("Go", 1%N); ("Rust", 1%N); ("C", 9007199254740992%N)] [])
  = Num (of_Z 9007199254740994).
Proof. split; vm_compute; reflexivity. Qed.

(** An instance: two repositories, read in either order. *)
Lemma ranked_languages_same_statistics_in_any_order_witness :
  Permutation
    (ranked_languages
       (fold_left add_language [("Go", 30%N); ("SCSS", 5%N); ("HTML", 10%N); ("Go", 60%N)] []))
    (ranked_languages
       (fold_left add_language [("HTML", 10%N); ("Go", 60%N); ("Go", 30%N); ("SCSS", 5%N)] [])).
Proof.
  refine (ranked_languages_same_statistics_in_any_order
            [("Go", 30%N); ("SCSS", 5%N); ("HTML", 10%N); ("Go", 60%N)]
            [("HTML", 10%N); ("Go", 60%N); ("Go", 30%N); ("SCSS", 5%N)] _ _ _).
  - apply (Permutation_app_comm [("Go", 30%N); ("SCSS", 5%N)]
                                [("HTML", 10%N); ("Go", 60%N)]).
  - repeat constructor.
  - reflexivity.
Defined.

Lemma StronglySorted_app_inv {A : Type} (R : A -> A -> Prop) (l l' : list A) :
  StronglySorted R (l ++ l') -> forall x y, In x l -> In y l' -> R x y.
Proof.
  induction l as [| a l IH]; intros Hs x y Hx Hy; [contradiction |].
  cbn [app] in Hs. inversion Hs as [| ? ? Hs' Hall]; subst.
  destruct Hx as [-> | Hx].
  - rewrite Forall_forall in Hall. apply Hall. apply in_or_app. now right.
  - now apply IH.
Qed.

(** X5.  The cut to ten, in a run in which the answers about languages
    parse, the languages have plain names, none an array index and none a
    property that objects inherit, and the bytes of the languages that are
    not excluded are positive and below 2^53.  [getLanguageStats] returns ten
    statistics when there are more than ten languages and all of them
    otherwise, and a language that is cut off has no larger percentage than a
    language that is returned. *)
Theorem getLanguageStats_returns_the_ten_largest (env : Env) (github : GitHub)
    (repos : list Repo) (w : World) :
  languages_parse github ->
  plain_names (language_entries env github repos w) ->
  0 < included_bytes (language_entries env github repos w) < 2 ^ 53 ->
  exists (stats rest : list LanguageStat) (w' : World),
    getLanguageStats env github repos w = (Returned stats, w') /\
    ranked_languages (languages_table env github repos w) = stats ++ rest /\
    List.length stats
    = Nat.min 10 (List.length
                    (Set_of String.eqb
                       (map fst (included_entries (language_entries env github repos w))))) /\
    (forall s r, In s stats -> In r rest -> tenths_of r <= tenths_of s).
Proof.
  intros Hparse Hplain Htotal.
  destruct (getLanguageStats_spec env github repos w Hparse) as (w' & E).
  exists (firstn 10 (ranked_languages (languages_table env github repos w))),
         (skipn 10 (ranked_languages (languages_table env github repos w))), w'.
  split; [exact E |]. split; [now rewrite firstn_skipn |].
  unfold languages_table.
  set (entries := language_entries env github repos w) in *.
  rewrite (ranked_as_exact entries Hplain (proj2 Htotal)).
  split.
  - rewrite length_firstn. f_equal.
    rewrite (Permutation_length (ranked_exact_perm _)), length_map.
    destruct (exact_table_spec entries) as (Hkeys & _). cbv zeta in Hkeys.
    now rewrite <- Hkeys, length_map.
  - intros s r Hs Hr.
    pose proof (ranked_sorted entries Htotal) as Hsorted.
    rewrite <- (firstn_skipn 10 (ranked_exact (fold_left add_exact entries [])))
      in Hsorted.
    exact (StronglySorted_app_inv _ _ _ Hsorted s r Hs Hr).
Qed.

(** Without the condition on the names the count can differ: '__proto__' is
    met but not stored. *)
Example proto_is_not_counted :
  fst (getLanguageStats example_env (example_github [("__proto__", 5%N); ("Go", 30%N)])
         [example_repo "site"] example_world)
  = Returned [{| name := "Go"; percentage := FDec 1 1000 |}].
Proof. vm_compute. reflexivity. Qed.

(** An instance: twelve languages of 1 to 12 bytes. *)
Lemma getLanguageStats_returns_the_ten_largest_witness :
  exists (stats rest : list LanguageStat) (w' : World),
    getLanguageStats example_env
      (example_github [("A", 1%N); ("B", 2%N); ("C", 3%N); ("D", 4%N); ("E", 5%N);
                       ("F", 6%N); ("G", 7%N); ("H", 8%N); ("I", 9%N); ("J", 10%N);
                       ("K", 11%N); ("L", 12%N)])
      [example_repo "site"] example_world
    = (Returned stats, w') /\
    List.length stats = 10%nat /\
    (forall s r, In s stats -> In r rest -> tenths_of r <= tenths_of s).
Proof.
  refine (match getLanguageStats_returns_the_ten_largest example_env
                  (example_github [("A", 1%N); ("B", 2%N); ("C", 3%N); ("D", 4%N);
                                   ("E", 5%N); ("F", 6%N); ("G", 7%N); ("H", 8%N);
                                   ("I", 9%N); ("J", 10%N); ("K", 11%N); ("L", 12%N)])
                  [example_repo "site"] example_world _ _ _ with
          | ex_intro _ stats (ex_intro _ rest (ex_intro _ w'
              (conj E (conj _ (conj Hl H))))) =>
              ex_intro _ stats (ex_intro _ rest (ex_intro _ w' (conj E (conj Hl H))))
          end).
  - intros h r. exact I.
  - repeat constructor.
  - split; reflexivity.
Defined.

(** ** generateProgressBar *)

Lemma length_append (s s' : string) :
  String.length (s ++ s') = (String.length s + String.length s')%nat.
Proof. induction s as [| c s IH]; cbn; [reflexivity | now rewrite IH]. Qed.

Lemma append_nil_r (s : string) : (s ++ "")%string = s.
Proof. induction s as [| c s IH]; cbn; [reflexivity | now rewrite IH]. Qed.

Lemma append_assoc (a b c : string) : ((a ++ b) ++ c)%string = (a ++ b ++ c)%string.
Proof. induction a as [| x a IH]; cbn; [reflexivity | now rewrite IH]. Qed.

Lemma length_repeat_string (c : string) (n : nat) :
  String.length (repeat_string c n) = (n * String.length c)%nat.
Proof.
  induction n as [| n IH]; [reflexivity |].
  cbn [repeat_string]. rewrite length_append, IH. lia.
Qed.

Lemma bars_checked :
  forallb (fun t =>
             match generateProgressBar (parseFloat (FDec 1 (Z.of_nat t))) 20 with
             | Some bar => String.eqb bar (bar_of ((Z.of_nat t + 25) / 50))
             | None => false
             end) (seq 0 1001) = true.
Proof. vm_compute. reflexivity. Qed.

Lemma bar_of_tenths (t : Z) :
  0 <= t <= 1000 ->
  generateProgressBar (parseFloat (FDec 1 t)) 20 = Some (bar_of ((t + 25) / 50)).
Proof.
  intros Ht. pose proof bars_checked as H.
  rewrite forallb_forall in H. specialize (H (Z.to_nat t)).
  rewrite Z2Nat.id in H by lia.
  assert (Hin : In (Z.to_nat t) (seq 0 1001)) by (apply in_seq; lia).
  specialize (H Hin).
  destruct (generateProgressBar (parseFloat (FDec 1 t)) 20) as [bar |]; [| discriminate].
  apply String.eqb_eq in H. now subst.
Qed.

(** X6.  The bar of a percentage.  For every percentage from 0.0 to 100.0 that
    [toFixed(1)] can produce, [generateProgressBar] returns 20 cells, of which
    the first [percentage / 5], rounded to the nearest integer and upwards from
    a half, are full: the double arithmetic of the script agrees with the exact
    rounding at every one of these percentages.  For the percentage [NaN] of an
    empty total the bar is the empty string, whatever its length should be. *)
Theorem generateProgressBar_of_percentage :
  (forall t : Z, 0 <= t <= 1000 ->
     generateProgressBar (parseFloat (FDec 1 t)) 20 = Some (bar_of ((t + 25) / 50)) /\
     0 <= (t + 25) / 50 <= 20 /\
     String.length (bar_of ((t + 25) / 50)) = (20 * String.length full_block)%nat) /\
  (forall length : Z, generateProgressBar (parseFloat FNaN) length = Some "").
Proof.
  split; [| reflexivity].
  intros t Ht. split; [now apply bar_of_tenths |].
  assert (Hf : 0 <= (t + 25) / 50 <= 20).
  { split; [apply Z.div_pos; lia |].
    enough ((t + 25) / 50 < 21) by lia.
    apply Z.div_lt_upper_bound; lia. }
  split; [exact Hf |].
  unfold bar_of. rewrite length_append, !length_repeat_string.
  change (String.length light_shade) with 3%nat.
  change (String.length full_block) with 3%nat. lia.
Qed.

(** An instance: 16.7 percent fills 3 cells of 20. *)
Lemma generateProgressBar_of_percentage_witness :
  generateProgressBar (parseFloat (FDec 1 167)) 20 = Some "███░░░░░░░░░░░░░░░░░".
Proof.
  refine (proj1 (proj1 generateProgressBar_of_percentage 167 _)). lia.
Defined.

(** *** The lines of the fragment *)

Lemma JS_length_append (s s' : string) :
  JS_length (s ++ s') = (JS_length s + JS_length s')%nat.
Proof. induction s as [| c s IH]; cbn [append JS_length]; [reflexivity | lia]. Qed.

Lemma JS_length_repeat_string (c : string) (n : nat) :
  JS_length (repeat_string c n) = (n * JS_length c)%nat.
Proof.
  induction n as [| n IH]; [reflexivity |].
  cbn [repeat_string]. rewrite JS_length_append, IH. lia.
Qed.

Lemma percentages_fit :
  forallb (fun t => (JS_length (fixed_text (FDec 1 (Z.of_nat t))) <=? 5)%nat)
          (seq 0 1001) = true.
Proof. vm_compute. reflexivity. Qed.

(** X7.  The columns of the fragment.  The line of a statistic whose percentage
    is between 0.0 and 100.0 is always defined: it is the name, followed by
    spaces up to 12 UTF-16 code units when it is shorter (it is never cut), a
    space, the bar of 20 cells, a space, the percentage after spaces up to 5
    columns, and a percent sign.  Its length in code units is 40 for a name of
    at most 12 code units, and 28 more than that of a longer name. *)
Theorem language_line_keeps_the_columns (s : LanguageStat) :
  is_percentage s ->
  exists line : string,
    language_line s = Some line /\
    line = (name s ++ repeat_string " " (12 - JS_length (name s)) ++ " "
            ++ bar_of ((tenths_of s + 25) / 50) ++ " "
            ++ repeat_string " " (5 - JS_length (fixed_text (percentage s)))
            ++ fixed_text (percentage s) ++ "%")%string /\
    JS_length (bar_of ((tenths_of s + 25) / 50)) = 20%nat /\
    JS_length line = (Nat.max 12 (JS_length (name s)) + 28)%nat.
Proof.
  intros (t & Hp & Ht). unfold language_line, tenths_of.
  rewrite Hp, (bar_of_tenths t Ht). cbn [tenths].
  eexists. split; [reflexivity |].
  split; [unfold padEnd, padStart; now rewrite !append_assoc |].
  assert (Hfit : (JS_length (fixed_text (FDec 1 t)) <= 5)%nat).
  { pose proof percentages_fit as H. rewrite forallb_forall in H.
    specialize (H (Z.to_nat t)). rewrite Z2Nat.id in H by lia.
    apply Nat.leb_le, H, in_seq. lia. }
  assert (Hf : 0 <= (t + 25) / 50 < 21).
  { split; [apply Z.div_pos; lia | apply Z.div_lt_upper_bound; lia]. }
  assert (Hbar : JS_length (bar_of ((t + 25) / 50)) = 20%nat).
  { unfold bar_of. rewrite JS_length_append, !JS_length_repeat_string.
    change (JS_length light_shade) with 1%nat.
    change (JS_length full_block) with 1%nat. lia. }
  split; [exact Hbar |].
  unfold padEnd, padStart.
  rewrite !JS_length_append, !JS_length_repeat_string, Hbar.
  change (JS_length " ") with 1%nat. change (JS_length "%") with 1%nat.
  lia.
Qed.

(** An instance: a name of 10 characters and a name of 17. *)
Lemma language_line_keeps_the_columns_witness :
  language_line {| name := "JavaScript"; percentage := FDec 1 667 |}
  = Some "JavaScript   █████████████░░░░░░░  66.7%" /\
  language_line {| name := "Jupyter Notebook!"; percentage := FDec 1 50 |}
  = Some "Jupyter Notebook! █░░░░░░░░░░░░░░░░░░░   5.0%".
Proof.
  split.
  - destruct (language_line_keeps_the_columns
                {| name := "JavaScript"; percentage := FDec 1 667 |}) as (line & E & _).
    + exists 667. split; [reflexivity | lia].
    + reflexivity.
  - destruct (language_line_keeps_the_columns
                {| name := "Jupyter Notebook!"; percentage := FDec 1 50 |})
      as (line & E & _).
    + exists 50. split; [reflexivity | lia].
    + reflexivity.
Defined.

(** A name outside ASCII is padded by its code units, not by its bytes:
    'Père' has 4 of the one and 5 of the other, and gets 8 spaces. *)
Example padEnd_counts_code_units :
  padEnd "Père" 12 = "Père        " /\ String.length "Père" = 5%nat.
Proof. split; vm_compute; reflexivity. Qed.

(** ** getAllRepos *)

Section Pages.
Variable env : Env.
Variable github : GitHub.

Lemma seq_snoc (start len : nat) : seq start (S len) = seq start len ++ [(start + len)%nat].
Proof. now rewrite seq_S. Qed.

(** The loop, when it is given full pages and then a response that ends
    it. *)
Lemma getAllRepos_loop_pages (pages : list (list Repo)) (final : Response (list Repo)) :
  forall (fuel page : nat) (repos : list Repo) (w : World),
    Forall (fun p => List.length p = 100%nat) pages ->
    ends_pages final ->
    (forall (i : nat) (h : list Request), (i < List.length pages)%nat ->
       user_repos github h (page_request env (page + i)) = OK (nth i pages [])) ->
    (forall h : list Request,
       user_repos github h (page_request env (page + List.length pages)) = final) ->
    (List.length pages < fuel)%nat ->
    getAllRepos_loop env github fuel page repos w
    = (pages_outcome repos pages final,
       {| requests := requests w
                      ++ map (page_request env) (seq page (S (List.length pages)));
          console := console w; README := README w;
          README_writable := README_writable w |}).
Proof.
  induction pages as [| p pages IH]; intros fuel page repos w Hfull Hend Hpages Hfinal Hfuel;
    (destruct fuel as [| fuel]; [cbn [List.length] in Hfuel; lia |]);
    cbn [getAllRepos_loop]; unfold bind at 1, githubRequest at 1;
    fold (repos_path page); fold (page_request env page).
  - cbn [List.length] in Hfinal. rewrite Nat.add_0_r in Hfinal. rewrite Hfinal.
    unfold pages_outcome. cbn [List.concat app List.length seq map].
    destruct final as [last | body | statusCode data | error]; try reflexivity.
    cbn in Hend. apply Nat.eqb_neq in Hend. rewrite Hend. reflexivity.
  - pose proof (Hpages 0%nat (requests w) ltac:(cbn [List.length]; lia)) as H0.
    rewrite Nat.add_0_r in H0. cbn [nth] in H0. rewrite H0.
    inversion Hfull as [| ? ? Hp Hfull']; subst.
    rewrite Hp, Nat.eqb_refl.
    rewrite (IH fuel (S page)); try assumption.
    + f_equal.
      * unfold pages_outcome. destruct final as [last | | |]; try reflexivity.
        cbn [List.concat]. rewrite <- (app_assoc p (List.concat pages) last).
        rewrite (filter_app _ p). now rewrite app_assoc.
      * cbn [requests console README README_writable List.length seq map].
        now rewrite <- app_assoc.
    + intros i h Hi. replace (S page + i)%nat with (page + S i)%nat by lia.
      apply (Hpages (S i) h). cbn [List.length]. lia.
    + intros h.
      replace (S page + List.length pages)%nat
        with (page + List.length (p :: pages))%nat by (cbn [List.length]; lia).
      apply Hfinal.
    + cbn [List.length] in Hfuel. lia.
Qed.

(** The loop asks for consecutive pages and keeps no fork. *)
Lemma getAllRepos_loop_trace (fuel : nat) :
  forall (page : nat) (repos : list Repo) (w : World),
    Forall (fun repo => fork repo = false) repos ->
    exists k : nat,
      (k <= fuel)%nat /\
      snd (getAllRepos_loop env github fuel page repos w)
      = {| requests := requests w ++ map (page_request env) (seq page k);
           console := console w; README := README w;
          README_writable := README_writable w |} /\
      (forall result : list Repo,
         fst (getAllRepos_loop env github fuel page repos w) = Returned result ->
         (1 <= k)%nat /\ Forall (fun repo => fork repo = false) result).
Proof.
  induction fuel as [| fuel IH]; intros page repos w Hrepos.
  - exists 0%nat. cbn [getAllRepos_loop fst snd seq map].
    split; [lia |]. split; [| discriminate].
    rewrite app_nil_r. now destruct w.
  - cbn [getAllRepos_loop]. unfold bind, githubRequest.
    fold (repos_path page). fold (page_request env page).
    destruct (user_repos github (requests w) (page_request env page))
      as [data | body | statusCode body | error].
    + assert (Hrepos' : Forall (fun repo => fork repo = false)
                          (repos ++ filter (fun repo => negb (fork repo)) data)).
      { apply Forall_app. split; [assumption |].
        apply Forall_forall. intros repo Hin. apply filter_In in Hin.
        destruct Hin as [_ Hf]. now destruct (fork repo). }
      destruct (List.length data =? 100)%nat.
      * destruct (IH (S page) _
                    {| requests := requests w ++ [page_request env page];
                       console := console w; README := README w;
          README_writable := README_writable w |} Hrepos')
          as (k & Hk & Hw & Hres).
        exists (S k). split; [lia |]. split.
        -- rewrite Hw. cbn [requests console README README_writable seq map].
           now rewrite <- app_assoc.
        -- intros result Hr. destruct (Hres result Hr) as [_ Hf].
           split; [lia | exact Hf].
      * exists 1%nat. cbn [fst snd ret seq map]. split; [lia |].
        split; [reflexivity |].
        intros result Hr. injection Hr as <-. split; [lia | exact Hrepos'].
    + exists 1%nat. cbn [fst snd seq map]. split; [lia |].
      split; [reflexivity | discriminate].
    + exists 1%nat. cbn [fst snd seq map]. split; [lia |].
      split; [reflexivity | discriminate].
    + exists 1%nat. cbn [fst snd seq map]. split; [lia |].
      split; [reflexivity | discriminate].
Qed.

(** The loop does not end while the pages are full. *)
Lemma getAllRepos_loop_full (fuel : nat) :
  (forall (h : list Request) (r : Request),
     exists data : list Repo,
       user_repos github h r = OK data /\ List.length data = 100%nat) ->
  forall (page : nat) (repos : list Repo) (w : World),
    fst (getAllRepos_loop env github fuel page repos w) = OutOfFuel.
Proof.
  intros Hfull. induction fuel as [| fuel IH]; intros page repos w; [reflexivity |].
  cbn [getAllRepos_loop]. unfold bind at 1, githubRequest at 1.
  destruct (Hfull (requests w) (request_options env
              ("/user/repos?per_page=100&page=" ++ nat_text page
               ++ "&affiliation=owner,collaborator,organization_member")%string))
    as (data & -> & Hlen).
  rewrite Hlen, Nat.eqb_refl. apply IH.
Qed.
End Pages.

(** X8.  Pagination.  When the API answers the requests for the pages 1, 2, ...
    with full pages of 100 repositories and then with a page of another size
    (an empty page too), [getAllRepos] asks for exactly these pages, one
    request each and in this order, and returns the repositories of all of them
    that are not forks, in the order of the pages; it prints nothing and does
    not touch README.md. *)
Theorem getAllRepos_reads_pages_up_to_the_first_short_one (env : Env) (github : GitHub)
    (pages : list (list Repo)) (last : list Repo) (fuel : nat) (w : World) :
  Forall (fun p => List.length p = 100%nat) pages ->
  List.length last <> 100%nat ->
  (forall (i : nat) (h : list Request), (i <= List.length pages)%nat ->
     user_repos github h (page_request env (S i)) = OK (nth i (pages ++ [last]) [])) ->
  (List.length pages < fuel)%nat ->
  getAllRepos env github fuel w
  = (Returned (filter (fun repo => negb (fork repo)) (List.concat (pages ++ [last]))),
     {| requests := requests w
                    ++ map (page_request env) (seq 1 (S (List.length pages)));
        console := console w; README := README w;
          README_writable := README_writable w |}).
Proof.
  intros Hfull Hlast Hpages Hfuel. unfold getAllRepos.
  rewrite (getAllRepos_loop_pages env github pages (OK last)); try assumption.
  - unfold pages_outcome. cbn [app].
    now rewrite concat_app; cbn [List.concat]; rewrite app_nil_r.
  - intros i h Hi. cbn [Nat.add]. rewrite (Hpages i h) by lia.
    now rewrite app_nth1.
  - intros h. cbn [Nat.add]. rewrite (Hpages (List.length pages) h) by lia.
    now rewrite nth_middle.
Qed.

(** An instance: 100 repositories on the first page, a fork and one more
    repository on the second. *)
Lemma getAllRepos_reads_pages_up_to_the_first_short_one_witness :
  fst (getAllRepos example_env paged_github 5 example_world)
  = Returned (repeat (example_repo "app") 100 ++ [example_repo "site"]) /\
  map path (requests (snd (getAllRepos example_env paged_github 5 example_world)))
  = [repos_path 1; repos_path 2].
Proof.
  rewrite (getAllRepos_reads_pages_up_to_the_first_short_one example_env paged_github
             [repeat (example_repo "app") 100]
             [ {| owner_login := "octocat"; repo_name := "linux"; fork := true |};
               example_repo "site" ]
             5 example_world).
  - split; reflexivity.
  - constructor; [reflexivity | constructor].
  - discriminate.
  - intros [| [| i]] h Hi; [reflexivity | reflexivity | cbn in Hi; lia].
  - cbn. lia.
Defined.

(** X9.  Whatever the API answers, [getAllRepos] asks for the pages 1, 2, ...
    in this order, one request each, prints nothing and leaves README.md alone;
    and when it returns, it has made at least one request and no repository
    that it returns is a fork. *)
Theorem getAllRepos_asks_consecutive_pages_and_returns_no_fork (env : Env)
    (github : GitHub) (fuel : nat) (w : World) :
  exists k : nat,
    (k <= fuel)%nat /\
    snd (getAllRepos env github fuel w)
    = {| requests := requests w ++ map (page_request env) (seq 1 k);
         console := console w; README := README w;
          README_writable := README_writable w |} /\
    (forall repos : list Repo,
       fst (getAllRepos env github fuel w) = Returned repos ->
       (1 <= k)%nat /\ Forall (fun repo => fork repo = false) repos).
Proof. apply getAllRepos_loop_trace. constructor. Qed.

Lemma getAllRepos_asks_consecutive_pages_and_returns_no_fork_witness :
  Forall (fun repo => fork repo = false)
         (repeat (example_repo "app") 100 ++ [example_repo "site"]).
Proof.
  destruct (getAllRepos_asks_consecutive_pages_and_returns_no_fork
              example_env paged_github 5 example_world) as (k & _ & _ & H).
  exact (proj2 (H (repeat (example_repo "app") 100 ++ [example_repo "site"]) eq_refl)).
Defined.

(** X10.  [getAllRepos] stops only at a page that does not hold exactly 100
    repositories: against an API whose every page is full it does not end,
    however many pages it is allowed to read. *)
Theorem getAllRepos_does_not_end_on_full_pages (env : Env) (github : GitHub) :
  (forall (h : list Request) (r : Request),
     exists data : list Repo,
       user_repos github h r = OK data /\ List.length data = 100%nat) ->
  forall (fuel : nat) (w : World), fst (getAllRepos env github fuel w) = OutOfFuel.
Proof.
  intros Hfull fuel w. unfold getAllRepos. now apply getAllRepos_loop_full.
Qed.

Lemma getAllRepos_does_not_end_on_full_pages_witness :
  fst (getAllRepos example_env endless_github 7 example_world) = OutOfFuel.
Proof.
  refine (getAllRepos_does_not_end_on_full_pages example_env endless_github _ 7
            example_world).
  intros h r. exists (repeat (example_repo "app") 100). split; reflexivity.
Defined.
(** ** The run as a whole *)

(** *** README.md is left alone until the end *)

Lemma keeps_ret {A : Type} (a : A) : keeps_file (ret a).
Proof. intros w. split; reflexivity. Qed.

Lemma keeps_throw {A : Type} (e : Error) : keeps_file (@throw A e).
Proof. intros w. split; reflexivity. Qed.

Lemma keeps_console_log (text : string) : keeps_file (console_log text).
Proof. intros w. split; reflexivity. Qed.

Lemma keeps_bind {A B : Type} (m : M A) (k : A -> M B) :
  keeps_file m -> (forall a, keeps_file (k a)) -> keeps_file (bind m k).
Proof.
  intros Hm Hk w. unfold bind. destruct (Hm w) as [E1 E2].
  destruct (m w) as [[a | e | | e] w1]; cbn [snd] in *; try now split.
  destruct (Hk a w1) as [E1' E2']. split; congruence.
Qed.

Lemma keeps_try_catch {A : Type} (m handler : M A) :
  keeps_file m -> keeps_file handler -> keeps_file (try_catch m handler).
Proof.
  intros Hm Hh w. unfold try_catch. destruct (Hm w) as [E1 E2].
  destruct (m w) as [[a | e | | e] w1]; cbn [snd] in *; try now split.
  destruct (Hh w1) as [E1' E2']. split; congruence.
Qed.

Lemma keeps_githubRequest {A : Type} (env : Env) (github : GitHub)
    (endpoint : GitHub -> list Request -> Request -> Response A) (path : string) :
  keeps_file (githubRequest env github endpoint path).
Proof. intros w. rewrite githubRequest_world. split; reflexivity. Qed.

Create HintDb keeps.
#[global] Hint Resolve keeps_ret keeps_throw keeps_console_log keeps_githubRequest
  : keeps.

(** Splits a computation at its binds, handlers and tests. *)
Ltac keeps_steps :=
  repeat first
    [ solve [auto with keeps]
    | apply keeps_bind; [| intros ?]
    | apply keeps_try_catch
    | match goal with
      | |- keeps_file (if ?b then _ else _) => destruct b
      end ].

Lemma keeps_getAllRepos (env : Env) (github : GitHub) (fuel : nat) :
  keeps_file (getAllRepos env github fuel).
Proof.
  unfold getAllRepos. generalize 1%nat, (@nil Repo).
  induction fuel as [| fuel IH]; intros page repos; cbn [getAllRepos_loop].
  - intros w. split; reflexivity.
  - keeps_steps.
Qed.

Lemma keeps_fetch_dates (env : Env) (github : GitHub) (repos : list Repo) :
  forall allDates : list isoDate, keeps_file (fetch_dates env github allDates repos).
Proof.
  induction repos as [| repo repos IH]; intros allDates; cbn [fetch_dates];
    unfold getCommitActivity; keeps_steps.
Qed.

Lemma keeps_fetch_languages (env : Env) (github : GitHub) (repos : list Repo) :
  forall languages : list (string * value),
    keeps_file (fetch_languages env github languages repos).
Proof.
  induction repos as [| repo repos IH]; intros languages; cbn [fetch_languages];
    unfold fetch_repo_languages; keeps_steps.
Qed.

Lemma keeps_log_lines (lines : list string) : keeps_file (log_lines lines).
Proof. induction lines as [| l lines IH]; cbn [log_lines]; keeps_steps. Qed.

Lemma keeps_getLanguageStats (env : Env) (github : GitHub) (repos : list Repo) :
  keeps_file (getLanguageStats env github repos).
Proof.
  unfold getLanguageStats.
  pose proof (keeps_fetch_languages env github repos).
  pose proof keeps_log_lines. keeps_steps.
Qed.

#[global] Hint Resolve keeps_getAllRepos keeps_fetch_dates keeps_getLanguageStats
  : keeps.

Lemma keeps_world {A : Type} (m : M A) (w w' : World) (r : Outcome A) :
  keeps_file m -> m w = (r, w') ->
  README w' = README w /\ README_writable w' = README_writable w.
Proof. intros Hm E. specialize (Hm w). now rewrite E in Hm. Qed.

Lemma writes_last_bind {A B : Type} (m : M A) (k : A -> M B) :
  keeps_file m -> (forall a, writes_last (k a)) -> writes_last (bind m k).
Proof.
  intros Hm Hk w. unfold bind. destruct (Hm w) as [E1 _].
  destruct (m w) as [[a | e | | e] w1]; cbn [snd] in *; try now right.
  destruct (Hk a w1) as [H | H]; [now left | right; congruence].
Qed.

Section Stages.
Variable env : Env.
Variable github : GitHub.
Variable zone : TimeZone.

Lemma main_parts (fuel : nat) (now : Z) (nowUTC : string) (w : World) :
  main env github zone fuel now nowUTC w
  = bind (getAllRepos env github fuel) (after_repos env github zone now nowUTC)
         (logged "Fetching repositories..." w).
Proof. reflexivity. Qed.

Lemma after_repos_parts (now : Z) (nowUTC : string) (repos : list Repo) (w : World) :
  after_repos env github zone now nowUTC repos w
  = bind (fetch_dates env github [] repos)
         (after_dates env github zone now nowUTC repos)
         (logged "Fetching commit data..."
            (logged ("Found " ++ nat_text (List.length repos) ++ " repositories") w)).
Proof. reflexivity. Qed.

Lemma after_dates_parts (now : Z) (nowUTC : string) (repos : list Repo)
    (allDates : list isoDate) (w : World) :
  after_dates env github zone now nowUTC repos allDates w
  = bind (getLanguageStats env github repos) (after_stats zone now nowUTC allDates)
         (logged "Calculating statistics..." w).
Proof. reflexivity. Qed.

(** The last part of [main] makes no request, and writes the file only when
    it returns. *)
Lemma after_stats_requests (now : Z) (nowUTC : string) (allDates : list isoDate)
    (languageStats : list LanguageStat) (w : World) :
  requests (snd (after_stats zone now nowUTC allDates languageStats w)) = requests w.
Proof.
  unfold after_stats, bind, readFileSync, writeFileSync.
  destruct (README w); [| reflexivity].
  destruct (languagesContent languageStats); [| reflexivity].
  destruct (README_writable w); reflexivity.
Qed.

Lemma writes_last_after_stats (now : Z) (nowUTC : string) (allDates : list isoDate)
    (languageStats : list LanguageStat) :
  writes_last (after_stats zone now nowUTC allDates languageStats).
Proof.
  intros w. unfold after_stats, bind, readFileSync, writeFileSync.
  destruct (README w) eqn:E; [| right; exact E].
  destruct (languagesContent languageStats); [| right; exact E].
  destruct (README_writable w); [left; exists tt; reflexivity | right; exact E].
Qed.

Lemma writes_last_main (fuel : nat) (now : Z) (nowUTC : string) :
  writes_last (main env github zone fuel now nowUTC).
Proof.
  unfold main.
  do 4 (apply writes_last_bind; [solve [auto with keeps] | intros ?]).
  apply writes_last_bind; [solve [auto with keeps] | intros allDates].
  apply writes_last_bind; [solve [auto with keeps] | intros ?].
  apply writes_last_bind; [solve [auto with keeps] | intros languageStats].
  exact (writes_last_after_stats now nowUTC allDates languageStats).
Qed.

(** [main] stops where [getAllRepos] does. *)
Lemma main_stops (fuel : nat) (now : Z) (nowUTC : string) (w w1 : World) :
  (forall e : Error,
     getAllRepos env github fuel (logged "Fetching repositories..." w) = (Thrown e, w1) ->
     main env github zone fuel now nowUTC w = (Thrown e, w1)) /\
  (getAllRepos env github fuel (logged "Fetching repositories..." w) = (OutOfFuel, w1) ->
   main env github zone fuel now nowUTC w = (OutOfFuel, w1)).
Proof.
  split; [intros e H | intros H]; rewrite main_parts; unfold bind at 1; now rewrite H.
Qed.

(** One request for the commits of each repository, whether it fails or
    not, when the answers parse. *)
Lemma fetch_dates_trace (repos : list Repo) :
  commits_parse github ->
  forall (allDates : list isoDate) (w : World),
  exists (dates : list isoDate) (w' : World),
    fetch_dates env github allDates repos w = (Returned dates, w') /\
    requests w' = requests w ++ map (commits_request env) repos.
Proof.
  intros Hparse.
  induction repos as [| repo repos IH]; intros allDates w.
  - exists allDates, w. cbn [map]. now rewrite app_nil_r.
  - cbn [fetch_dates]. unfold bind at 1.
    assert (H : exists (commits : list Commit) (w1 : World),
              getCommitActivity env github (owner_login repo) (repo_name repo) w
              = (Returned commits, w1) /\
              requests w1 = requests w ++ [commits_request env repo]).
    { unfold getCommitActivity, try_catch, githubRequest.
      fold (commits_request env repo).
      pose proof (Hparse (requests w) (commits_request env repo)) as Hp.
      destruct (repo_commits github (requests w) (commits_request env repo));
        [| contradiction | |]; eexists; eexists; (split; reflexivity). }
    destruct H as (commits & w1 & -> & Hreq).
    destruct (IH (allDates
                  ++ flat_map (fun commit =>
                                 match author_date commit with
                                 | Some date => [date]
                                 | None => []
                                 end) commits) w1)
      as (dates & w' & E & Hreq').
    exists dates, w'. split; [exact E |].
    rewrite Hreq', Hreq. cbn [map]. now rewrite <- app_assoc.
Qed.

Lemma fetch_repo_languages_trace (languages : list (string * value)) (repo : Repo)
    (w : World) :
  languages_parse github ->
  exists (languages' : list (string * value)) (w' : World),
    fetch_repo_languages env github languages repo w = (Returned languages', w') /\
    requests w' = requests w ++ [languages_request env repo].
Proof.
  intros Hparse.
  unfold fetch_repo_languages, try_catch, bind, githubRequest.
  fold (languages_request env repo).
  pose proof (Hparse (requests w) (languages_request env repo)) as Hp.
  destruct (repo_languages github (requests w) (languages_request env repo))
    as [repoLangs | body | statusCode data | error].
  - destruct (0 <? _)%nat; eexists; eexists; (split; reflexivity).
  - contradiction.
  - eexists; eexists; (split; reflexivity).
  - eexists; eexists; (split; reflexivity).
Qed.

Lemma fetch_languages_trace (repos : list Repo) :
  languages_parse github ->
  forall (languages : list (string * value)) (w : World),
  exists (languages' : list (string * value)) (w' : World),
    fetch_languages env github languages repos w = (Returned languages', w') /\
    requests w' = requests w ++ map (languages_request env) repos.
Proof.
  intros Hparse.
  induction repos as [| repo repos IH]; intros languages w.
  - exists languages, w. cbn [map]. now rewrite app_nil_r.
  - cbn [fetch_languages]. unfold bind at 1.
    destruct (fetch_repo_languages_trace languages repo w Hparse)
      as (languages1 & w1 & -> & Hreq).
    destruct (IH languages1 w1) as (languages' & w' & E & Hreq').
    exists languages', w'. split; [exact E |].
    rewrite Hreq', Hreq. cbn [map]. now rewrite <- app_assoc.
Qed.

Lemma log_lines_trace (lines : list string) :
  forall w : World,
  exists w' : World,
    log_lines lines w = (Returned tt, w') /\ requests w' = requests w.
Proof.
  induction lines as [| l lines IH]; intros w.
  - exists w. now split.
  - cbn [log_lines]. unfold bind, console_log.
    destruct (IH {| requests := requests w; console := console w ++ [Log l];
                    README := README w; README_writable := README_writable w |})
      as (w' & E & Hreq).
    exists w'. now split.
Qed.

Lemma getLanguageStats_trace (repos : list Repo) (w : World) :
  languages_parse github ->
  exists (stats : list LanguageStat) (w' : World),
    getLanguageStats env github repos w = (Returned stats, w') /\
    requests w' = requests w ++ map (languages_request env) repos.
Proof.
  intros Hparse.
  unfold getLanguageStats. unfold bind at 1.
  destruct (fetch_languages_trace repos Hparse [] w) as (languages & w1 & -> & Hreq).
  unfold bind at 1. unfold console_log at 1. unfold bind at 1.
  match goal with
  | |- context [log_lines ?lines ?w2] =>
      destruct (log_lines_trace lines w2) as (w3 & -> & Hreq3)
  end.
  cbn [requests] in Hreq3.
  eexists. exists w3. split; [reflexivity | congruence].
Qed.

(** [main], stage by stage, when the answers parse. *)
Lemma main_stages (fuel : nat) (now : Z) (nowUTC : string) (w : World)
    (repos : list Repo) (w1 : World) :
  commits_parse github -> languages_parse github ->
  getAllRepos env github fuel (logged "Fetching repositories..." w) = (Returned repos, w1) ->
  exists (dates : list isoDate) (w2 w3 : World),
    fetch_dates env github [] repos
      (logged "Fetching commit data..."
         (logged ("Found " ++ nat_text (List.length repos) ++ " repositories") w1))
    = (Returned dates, w2) /\
    getLanguageStats env github repos (logged "Calculating statistics..." w2)
    = (Returned (top_languages
                   (fold_left add_language
                      (language_entries env github repos
                         (logged "Calculating statistics..." w2)) [])), w3) /\
    requests w2 = requests w1 ++ map (commits_request env) repos /\
    requests w3 = requests w2 ++ map (languages_request env) repos /\
    README w3 = README w /\ README_writable w3 = README_writable w /\
    main env github zone fuel now nowUTC w
    = after_stats zone now nowUTC dates
        (top_languages
           (fold_left add_language
              (language_entries env github repos
                 (logged "Calculating statistics..." w2)) []))
        w3.
Proof.
  intros Hcommits Hlanguages H1.
  destruct (keeps_world _ _ _ _ (keeps_getAllRepos env github fuel) H1) as [Hr1 Hp1].
  destruct (fetch_dates_trace repos Hcommits []
              (logged "Fetching commit data..."
                 (logged ("Found " ++ nat_text (List.length repos) ++ " repositories") w1)))
    as (dates & w2 & H2 & Hq2).
  destruct (keeps_world _ _ _ _ (keeps_fetch_dates env github repos []) H2) as [Hr2 Hp2].
  destruct (getLanguageStats_spec env github repos
              (logged "Calculating statistics..." w2) Hlanguages)
    as (w3 & H3).
  destruct (getLanguageStats_trace repos (logged "Calculating statistics..." w2)
              Hlanguages)
    as (stats & w3' & H3' & Hq3).
  rewrite H3 in H3'. injection H3' as _ <-.
  destruct (keeps_world _ _ _ _ (keeps_getLanguageStats env github repos) H3)
    as [Hr3 Hp3].
  exists dates, w2, w3.
  split; [exact H2 |]. split; [exact H3 |].
  split; [exact Hq2 |]. split; [exact Hq3 |].
  cbn [logged console_log snd README README_writable] in Hr1, Hp1, Hr2, Hp2, Hr3, Hp3.
  split; [congruence |]. split; [congruence |].
  rewrite main_parts. unfold bind at 1. rewrite H1.
  rewrite after_repos_parts. unfold bind at 1. rewrite H2.
  rewrite after_dates_parts. unfold bind at 1. rewrite H3.
  reflexivity.
Qed.
End Stages.

(** *** The fragment of the languages is always defined *)

Lemma included_bytes_nonneg (entries : list (string * N)) : 0 <= included_bytes entries.
Proof.
  unfold included_bytes. apply Zsum_nonneg.
  apply Forall_forall. intros b Hb. apply in_map_iff in Hb.
  destruct Hb as (e & <- & _). lia.
Qed.

Lemma language_line_defined (s : LanguageStat) :
  percentage s = FNaN \/ is_percentage s ->
  exists line : string, language_line s = Some line.
Proof.
  unfold language_line. intros [H | (t & H & Ht)]; rewrite H.
  - change (generateProgressBar (parseFloat FNaN) 20) with (Some ""). eauto.
  - rewrite (bar_of_tenths t Ht). eauto.
Qed.

Lemma map_option_defined {A B : Type} (f : A -> option B) (l : list A) :
  Forall (fun x => exists y, f x = Some y) l -> exists l', map_option f l = Some l'.
Proof.
  induction 1 as [| x l (y & Hy) _ (l' & IH)]; cbn [map_option].
  - now exists [].
  - rewrite Hy, IH. now exists (y :: l').
Qed.

(** No percentage that the script computes makes [repeat] fail. *)
Lemma top_languages_content (entries : list (string * N)) :
  plain_names entries ->
  included_bytes entries < 2 ^ 53 ->
  exists content : string,
    languagesContent (top_languages (fold_left add_language entries [])) = Some content.
Proof.
  intros Hplain Hlt.
  assert (Hall : Forall (fun s => exists line, language_line s = Some line)
                        (top_languages (fold_left add_language entries []))).
  { apply Forall_forall. intros s Hs. apply language_line_defined.
    unfold top_languages in Hs. apply firstn_incl in Hs.
    rewrite (ranked_as_exact entries Hplain Hlt) in Hs.
    apply (Permutation_in _ (ranked_exact_perm _)) in Hs.
    rewrite table_total in Hs.
    destruct (Z.eq_dec (included_bytes entries) 0) as [H0 | Hne].
    - left. apply in_map_iff in Hs. destruct Hs as ([lang b] & <- & Hin).
      destruct (exact_table_entry entries lang b Hin) as (_ & _ & Hb).
      rewrite table_total, H0 in Hb. rewrite H0.
      assert (b = 0) by lia. subst b. reflexivity.
    - right. pose proof (included_bytes_nonneg entries) as Hnn.
      assert (Htotal : 0 < included_bytes entries < 2 ^ 53) by lia.
      pose proof (stats_are_percentages entries Htotal) as Hp.
      rewrite Forall_forall in Hp. now apply Hp. }
  destruct (map_option_defined _ _ Hall) as (lines & E).
  unfold languagesContent. rewrite E. cbn [option_map]. eauto.
Qed.

(** *** What a run asks, writes and prints *)

Lemma run_of_main (env : Env) (github : GitHub) (zone : TimeZone) (fuel : nat)
    (now : Z) (nowUTC : string) (w w' : World) (r : Outcome unit) :
  main env github zone fuel now nowUTC w = (r, w') ->
  requests (snd (run env github zone fuel now nowUTC w)) = requests w' /\
  README (snd (run env github zone fuel now nowUTC w)) = README w' /\
  fst (run env github zone fuel now nowUTC w)
  = match r with
    | Returned _ => Some 0
    | Thrown _ => Some 1
    | OutOfFuel => None
    | Died _ => Some 1
    end.
Proof. intros H. unfold run. rewrite H. destruct r; repeat split. Qed.

(** A run in which every stage comes through ends with status 0. *)
Lemma run_succeeds (env : Env) (github : GitHub) (zone : TimeZone) (fuel : nat)
    (now : Z) (nowUTC : string) (w : World) (repos : list Repo) (w1 : World) :
  commits_parse github -> languages_parse github ->
  getAllRepos env github fuel (logged "Fetching repositories..." w)
  = (Returned repos, w1) ->
  README w <> None -> README_writable w = true ->
  plain_names (language_entries env github repos
                 (world_at_languages env github repos w1)) ->
  included_bytes (language_entries env github repos
                    (world_at_languages env github repos w1)) < 2 ^ 53 ->
  fst (run env github zone fuel now nowUTC w) = Some 0.
Proof.
  intros Hcommits Hlanguages H1 Hreadme Hwritable Hplain Hbytes.
  destruct (main_stages env github zone fuel now nowUTC w repos w1
              Hcommits Hlanguages H1)
    as (dates & w2 & w3 & H2 & _ & _ & _ & Hr3 & Hp3 & Hmain).
  unfold world_at_languages in Hplain, Hbytes. rewrite H2 in Hplain, Hbytes.
  cbn [snd] in Hplain, Hbytes.
  destruct (top_languages_content _ Hplain Hbytes) as (content & Hcontent).
  unfold run. rewrite Hmain.
  unfold after_stats, bind, readFileSync, writeFileSync.
  rewrite Hr3. destruct (README w) as [text |]; [| contradiction].
  cbv beta iota. rewrite Hcontent, Hp3, Hwritable. reflexivity.
Qed.

(** X11.  The requests of a run in which the bodies of the answers with
    status 200 parse.  A run that gets the list of the repositories makes one
    request for each page of that list, then one request for the commits of
    each repository, then one request for the languages of each repository, in
    the order of the list, whether these requests are refused or not: no
    request is repeated and none is left out.  This holds also when the run
    fails afterwards, for want of README.md. *)
Theorem run_makes_one_request_per_page_and_two_per_repository (env : Env)
    (github : GitHub) (zone : TimeZone) (fuel : nat) (now : Z) (nowUTC : string)
    (w : World) (repos : list Repo) (w1 : World) :
  commits_parse github -> languages_parse github ->
  getAllRepos env github fuel (logged "Fetching repositories..." w)
  = (Returned repos, w1) ->
  exists k : nat,
    (1 <= k <= fuel)%nat /\
    requests (snd (run env github zone fuel now nowUTC w))
    = requests w ++ map (page_request env) (seq 1 k)
      ++ map (commits_request env) repos
      ++ map (languages_request env) repos.
Proof.
  intros Hcommits Hlanguages H1.
  destruct (getAllRepos_loop_trace env github fuel 1 []
              (logged "Fetching repositories..." w) (Forall_nil _))
    as (k & Hk & Hw & Hres).
  fold (getAllRepos env github fuel) in Hw, Hres. rewrite H1 in Hw, Hres.
  cbn [fst snd] in Hw, Hres. destruct (Hres repos eq_refl) as [Hk1 _].
  exists k. split; [lia |].
  destruct (main_stages env github zone fuel now nowUTC w repos w1 Hcommits Hlanguages H1)
    as (dates & w2 & w3 & _ & _ & Hq2 & Hq3 & _ & _ & Hmain).
  match type of Hmain with
  | _ = after_stats _ _ _ _ ?s _ => set (stats := s) in *
  end.
  pose proof (after_stats_requests zone now nowUTC dates stats w3) as Hq4.
  destruct (after_stats zone now nowUTC dates stats w3) as [r w4].
  destruct (run_of_main env github zone fuel now nowUTC w w4 r Hmain) as (-> & _ & _).
  cbn [snd] in Hq4.
  rewrite Hq4, Hq3, Hq2, Hw. cbn [requests logged console_log snd].
  now rewrite <- !app_assoc.
Qed.

(** An instance: two repositories, of which one has no commits to list and
    no languages to reach. *)
Lemma run_makes_one_request_per_page_and_two_per_repository_witness :
  exists k : nat,
    (1 <= k <= 5)%nat /\
    requests (snd (run example_env failing_github utc 5 (19723 * msPerDay)
                       "Mon, 01 Jan 2024 00:00:00 GMT" example_world))
    = requests example_world ++ map (page_request example_env) (seq 1 k)
      ++ map (commits_request example_env) [example_repo "empty"; example_repo "site"]
      ++ map (languages_request example_env) [example_repo "empty"; example_repo "site"].
Proof.
  refine (run_makes_one_request_per_page_and_two_per_repository example_env
            failing_github utc 5 (19723 * msPerDay) "Mon, 01 Jan 2024 00:00:00 GMT"
            example_world [example_repo "empty"; example_repo "site"] _ _ _ _).
  - intros h r. cbn. now destruct (String.eqb _ _).
  - intros h r. cbn. now destruct (String.eqb _ _).
  - reflexivity.
Defined.

(** X12.  The file is written last.  A run that does not end with status 0,
    because a request for a page of repositories fails, because README.md
    cannot be read, or because it does not end at all, leaves README.md as it
    was. *)
Theorem run_writes_README_only_when_it_succeeds (env : Env) (github : GitHub)
    (zone : TimeZone) (fuel : nat) (now : Z) (nowUTC : string) (w : World) :
  fst (run env github zone fuel now nowUTC w) <> Some 0 ->
  README (snd (run env github zone fuel now nowUTC w)) = README w.
Proof.
  intros Hexit.
  destruct (main env github zone fuel now nowUTC w) as [r w'] eqn:Hmain.
  destruct (run_of_main env github zone fuel now nowUTC w w' r Hmain)
    as (_ & Hreadme & Hstatus).
  rewrite Hreadme.
  destruct (writes_last_main env github zone fuel now nowUTC w) as [(a & Ha) | H].
  - rewrite Hmain in Ha. cbn [fst] in Ha. subst r. contradiction.
  - now rewrite Hmain in H.
Qed.

(** An instance: the API refuses the token. *)
Lemma run_writes_README_only_when_it_succeeds_witness :
  README (snd (run empty_env
                 {| user_repos := fun _ _ => Status 401 "Bad credentials";
                    repo_commits := fun _ _ => OK [];
                    repo_languages := fun _ _ => OK [] |}
                 utc 3 0 "Thu, 01 Jan 1970 00:00:00 GMT" example_world))
  = README example_world.
Proof.
  refine (run_writes_README_only_when_it_succeeds empty_env
            {| user_repos := fun _ _ => Status 401 "Bad credentials";
               repo_commits := fun _ _ => OK [];
               repo_languages := fun _ _ => OK [] |}
            utc 3 0 "Thu, 01 Jan 1970 00:00:00 GMT" example_world _).
  discriminate.
Defined.

(** X13.  A run that succeeds.  When the list of the repositories has come,
    the dates and the statistics have been collected, README.md can be read
    and written, the languages have plain names, none an array index and none
    a property that objects inherit, and their bytes sum to less than 2^53,
    the run ends with status 0: no percentage makes the progress bar fail.  It
    writes README.md once, with the sections computed from the dates and the
    statistics collected, and prints its last line. *)
Theorem run_updates_README (env : Env) (github : GitHub) (zone : TimeZone)
    (fuel : nat) (now : Z) (nowUTC : string) (w : World) (text : string)
    (repos : list Repo) (dates : list isoDate) (stats : list LanguageStat)
    (w1 w2 w3 : World) :
  README w = Some text ->
  README_writable w = true ->
  getAllRepos env github fuel (logged "Fetching repositories..." w)
  = (Returned repos, w1) ->
  fetch_dates env github [] repos
    (logged "Fetching commit data..."
       (logged ("Found " ++ nat_text (List.length repos) ++ " repositories") w1))
  = (Returned dates, w2) ->
  getLanguageStats env github repos (logged "Calculating statistics..." w2)
  = (Returned stats, w3) ->
  plain_names
    (language_entries env github repos (logged "Calculating statistics..." w2)) ->
  included_bytes
    (language_entries env github repos (logged "Calculating statistics..." w2))
  < 2 ^ 53 ->
  exists content : string,
    languagesContent stats = Some content /\
    run env github zone fuel now nowUTC w
    = (Some 0,
       {| requests := requests w3;
          console := console w3 ++ [Log "README.md updated successfully!"];
          README := Some (update_readme (calculateStreaks zone now dates)
                            (calculateYearlyStats zone dates) content nowUTC text);
          README_writable := true |}).
Proof.
  intros Hreadme Hwritable H1 H2 H3 Hplain Hbytes.
  destruct (keeps_world _ _ _ _ (keeps_getAllRepos env github fuel) H1) as [Hr1 Hp1].
  destruct (keeps_world _ _ _ _ (keeps_fetch_dates env github repos []) H2) as [Hr2 Hp2].
  destruct (keeps_world _ _ _ _ (keeps_getLanguageStats env github repos) H3)
    as [Hr3 Hp3].
  cbn [logged console_log snd README README_writable] in Hr1, Hp1, Hr2, Hp2, Hr3, Hp3.
  destruct (top_languages_content _ Hplain Hbytes) as (content & Hcontent).
  destruct (getLanguageStats_outcome env github repos
              (logged "Calculating statistics..." w2)) as (w3' & [E | (e & E)]);
    rewrite H3 in E; [| discriminate].
  injection E as Es _. subst stats.
  exists content. split; [exact Hcontent |].
  unfold run. rewrite main_parts. unfold bind at 1. rewrite H1.
  rewrite after_repos_parts. unfold bind at 1. rewrite H2.
  rewrite after_dates_parts. unfold bind at 1. rewrite H3.
  unfold after_stats, bind, readFileSync, writeFileSync.
  assert (Er : README w3 = Some text) by congruence.
  assert (Ep : README_writable w3 = true) by congruence.
  rewrite Er. cbv beta iota. rewrite Hcontent, Ep. reflexivity.
Qed.

(** An instance: one repository with one commit and two languages. *)
Lemma run_updates_README_witness :
  fst (run example_env (example_github [("Go", 30%N); ("HTML", 10%N)]) utc 5
           (19723 * msPerDay) "Mon, 01 Jan 2024 00:00:00 GMT" example_world)
  = Some 0.
Proof.
  edestruct (run_updates_README example_env
               (example_github [("Go", 30%N); ("HTML", 10%N)]) utc 5
               (19723 * msPerDay) "Mon, 01 Jan 2024 00:00:00 GMT" example_world)
    as (content & _ & E).
  - reflexivity.
  - reflexivity.
  - vm_compute. reflexivity.
  - vm_compute. reflexivity.
  - vm_compute. reflexivity.
  - repeat constructor.
  - vm_compute. reflexivity.
  - rewrite E. reflexivity.
Defined.

(** X14.  A run without README.md, in which the bodies of the answers with
    status 200 parse.  When the file cannot be read, a run that gets the list
    of the repositories still makes all its requests, then fails: it prints
    the error, ends with status 1 and does not create the file. *)
Theorem run_without_README_fails_after_the_requests (env : Env) (github : GitHub)
    (zone : TimeZone) (fuel : nat) (now : Z) (nowUTC : string) (w : World)
    (repos : list Repo) (w1 : World) :
  commits_parse github -> languages_parse github ->
  README w = None ->
  getAllRepos env github fuel (logged "Fetching repositories..." w)
  = (Returned repos, w1) ->
  exists lines : list ConsoleLine,
    run env github zone fuel now nowUTC w
    = (Some 1,
       {| requests := requests w1 ++ map (commits_request env) repos
                      ++ map (languages_request env) repos;
          console := lines ++ [ErrorLine ENOENT];
          README := None;
          README_writable := README_writable w |}).
Proof.
  intros Hcommits Hlanguages Hreadme H1.
  destruct (main_stages env github zone fuel now nowUTC w repos w1 Hcommits Hlanguages H1)
    as (dates & w2 & w3 & _ & _ & Hq2 & Hq3 & Hr3 & Hp3 & Hmain).
  exists (console w3). unfold run. rewrite Hmain.
  unfold after_stats, bind, readFileSync. rewrite Hr3, Hreadme.
  cbn [requests console README README_writable]. rewrite Hr3, Hreadme, Hp3, Hq3, Hq2.
  now rewrite <- app_assoc.
Qed.

Lemma run_without_README_fails_after_the_requests_witness :
  fst (run example_env (example_github [("Go", 30%N)]) utc 5 (19723 * msPerDay)
           "Mon, 01 Jan 2024 00:00:00 GMT"
           {| requests := []; console := []; README := None;
              README_writable := true |})
  = Some 1.
Proof.
  edestruct (run_without_README_fails_after_the_requests example_env
               (example_github [("Go", 30%N)]) utc 5 (19723 * msPerDay)
               "Mon, 01 Jan 2024 00:00:00 GMT"
               {| requests := []; console := []; README := None;
                  README_writable := true |})
    as (lines & E).
  - intros h r. exact I.
  - intros h r. exact I.
  - reflexivity.
  - vm_compute. reflexivity.
  - rewrite E. reflexivity.
Defined.

(** X15.  No partial list of repositories.  When the pages 1 to n come full and
    the request for page n + 1 fails, the run stops there: it has made these n
    + 1 requests and none for a commit or a language, it prints the error, ends
    with status 1 and leaves README.md as it was.  The repositories of the
    pages that came are not used. *)
Theorem run_stops_when_a_page_of_repositories_fails (env : Env) (github : GitHub)
    (zone : TimeZone) (pages : list (list Repo)) (final : Response (list Repo)) (e : Error)
    (fuel : nat) (now : Z) (nowUTC : string) (w : World) :
  Forall (fun p => List.length p = 100%nat) pages ->
  (forall (i : nat) (h : list Request), (i < List.length pages)%nat ->
     user_repos github h (page_request env (S i)) = OK (nth i pages [])) ->
  (forall h : list Request,
     user_repos github h (page_request env (S (List.length pages))) = final) ->
  response_error final = Some e ->
  (List.length pages < fuel)%nat ->
  run env github zone fuel now nowUTC w
  = (Some 1,
     {| requests := requests w
                    ++ map (page_request env) (seq 1 (S (List.length pages)));
        console := console w ++ [Log "Fetching repositories..."; ErrorLine e];
        README := README w; README_writable := README_writable w |}).
Proof.
  intros Hfull Hpages Hfinal He Hfuel.
  assert (H1 : getAllRepos env github fuel (logged "Fetching repositories..." w)
               = (Thrown e,
                  {| requests := requests w
                                 ++ map (page_request env) (seq 1 (S (List.length pages)));
                     console := console w ++ [Log "Fetching repositories..."];
                     README := README w; README_writable := README_writable w |})).
  { unfold getAllRepos.
    rewrite (getAllRepos_loop_pages env github pages final); try assumption.
    - f_equal. destruct final; cbn in He; try discriminate; now injection He as <-.
    - destruct final; cbn in He; try discriminate; exact I. }
  unfold run.
  rewrite (proj1 (main_stops env github zone fuel now nowUTC w _) e H1).
  cbn [requests console README README_writable]. now rewrite <- app_assoc.
Qed.

(** An instance: the second page of [paged_github] is replaced by a
    failure. *)
Lemma run_stops_when_a_page_of_repositories_fails_witness :
  fst (run example_env
         {| user_repos := fun _ request =>
              if String.eqb (path request) (repos_path 1)
              then OK (repeat (example_repo "app") 100)
              else Status 502 "Bad Gateway";
            repo_commits := fun _ _ => OK [];
            repo_languages := fun _ _ => OK [] |}
         utc 5 0 "Thu, 01 Jan 1970 00:00:00 GMT" example_world)
  = Some 1.
Proof.
  rewrite (run_stops_when_a_page_of_repositories_fails example_env
             {| user_repos := fun _ request =>
                  if String.eqb (path request) (repos_path 1)
                  then OK (repeat (example_repo "app") 100)
                  else Status 502 "Bad Gateway";
                repo_commits := fun _ _ => OK [];
                repo_languages := fun _ _ => OK [] |}
             utc [repeat (example_repo "app") 100] (Status 502 "Bad Gateway")
             (GitHubApiError 502 "Bad Gateway")
             5 0 "Thu, 01 Jan 1970 00:00:00 GMT" example_world).
  - reflexivity.
  - constructor; [reflexivity | constructor].
  - intros [| i] h Hi; [reflexivity | cbn in Hi; lia].
  - reflexivity.
  - reflexivity.
  - cbn. lia.
Defined.

(** ** The dates that [main] collects *)

(** X16.  The loop of lines 197-205 against an API whose answers about commits
    do not depend on what was asked before, and have bodies that parse when
    their status is 200.  The dates collected are,
    repository by repository in the order of the list, the author dates of the
    commits returned, in their order and with their repetitions; a commit
    without an author gives no date, and a repository whose request is
    refused gives none. *)
Theorem fetch_dates_collects_the_author_dates (env : Env) (github : GitHub)
    (repos : list Repo) (allDates : list isoDate) (w : World) :
  commits_parse github ->
  (forall (h h' : list Request) (r : Request),
     repo_commits github h r = repo_commits github h' r) ->
  fst (fetch_dates env github allDates repos w)
  = Returned
      (allDates
       ++ flat_map (fun repo =>
                      match repo_commits github [] (commits_request env repo) with
                      | OK commits => commit_dates commits
                      | _ => []
                      end) repos).
Proof.
  intros Hparse Hsame. revert allDates w.
  induction repos as [| repo repos IH]; intros allDates w.
  - cbn [fetch_dates flat_map ret fst]. now rewrite app_nil_r.
  - cbn [fetch_dates flat_map]. unfold bind at 1.
    unfold getCommitActivity, try_catch, githubRequest.
    fold (commits_request env repo).
    rewrite (Hsame (requests w) [] (commits_request env repo)).
    pose proof (Hparse [] (commits_request env repo)) as Hp.
    destruct (repo_commits github [] (commits_request env repo))
      as [commits | body | statusCode data | error]; [| contradiction | |];
      cbn [bind console_log ret fst snd]; rewrite IH;
      fold (commit_dates commits) || idtac; cbn [flat_map app];
      now rewrite ?app_nil_r, ?app_assoc.
Qed.

(** An instance: the repository "empty" fails, the repository "site" has one
    commit, of 2024-01-01. *)
Lemma fetch_dates_collects_the_author_dates_witness :
  fst (fetch_dates example_env failing_github []
         [example_repo "empty"; example_repo "site"] example_world)
  = Returned [19723].
Proof.
  refine (fetch_dates_collects_the_author_dates example_env failing_github
            [example_repo "empty"; example_repo "site"] [] example_world _ _).
  - intros h r. cbn. now destruct (String.eqb _ _).
  - reflexivity.
Defined.

(** ** The sections of README.md *)

(** *** Substrings and the first occurrence of a string *)

Lemma substring_all (s : string) : substring 0 (String.length s) s = s.
Proof. induction s as [| c s IH]; cbn; [reflexivity | now rewrite IH]. Qed.

Lemma substring_prefix (a b : string) :
  substring 0 (String.length a) (a ++ b) = a.
Proof.
  induction a as [| c a IH]; cbn.
  - now destruct b.
  - now rewrite IH.
Qed.

Lemma substring_skip (a b : string) (n m : nat) :
  substring (String.length a + n) m (a ++ b) = substring n m b.
Proof. induction a as [| c a IH]; cbn; [reflexivity | exact IH]. Qed.

Lemma substring_suffix (a b : string) :
  substring (String.length a) (String.length (a ++ b) - String.length a) (a ++ b) = b.
Proof.
  rewrite <- (Nat.add_0_r (String.length a)) at 1. rewrite substring_skip.
  rewrite length_append.
  replace (String.length a + String.length b - String.length a)%nat
    with (String.length b) by lia.
  apply substring_all.
Qed.

Lemma substring_length (n m : nat) (s : string) :
  String.length (substring n m s) = Nat.min m (String.length s - n).
Proof.
  revert n m. induction s as [| c s IH]; intros [| n] [| m]; cbn; try reflexivity.
  - now rewrite IH, Nat.sub_0_r.
  - apply IH.
  - apply IH.
Qed.

(** A string, cut around one of its substrings. *)
Lemma substring_split (n m : nat) (s : string) :
  (n + m <= String.length s)%nat ->
  s = (substring 0 n s ++ substring n m s
       ++ substring (n + m) (String.length s - (n + m)) s)%string.
Proof.
  revert n m. induction s as [| c s IH]; intros n m Hle.
  - cbn in Hle. assert (n = 0%nat) by lia. assert (m = 0%nat) by lia. now subst.
  - destruct n as [| n].
    + destruct m as [| m].
      * cbn. now rewrite substring_all.
      * cbn [substring Nat.add String.length append]. f_equal.
        cbn [String.length] in Hle.
        rewrite (IH 0%nat m) at 1 by lia. cbn [substring append Nat.add].
        replace (substring 0 0 s) with "" by now destruct s.
        reflexivity.
    + cbn [String.length] in Hle.
      cbn [substring Nat.add String.length append Nat.sub]. f_equal.
      rewrite (IH n m) at 1 by lia. reflexivity.
Qed.

Lemma index_ge (s t : string) :
  forall n m : nat, index n s t = Some m -> (n <= m)%nat.
Proof.
  induction t as [| c t IH]; intros [| n] m H; cbn in H; try lia; try discriminate.
  destruct (index n s t) as [k |] eqn:E; [| discriminate].
  injection H as <-. apply IH in E. lia.
Qed.

Lemma index_skip (a b s : string) (n : nat) :
  index (String.length a + n) s (a ++ b)
  = option_map (Nat.add (String.length a)) (index n s b).
Proof.
  induction a as [| c a IH]; cbn [String.length append Nat.add].
  - now destruct (index n s b).
  - cbn [index]. rewrite IH. now destruct (index n s b).
Qed.

(** [s] occurs first at the end of [a]. *)
Lemma index_first (a s b : string) :
  s <> "" ->
  (forall a' b' : string,
     (a ++ s ++ b)%string = (a' ++ s ++ b')%string ->
     (String.length a <= String.length a')%nat) ->
  index 0 s (a ++ s ++ b) = Some (String.length a).
Proof.
  intros Hs Hfirst.
  assert (Hat : substring (String.length a) (String.length s) (a ++ s ++ b) = s).
  { rewrite <- (Nat.add_0_r (String.length a)), substring_skip.
    apply substring_prefix. }
  destruct (index 0 s (a ++ s ++ b)) as [i |] eqn:E.
  - f_equal.
    assert (Hle : (i <= String.length a)%nat).
    { destruct (Nat.le_gt_cases i (String.length a)) as [H | H]; [exact H |].
      exfalso. apply (index_correct2 _ _ _ _ E (String.length a)); [lia | exact H |].
      exact Hat. }
    pose proof (index_correct1 _ _ _ _ E) as Hi.
    assert (Hlen : (i + String.length s <= String.length (a ++ s ++ b))%nat).
    { pose proof (substring_length i (String.length s) (a ++ s ++ b)) as Hl.
      rewrite Hi in Hl. destruct s as [| c s]; [contradiction |].
      cbn [String.length] in *. lia. }
    pose proof (substring_split i (String.length s) _ Hlen) as Hsplit.
    rewrite Hi in Hsplit. apply Hfirst in Hsplit.
    rewrite substring_length in Hsplit. lia.
  - exfalso. apply (index_correct3 _ (String.length a) _ _ E Hs); [lia | exact Hat].
Qed.

(** [s] does not occur in [t]. *)
Lemma index_absent (s t : string) (n : nat) :
  s <> "" ->
  (forall a b : string, t <> (a ++ s ++ b)%string) ->
  index n s t = None.
Proof.
  intros Hs Habsent.
  destruct (index n s t) as [i |] eqn:E; [| reflexivity].
  exfalso.
  pose proof (index_correct1 _ _ _ _ E) as Hi.
  assert (Hlen : (i + String.length s <= String.length t)%nat).
  { pose proof (substring_length i (String.length s) t) as Hl.
    rewrite Hi in Hl. destruct s as [| c s]; [contradiction |].
    cbn [String.length] in *. lia. }
  pose proof (substring_split i (String.length s) _ Hlen) as Hsplit.
  rewrite Hi in Hsplit. exact (Habsent _ _ Hsplit).
Qed.

(** *** The replacement of a section *)

Lemma substring_middle (a m b : string) :
  substring (String.length a) (String.length m) (a ++ m ++ b) = m.
Proof.
  rewrite <- (Nat.add_0_r (String.length a)), substring_skip.
  apply substring_prefix.
Qed.

(** A replacement without dollar sign is put in as it is. *)
Lemma GetSubstitution_no_dollar (matched before after replacement : string) :
  no_dollar replacement = true ->
  GetSubstitution matched before after replacement = replacement.
Proof.
  induction replacement as [| c r IH]; intros H; [reflexivity |].
  cbn [no_dollar] in H. apply andb_prop in H. destruct H as [Hc Hr].
  apply negb_true_iff in Hc. cbn [GetSubstitution]. rewrite Hc.
  now rewrite IH.
Qed.

(** The replacement of what lies between two places of a text. *)
Lemma replace_match_spec (pre matched post replacement : string) :
  replace_match (String.length pre) (String.length pre + String.length matched)
    replacement (pre ++ matched ++ post)
  = (pre ++ GetSubstitution matched pre post replacement ++ post)%string.
Proof.
  unfold replace_match. rewrite substring_prefix.
  replace (String.length pre + String.length matched - String.length pre)%nat
    with (String.length matched) by lia.
  rewrite substring_middle.
  assert (Epost : substring (String.length pre + String.length matched)
                    (String.length (pre ++ matched ++ post)
                     - (String.length pre + String.length matched))
                    (pre ++ matched ++ post) = post).
  { pose proof (substring_suffix (pre ++ matched) post) as H.
    rewrite (append_assoc pre matched post) in H.
    now rewrite (length_append pre matched) in H. }
  now rewrite Epost.
Qed.

(** X17.  A section is replaced between its markers.  When the opening marker
    occurs first after [pre] and the closing marker occurs first, after the
    opening one, after [old], then [replace_region] puts the expansion of the
    replacement in the place of the two markers and of [old] between them, and
    keeps what is before and what is after, a later pair of markers too.  In
    the expansion, [$$] has become a dollar sign, [$&] the section replaced,
    [$`] the text before it and [$'] the text after it; a replacement without
    dollar sign is put in as it is. *)
Theorem replace_region_replaces_the_first_region
    (open close replacement pre old post : string) :
  open <> "" -> close <> "" ->
  (forall a b : string,
     (pre ++ open ++ old ++ close ++ post)%string = (a ++ open ++ b)%string ->
     (String.length pre <= String.length a)%nat) ->
  (forall a b : string,
     (old ++ close ++ post)%string = (a ++ close ++ b)%string ->
     (String.length old <= String.length a)%nat) ->
  replace_region open close replacement (pre ++ open ++ old ++ close ++ post)
  = (pre ++ GetSubstitution (open ++ old ++ close) pre post replacement ++ post)%string /\
  (no_dollar replacement = true ->
   replace_region open close replacement (pre ++ open ++ old ++ close ++ post)
   = (pre ++ replacement ++ post)%string).
Proof.
  intros Hopen Hclose Hfirst Hnext.
  assert (E : replace_region open close replacement (pre ++ open ++ old ++ close ++ post)
              = (pre ++ GetSubstitution (open ++ old ++ close) pre post replacement
                 ++ post)%string).
  { unfold replace_region.
    rewrite (index_first pre open (old ++ close ++ post) Hopen Hfirst).
    assert (Hj : index (String.length pre + String.length open) close
                   (pre ++ open ++ old ++ close ++ post)
                 = Some (String.length pre + String.length open + String.length old)%nat).
    { rewrite <- (append_assoc pre open), <- (length_append pre open).
      rewrite <- (Nat.add_0_r (String.length (pre ++ open))) at 1.
      rewrite index_skip, (index_first old close post Hclose Hnext).
      reflexivity. }
    rewrite Hj.
    pose proof (replace_match_spec pre (open ++ old ++ close) post replacement) as H.
    rewrite !length_append in H. rewrite !append_assoc in H.
    replace (String.length pre + String.length open + String.length old
             + String.length close)%nat
      with (String.length pre
            + (String.length open + (String.length old + String.length close)))%nat
      by lia.
    exact H. }
  split; [exact E |].
  intros Hplain. rewrite E. now rewrite GetSubstitution_no_dollar.
Qed.

(** The converse readings of [index], for texts that are given. *)
Lemma index_is_first (s t : string) (i : nat) :
  index 0 s t = Some i ->
  forall a b : string, t = (a ++ s ++ b)%string -> (i <= String.length a)%nat.
Proof.
  intros E a b ->.
  destruct (Nat.le_gt_cases i (String.length a)) as [H | H]; [exact H |].
  exfalso. apply (index_correct2 _ _ _ _ E (String.length a)); [lia | exact H |].
  rewrite <- (Nat.add_0_r (String.length a)), substring_skip.
  apply substring_prefix.
Qed.

Lemma index_None_absent (s t : string) :
  s <> "" -> index 0 s t = None ->
  forall a b : string, t <> (a ++ s ++ b)%string.
Proof.
  intros Hs E a b ->.
  apply (index_correct3 _ (String.length a) _ _ E Hs); [lia |].
  rewrite <- (Nat.add_0_r (String.length a)), substring_skip.
  apply substring_prefix.
Qed.

(** An instance: the section of the streaks, with a second closing marker
    further down. *)
Lemma replace_region_replaces_the_first_region_witness :
  replace_region "<!-- STREAK_START -->" "<!-- STREAK_END -->" "NEW"
    "# Hi <!-- STREAK_START -->old<!-- STREAK_END --> bye <!-- STREAK_END -->"
  = "# Hi NEW bye <!-- STREAK_END -->".
Proof.
  refine (proj2 (replace_region_replaces_the_first_region
                   "<!-- STREAK_START -->" "<!-- STREAK_END -->" "NEW"
                   "# Hi " "old" " bye <!-- STREAK_END -->" _ _ _ _) _).
  - discriminate.
  - discriminate.
  - intros a b H. refine (index_is_first _ _ 5 _ a b H). reflexivity.
  - intros a b H. refine (index_is_first _ _ 3 _ a b H). reflexivity.
  - reflexivity.
Defined.

(** A language named 'C$&' brings the old section back into the new one. *)
Example dollar_in_the_replacement :
  replace_region "<!-- L -->" "<!-- /L -->" "<!-- L -->C$& 9.9%<!-- /L -->"
    "a <!-- L -->old<!-- /L --> z"
  = "a <!-- L -->C<!-- L -->old<!-- /L --> 9.9%<!-- /L --> z".
Proof. vm_compute. reflexivity. Qed.

Lemma replace_region_absent (open close replacement readme : string) :
  open <> "" ->
  (forall a b : string, readme <> (a ++ open ++ b)%string) ->
  replace_region open close replacement readme = readme.
Proof.
  intros Hopen Habsent. unfold replace_region.
  now rewrite (index_absent open readme 0 Hopen Habsent).
Qed.

(** X18.  A section needs both its markers.  [replace_region] returns the text
    as it is when the opening marker does not occur in it, and also when the
    opening marker occurs but no closing marker comes after it. *)
Theorem replace_region_needs_both_markers (open close replacement : string) :
  open <> "" -> close <> "" ->
  (forall readme : string,
     (forall a b : string, readme <> (a ++ open ++ b)%string) ->
     replace_region open close replacement readme = readme) /\
  (forall pre rest : string,
     (forall a b : string,
        (pre ++ open ++ rest)%string = (a ++ open ++ b)%string ->
        (String.length pre <= String.length a)%nat) ->
     (forall a b : string, rest <> (a ++ close ++ b)%string) ->
     replace_region open close replacement (pre ++ open ++ rest)
     = (pre ++ open ++ rest)%string).
Proof.
  intros Hopen Hclose. split.
  - intros readme Habsent. now apply replace_region_absent.
  - intros pre rest Hfirst Habsent. unfold replace_region.
    rewrite (index_first pre open rest Hopen Hfirst).
    rewrite <- (append_assoc pre open), <- (length_append pre open).
    rewrite <- (Nat.add_0_r (String.length (pre ++ open))) at 1.
    rewrite index_skip, (index_absent close rest 0 Hclose Habsent).
    reflexivity.
Qed.

(** An instance: a closing marker that comes before the opening one does not
    count. *)
Lemma replace_region_needs_both_markers_witness :
  replace_region "<!-- STREAK_START -->" "<!-- STREAK_END -->" "NEW"
    "<!-- STREAK_END --> then <!-- STREAK_START --> 3 days"
  = "<!-- STREAK_END --> then <!-- STREAK_START --> 3 days".
Proof.
  refine (proj2 (replace_region_needs_both_markers
                   "<!-- STREAK_START -->" "<!-- STREAK_END -->" "NEW" _ _)
            "<!-- STREAK_END --> then " " 3 days" _ _).
  - discriminate.
  - discriminate.
  - intros a b H. refine (index_is_first _ _ 25 _ a b H). reflexivity.
  - apply index_None_absent; [discriminate | reflexivity].
Defined.

(** X19.  A README without the markers.  When none of the three opening markers
    and no "*Last Updated:" occurs in README.md, [update_readme] returns the
    text as it was, whatever the statistics: the sections are not added. *)
Theorem update_readme_without_markers (streaks : Streaks)
    (yearlyStats : list YearSummary) (languages nowUTC readme : string) :
  (forall a b : string, readme <> (a ++ "<!-- STREAK_START -->" ++ b)%string) ->
  (forall a b : string, readme <> (a ++ "<!-- YEARLY_START -->" ++ b)%string) ->
  (forall a b : string, readme <> (a ++ "<!-- LANGUAGES_START -->" ++ b)%string) ->
  (forall a b : string, readme <> (a ++ "*Last Updated:" ++ b)%string) ->
  update_readme streaks yearlyStats languages nowUTC readme = readme.
Proof.
  intros Hs Hy Hl Hu. unfold update_readme.
  rewrite (replace_region_absent "<!-- STREAK_START -->"); [| discriminate | exact Hs].
  rewrite (replace_region_absent "<!-- YEARLY_START -->"); [| discriminate | exact Hy].
  rewrite (replace_region_absent "<!-- LANGUAGES_START -->"); [| discriminate | exact Hl].
  cbn [replace_stamp].
  rewrite (index_absent "*Last Updated:" readme 0); [reflexivity | discriminate | exact Hu].
Qed.

(** An instance: a README that has never been prepared. *)
Lemma update_readme_without_markers_witness :
  update_readme {| current := 3; longest := 7; total := 42 |} [] "" "now"
    "# Hi, I am octocat"
  = "# Hi, I am octocat".
Proof.
  refine (update_readme_without_markers _ _ _ _ "# Hi, I am octocat" _ _ _ _);
    (apply index_None_absent; [discriminate | reflexivity]).
Defined.

(** *** The line of the last update *)

Lemma prefix_star (c : ascii) (s : string) :
  prefix "*" (String c s) = false -> Ascii.eqb c "*" = false.
Proof.
  intros H. destruct (Ascii.eqb_spec c "*") as [-> | Hne]; [| reflexivity].
  destruct s; vm_compute in H; discriminate.
Qed.

Lemma last_star_none (line tail : string) (pos : nat) (found : option nat) :
  all_places in_line_no_star line tail = true ->
  line_ends tail = true ->
  last_star (line ++ tail) pos found = found.
Proof.
  revert pos. induction line as [| c line IH]; intros pos Hline Htail.
  - cbn [append]. destruct tail as [| c tail]; [reflexivity |].
    cbn [line_ends] in Htail. cbn [last_star]. now rewrite Htail.
  - cbn [all_places] in Hline. apply andb_prop in Hline. destruct Hline as [Hc Hline].
    unfold in_line_no_star in Hc. apply andb_prop in Hc. destruct Hc as [Heol Hstar].
    apply negb_true_iff in Heol, Hstar. cbn [append] in Heol, Hstar.
    apply prefix_star in Hstar.
    cbn [append last_star]. rewrite Heol, Hstar.
    now apply IH.
Qed.

Lemma last_star_found (old line tail : string) :
  all_places in_line old ("*" ++ line ++ tail) = true ->
  all_places in_line_no_star line tail = true ->
  line_ends tail = true ->
  forall (pos : nat) (found : option nat),
    last_star (old ++ "*" ++ line ++ tail) pos found
    = Some (pos + String.length old)%nat.
Proof.
  intros Hold Hline Htail.
  induction old as [| c old IH]; intros pos found.
  - cbn [append String.length].
    change ("*" ++ line ++ tail)%string with (String "*" (line ++ tail)).
    cbn [last_star].
    change (at_line_end (String "*" (line ++ tail))) with false.
    cbn [Ascii.eqb Bool.eqb].
    rewrite (last_star_none line tail (S pos) (Some pos) Hline Htail).
    now rewrite Nat.add_0_r.
  - cbn [all_places] in Hold. apply andb_prop in Hold. destruct Hold as [Heol Hold].
    unfold in_line in Heol. apply negb_true_iff in Heol. cbn [append] in Heol.
    cbn [append last_star String.length]. rewrite Heol.
    rewrite (IH Hold). f_equal. lia.
Qed.

(** X20.  The line of the last update is replaced up to its last asterisk.
    When "*Last Updated:" occurs first after [pre] and is followed, on its
    line, by [old], an asterisk and a rest of the line without asterisk, the
    expansion of the replacement takes the place of everything from
    "*Last Updated:" to that asterisk; what is before, the rest of the line
    and the lines after it are kept.  A line ends at a line feed, a carriage
    return, a line separator (U+2028) or a paragraph separator (U+2029), or
    with the text; a replacement without dollar sign, as the script's is, is
    put in as it is. *)
Theorem replace_stamp_replaces_up_to_the_last_asterisk
    (fuel : nat) (replacement pre old line tail : string) :
  (forall a b : string,
     (pre ++ "*Last Updated:" ++ old ++ "*" ++ line ++ tail)%string
     = (a ++ "*Last Updated:" ++ b)%string ->
     (String.length pre <= String.length a)%nat) ->
  all_places in_line old ("*" ++ line ++ tail) = true ->
  all_places in_line_no_star line tail = true ->
  line_ends tail = true ->
  replace_stamp (S fuel) 0 replacement
    (pre ++ "*Last Updated:" ++ old ++ "*" ++ line ++ tail)
  = (pre ++ GetSubstitution ("*Last Updated:" ++ old ++ "*") pre (line ++ tail)
              replacement
     ++ line ++ tail)%string /\
  (no_dollar replacement = true ->
   replace_stamp (S fuel) 0 replacement
     (pre ++ "*Last Updated:" ++ old ++ "*" ++ line ++ tail)
   = (pre ++ replacement ++ line ++ tail)%string).
Proof.
  intros Hfirst Hold Hline Htail.
  assert (E : replace_stamp (S fuel) 0 replacement
                (pre ++ "*Last Updated:" ++ old ++ "*" ++ line ++ tail)
              = (pre ++ GetSubstitution ("*Last Updated:" ++ old ++ "*") pre
                          (line ++ tail) replacement
                 ++ line ++ tail)%string).
  { cbn [replace_stamp].
    rewrite (index_first pre "*Last Updated:" (old ++ "*" ++ line ++ tail));
      [| discriminate | exact Hfirst].
    cbv zeta.
    set (rest := (old ++ "*" ++ line ++ tail)%string).
    assert (Erest : substring (String.length pre + 14)
                      (String.length (pre ++ "*Last Updated:" ++ rest)
                       - (String.length pre + 14))
                      (pre ++ "*Last Updated:" ++ rest) = rest).
    { pose proof (substring_suffix (pre ++ "*Last Updated:") rest) as H.
      rewrite (append_assoc pre "*Last Updated:" rest) in H.
      rewrite (length_append pre "*Last Updated:") in H. exact H. }
    rewrite Erest. unfold rest at 1.
    rewrite (last_star_found old line tail Hold Hline Htail).
    unfold rest.
    pose proof (replace_match_spec pre ("*Last Updated:" ++ old ++ "*") (line ++ tail)
                  replacement) as H.
    rewrite !length_append in H. rewrite !append_assoc in H.
    cbn [String.length] in H.
    replace (S (String.length pre + 14 + String.length old))
      with (String.length pre + (14 + (String.length old + 1)))%nat by lia.
    exact H. }
  split; [exact E |].
  intros Hplain. rewrite E. now rewrite GetSubstitution_no_dollar.
Qed.

(** An instance: a stamp in italics inside a line, with an asterisk in the
    old text. *)
Lemma replace_stamp_replaces_up_to_the_last_asterisk_witness :
  replace_stamp 5 0 "*Last Updated: NOW*"
    ("Stats" ++ newline ++ "x *Last Updated: a * b* c" ++ newline ++ "*bye*")
  = ("Stats" ++ newline ++ "x *Last Updated: NOW* c" ++ newline ++ "*bye*")%string.
Proof.
  refine (proj2 (replace_stamp_replaces_up_to_the_last_asterisk 4 "*Last Updated: NOW*"
                   ("Stats" ++ newline ++ "x ") " a * b" " c" (newline ++ "*bye*")
                   _ _ _ _) _).
  - intros a b H. refine (index_is_first _ _ 8 _ a b H). reflexivity.
  - reflexivity.
  - reflexivity.
  - reflexivity.
  - reflexivity.
Defined.

(** A line separator ends the line of the stamp: the asterisk after it is
    not the last of the line. *)
Example stamp_stops_at_a_line_separator :
  replace_stamp 5 0 "*Last Updated: NOW*"
    ("*Last Updated: then*" ++ line_separator ++ "*bye*")
  = ("*Last Updated: NOW*" ++ line_separator ++ "*bye*")%string.
Proof. vm_compute. reflexivity. Qed.
(** ** The claim about the environment *)

(** C9, as the script has it.  The script does not look at whether the token
    or the user name is set.  Whatever the environment, a run begins with the
    request for the first page of repositories, whose Authorization header is
    'token ' followed by the token, or by 'undefined' when the token is not
    set (and the requests for commits carry 'author=undefined' when the user
    name is not set).  When the API refuses that request, the run prints the
    error of the API and exits with status 1, having made that one request and
    left README.md as it was.  And whatever the environment, the run exits
    with status 0 when the list of the repositories comes, the bodies of the
    answers with status 200 parse, README.md can be read and written, and the
    languages have plain names and less than 2^53 bytes: that a variable is
    not set is never an error by itself. *)
Theorem C9_environment_is_not_checked (env : Env) (github : GitHub)
    (zone : TimeZone) (fuel : nat) (now : Z) (nowUTC : string) (w : World) :
  (exists more : list Request,
     requests (snd (run env github zone (S fuel) now nowUTC w))
     = requests w ++ request_options env (repos_path 1) :: more) /\
  headers (request_options env (repos_path 1))
  = [("User-Agent", "GitHub-Stats-Generator");
     ("Authorization", ("token " ++ interpolate (GITHUB_TOKEN env))%string);
     ("Accept", "application/vnd.github.v3+json")] /\
  interpolate None = "undefined" /\
  (forall owner repo : string,
     commits_path env owner repo
     = ("/repos/" ++ owner ++ "/" ++ repo ++ "/commits?author="
        ++ interpolate (USERNAME env) ++ "&per_page=100")%string) /\
  (forall (statusCode : Z) (data : string),
     user_repos github (requests w) (request_options env (repos_path 1))
     = Status statusCode data ->
     run env github zone (S fuel) now nowUTC w
     = (Some 1,
        {| requests := requests w ++ [request_options env (repos_path 1)];
           console := console w ++ [Log "Fetching repositories...";
                                    ErrorLine (GitHubApiError statusCode data)];
           README := README w; README_writable := README_writable w |})) /\
  (forall (repos : list Repo) (w1 : World),
     getAllRepos env github (S fuel) (logged "Fetching repositories..." w)
     = (Returned repos, w1) ->
     commits_parse github -> languages_parse github ->
     README w <> None -> README_writable w = true ->
     plain_names (language_entries env github repos
                    (world_at_languages env github repos w1)) ->
     included_bytes (language_entries env github repos
                       (world_at_languages env github repos w1)) < 2 ^ 53 ->
     fst (run env github zone (S fuel) now nowUTC w) = Some 0).
Proof.
  split; [| split; [reflexivity | split; [reflexivity | split; [reflexivity | split]]]].
  - unfold run. rewrite main_first_request. cbv zeta.
    destruct (user_repos github (requests w) (request_options env (repos_path 1)))
      as [data | body | code body | err].
    + set (w1 := {| requests := requests w ++ [request_options env (repos_path 1)];
                    console := console w ++ [Log "Fetching repositories..."];
                    README := README w; README_writable := README_writable w |}).
      destruct (grows_after_first_page env github zone fuel now nowUTC data w1)
        as (more & E).
      exists more.
      destruct (after_first_page env github zone fuel now nowUTC data w1)
        as [[a | e | | e] w2]; cbn [snd requests] in *;
        rewrite E; unfold w1; cbn [requests]; now rewrite <- app_assoc.
    + exists []. reflexivity.
    + exists []. reflexivity.
    + exists []. reflexivity.
  - intros code body Hresp. unfold run. rewrite main_first_request, Hresp.
    cbv zeta. cbn [requests console README README_writable].
    now rewrite <- app_assoc.
  - intros repos w1 H1 Hcommits Hlanguages Hreadme Hwritable Hplain Hbytes.
    now apply (run_succeeds env github zone (S fuel) now nowUTC w repos w1).
Qed.

(** C9 as stated fails: with neither variable set and an API that answers,
    the run makes its three requests with 'token undefined' and
    'author=undefined', updates README.md and exits with status 0. *)
Lemma C9_counterexample_run_without_environment :
  fst (run empty_env (example_github [("Go", 10%N)]) utc 5 (19723 * msPerDay)
           "Mon, 01 Jan 2024 00:00:00 GMT" example_world) = Some 0 /\
  map (fun r => (path r, headers r))
      (requests (snd (run empty_env (example_github [("Go", 10%N)]) utc 5
                          (19723 * msPerDay) "Mon, 01 Jan 2024 00:00:00 GMT"
                          example_world)))
  = map (fun p => (p, [("User-Agent", "GitHub-Stats-Generator");
                       ("Authorization", "token undefined");
                       ("Accept", "application/vnd.github.v3+json")]))
        ["/user/repos?per_page=100&page=1&affiliation=owner,collaborator,organization_member";
         "/repos/octocat/site/commits?author=undefined&per_page=100";
         "/repos/octocat/site/languages"] /\
  requests (snd (run empty_env (example_github [("Go", 10%N)]) utc 5
                     (19723 * msPerDay) "Mon, 01 Jan 2024 00:00:00 GMT"
                     example_world)) <> [].
Proof.
  split; [vm_compute; reflexivity |].
  split; [vm_compute; reflexivity |].
  vm_compute. discriminate.
Qed.

(** An instance of C9: an API that answers 401 to a request without a
    token. *)
Lemma C9_witness :
  run empty_env
      {| user_repos := fun _ _ => Status 401 "Bad credentials";
         repo_commits := fun _ _ => Status 401 "Bad credentials";
         repo_languages := fun _ _ => Status 401 "Bad credentials" |}
      utc 1 0 "Thu, 01 Jan 1970 00:00:00 GMT" example_world
  = (Some 1,
     {| requests := [request_options empty_env (repos_path 1)];
        console := [Log "Fetching repositories...";
                    ErrorLine (GitHubApiError 401 "Bad credentials")];
        README := README example_world;
        README_writable := README_writable example_world |}).
Proof.
  refine (proj1 (proj2 (proj2 (proj2 (proj2
            (C9_environment_is_not_checked empty_env
               {| user_repos := fun _ _ => Status 401 "Bad credentials";
                  repo_commits := fun _ _ => Status 401 "Bad credentials";
                  repo_languages := fun _ _ => Status 401 "Bad credentials" |}
               utc 0 0 "Thu, 01 Jan 1970 00:00:00 GMT" example_world)))))
          401 "Bad credentials" eq_refl).
Defined.
